(** * Media-generation proxy: job lifecycle, poll worker, dual-transport submission

    A shallow embedding of two Express servers of the repository:
    - [src/unnamed/part_000]: the image server with the JSON attempt and
      the multipart retry (module [Image]);
    - [src/server.js]: the video server with its job registry, detached
      submission task, [pollWorker] driven by [setInterval], and status
      route (module [Video]).
    [src/index.js] is the earlier image server, a JSON attempt without
    the retry (module [Legacy]).

    Strings are sequences of code units restricted to U+0000..U+00FF, held
    in Rocq's [string].  JavaScript numbers that the code only tests for
    truthiness are rationals; timestamps and HTTP statuses are integers. *)

From stdpp Require Import base relations list strings.
From Stdlib Require Import ZArith Lia Ascii DecimalString QArith_base.

Open Scope Z_scope.

(* ===================================================================== *)
(** ** JavaScript values and strings                                      *)
(* ===================================================================== *)

Module Js.

(** A value produced by [JSON.parse], plus [undefined]. An object keeps
    its properties in insertion order; a parsed object has unique keys. *)
#[warnings="-register-all"]
Inductive JVal : Type :=
| JUndefined
| JNull
| JBool (b : bool)
| JNum (q : Q)
| JStr (s : string)
| JArr (items : list JVal)
| JObj (props : list (string * JVal)).

(** The outcome of an operation that may throw: [err.message] on a throw. *)
Inductive Exc (A : Type) : Type :=
| Ok (a : A)
| Raise (msg : string).
Arguments Ok {A} a.
Arguments Raise {A} msg.

Definition bindE {A B} (m : Exc A) (k : A -> Exc B) : Exc B :=
  match m with Ok a => k a | Raise e => Raise e end.

(** [try { m } catch (err) { h err.message }] *)
Definition try_catch {A} (m : Exc A) (h : string -> Exc A) : Exc A :=
  match m with Ok a => Ok a | Raise e => h e end.

(** ToBoolean. *)
Definition truthy (v : JVal) : bool :=
  match v with
  | JUndefined | JNull => false
  | JBool b => b
  | JNum q => negb (Qnum q =? 0)
  | JStr s => negb (String.eqb s "")
  | JArr _ | JObj _ => true
  end.

(** [a || b] and [a && b] return one of their operands. *)
Definition or_ (a b : JVal) : JVal := if truthy a then a else b.
Definition and_ (a b : JVal) : JVal := if truthy a then b else a.

Fixpoint lookup_prop (k : string) (props : list (string * JVal)) : JVal :=
  match props with
  | [] => JUndefined
  | (k', v) :: rest => if String.eqb k k' then v else lookup_prop k rest
  end.

(** [v.k] for a key that no built-in prototype defines (every key the
    servers read is such a key). Reading a property of [null] or
    [undefined] throws a TypeError; a primitive or an array has no such
    property. *)
Definition get (v : JVal) (k : string) : Exc JVal :=
  match v with
  | JUndefined => Raise ("Cannot read properties of undefined (reading '" +:+ k +:+ "')")
  | JNull => Raise ("Cannot read properties of null (reading '" +:+ k +:+ "')")
  | JObj props => Ok (lookup_prop k props)
  | _ => Ok JUndefined
  end.

(** [v.k] where [v] is already known not to be [null]/[undefined]
    (the code guards the access with [&&]). *)
Definition prop (v : JVal) (k : string) : JVal :=
  match v with
  | JObj props => lookup_prop k props
  | _ => JUndefined
  end.

(** [v[0]]: first element of an array, first code unit of a string,
    property ["0"] of an object. *)
Definition index0 (v : JVal) : JVal :=
  match v with
  | JArr (x :: _) => x
  | JStr (String c _) => JStr (String c "")
  | JObj props => lookup_prop "0" props
  | _ => JUndefined
  end.

(** [a && a.k] *)
Definition guarded (a : JVal) (k : string) : JVal := and_ a (prop a k).

(** [a && a[0] && a[0].k] *)
Definition first_of (a : JVal) (k : string) : JVal :=
  and_ (and_ a (index0 a)) (prop (index0 a) k).

(** Strict equality with a string literal. *)
Definition is_str (v : JVal) (lit : string) : bool :=
  match v with JStr s => String.eqb s lit | _ => false end.

(** *** Strings *)

Definition charCode (c : ascii) : Z := Z.of_N (Ascii.N_of_ascii c).

(** WhiteSpace and LineTerminator code units below U+0100. *)
Definition is_space (c : ascii) : bool :=
  let n := charCode c in
  (n =? 9) || (n =? 10) || (n =? 11) || (n =? 12) || (n =? 13) || (n =? 32) || (n =? 160).

Fixpoint trimStart (s : string) : string :=
  match s with
  | String c r => if is_space c then trimStart r else s
  | EmptyString => EmptyString
  end.

Fixpoint trimEnd (s : string) : string :=
  match s with
  | String c r =>
      match trimEnd r with
      | EmptyString => if is_space c then EmptyString else String c EmptyString
      | r' => String c r'
      end
  | EmptyString => EmptyString
  end.

Definition trim (s : string) : string := trimEnd (trimStart s).

Definition lower_char (c : ascii) : ascii :=
  let n := charCode c in
  if ((65 <=? n) && (n <=? 90)) || ((192 <=? n) && (n <=? 222) && negb (n =? 215))
  then Ascii.ascii_of_N (Z.to_N (n + 32))
  else c.

Fixpoint toLowerCase (s : string) : string :=
  match s with
  | String c r => String (lower_char c) (toLowerCase r)
  | EmptyString => EmptyString
  end.

Fixpoint startsWith (s m : string) : bool :=
  match m, s with
  | EmptyString, _ => true
  | String a m', String b s' => Ascii.eqb a b && startsWith s' m'
  | String _ _, EmptyString => false
  end.

(** [s.includes(m)] *)
Fixpoint includes (s m : string) : bool :=
  startsWith s m ||
  match s with
  | String _ r => includes r m
  | EmptyString => false
  end.

(** Decimal rendering of an integer inside a template literal. *)
Definition show (z : Z) : string := NilZero.string_of_int (Z.to_int z).

(** *** ToString and [parseInt]

    ToString of [undefined], [null], a boolean and a string is fixed by
    the language. ToString of a number, of an array and of an object,
    and the reading of an integer off a string, are the library's. The
    first throws a TypeError for a value that cannot be converted to a
    primitive: an object with an own property [toString] that is no
    function, as [JSON.parse] makes of the key "toString", or an array
    that holds one. *)
Section Library.

(** [parseInt(s, 10)] on a string; [None] is NaN. *)
Variable parseInt10 : string -> option Z.

(** ToString on a number, an array or an object. *)
Variable toStr : JVal -> Exc string.

Definition ToString (v : JVal) : Exc string :=
  match v with
  | JUndefined => Ok "undefined"
  | JNull => Ok "null"
  | JBool true => Ok "true"
  | JBool false => Ok "false"
  | JStr s => Ok s
  | JNum _ | JArr _ | JObj _ => toStr v
  end.

(** [parseInt(v, 10)]: ToString of the argument, then the reading. *)
Definition parseInt (v : JVal) : Exc (option Z) :=
  bindE (ToString v) (fun s => Ok (parseInt10 s)).

End Library.

(** *** [Buffer.from(s, 'base64')]

    Node's decoder reads up to the first ['='], skips every character
    outside the standard and URL-safe alphabets, and turns each group of
    four sextets into three bytes; a trailing group of two or three
    sextets gives one or two bytes. *)
Definition sextet (c : ascii) : option Z :=
  let n := charCode c in
  if (65 <=? n) && (n <=? 90) then Some (n - 65)
  else if (97 <=? n) && (n <=? 122) then Some (n - 71)
  else if (48 <=? n) && (n <=? 57) then Some (n + 4)
  else if (n =? 43) || (n =? 45) then Some 62
  else if (n =? 47) || (n =? 95) then Some 63
  else None.

Fixpoint sextets (s : string) : list Z :=
  match s with
  | EmptyString => []
  | String c r =>
      if charCode c =? 61 then []
      else match sextet c with
           | Some v => v :: sextets r
           | None => sextets r
           end
  end.

Definition byte_of_Z (z : Z) : Byte.byte :=
  Ascii.byte_of_ascii (Ascii.ascii_of_N (Z.to_N (Z.land z 255))).

Fixpoint unsextet (l : list Z) : list Byte.byte :=
  match l with
  | a :: b :: c :: d :: rest =>
      let w := Z.lor (Z.lor (Z.shiftl a 18) (Z.shiftl b 12)) (Z.lor (Z.shiftl c 6) d) in
      byte_of_Z (Z.shiftr w 16) :: byte_of_Z (Z.shiftr w 8) :: byte_of_Z w :: unsextet rest
  | [a; b; c] =>
      let w := Z.lor (Z.lor (Z.shiftl a 18) (Z.shiftl b 12)) (Z.shiftl c 6) in
      [byte_of_Z (Z.shiftr w 16); byte_of_Z (Z.shiftr w 8)]
  | [a; b] =>
      let w := Z.lor (Z.shiftl a 18) (Z.shiftl b 12) in
      [byte_of_Z (Z.shiftr w 16)]
  | _ => []
  end.

Definition from_base64 (s : string) : list Byte.byte := unsextet (sextets s).

End Js.

Import Js.

(* ===================================================================== *)
(** ** What [fetch] resolves with                                         *)
(* ===================================================================== *)

Module Http.

(** An exchange with the provider once its body has been read. [text]
    is [resp.text()] and [json] is [resp.json()], that is
    [JSON.parse(text)], which throws on a body that is not JSON. The
    code touches no shared state between [await fetch(..)] and the
    [await] that reads the body, so the two are one reply here; a
    rejected [fetch] or body read is [Raise] at the call. *)
Record Response := {
  status : Z;
  statusText : string;
  text : string;
  json : Exc JVal
}.

(** node-fetch: [ok] is [status >= 200 && status < 300]. *)
Definition ok (r : Response) : bool := (200 <=? status r) && (status r <? 300).

(** A download: the status, and [resp.buffer()]. *)
Record Download := {
  dl_status : Z;
  dl_buffer : Exc (list Byte.byte)
}.

Definition dl_ok (d : Download) : bool := (200 <=? dl_status d) && (dl_status d <? 300).

(** [res.status(code).json(body)] *)
Record Out := {
  code : Z;
  body : JVal
}.

Definition env_var (v : option string) : JVal :=
  match v with Some s => JStr s | None => JUndefined end.

Definition num (z : Z) : JVal := JNum (inject_Z z).

(** [process.env.NAME || fallback]: both are strings. *)
Definition env_or (v : option string) (fallback : string) : string :=
  match v with
  | Some s => if String.eqb s "" then fallback else s
  | None => fallback
  end.

(** The message of the TypeError of [(req.body.prompt || '').trim()]
    when the value has no [trim]; the engine prints the empty string
    literal with double quotes. *)
Definition quote : string := String (Ascii.ascii_of_N 34) EmptyString.

Definition trim_is_not_a_function : string :=
  "(req.body.prompt || " +:+ quote +:+ quote +:+ ").trim is not a function".

(** [(req.body.prompt || '').trim()]: only a string has [trim]. *)
Definition trimmed (v : JVal) : Exc string :=
  match or_ v (JStr "") with
  | JStr s => Ok (trim s)
  | _ => Raise trim_is_not_a_function
  end.

(** [!prompt || prompt.length < 3] *)
Definition too_short (prompt : string) : bool :=
  String.eqb prompt "" || (String.length prompt <? 3)%nat.

End Http.

(* ===================================================================== *)
(** ** The image server ([src/unnamed/part_000])                          *)
(* ===================================================================== *)

Module Image.

Import Http.

(** The object [payload] of the handler; a number is [None] when NaN. *)
Record Payload := {
  text_prompts : string;      (* [{ text: prompt }] *)
  p_width : option Z;
  p_height : option Z;
  p_samples : option Z
}.

Definition payload_json (p : Payload) : JVal :=
  JArr [JObj [("text", JStr (text_prompts p))]].

(** One value appended to the multipart form. *)
Inductive Field : Type :=
| FText (s : string)
| FJson (v : JVal).          (* JSON.stringify(v) *)

(** Every interaction of the handler with the outside. *)
Inductive Call : Type :=
| PostJson (url apiKey : string) (body : Payload)
| PostForm (url apiKey : string) (form : list (string * Field))
| Get (url : JVal)
| DateNow
| MathRandom (bound : Z)                       (* Math.floor(Math.random() * bound) *)
| WriteFileSync (name : string) (data : list Byte.byte).

Definition reply (c : Call) : Type :=
  match c with
  | PostJson _ _ _ | PostForm _ _ _ => Exc Response
  | Get _ => Exc Download
  | DateNow | MathRandom _ => Z
  | WriteFileSync _ _ => Exc unit
  end.

(** A handler is a tree of interactions ending in a value or a throw. *)
Inductive Prog (A : Type) : Type :=
| Ret (a : A)
| Throw (msg : string)
| Do (c : Call) (k : reply c -> Prog A).
Arguments Ret {A} a.
Arguments Throw {A} msg.
Arguments Do {A} c k.

Fixpoint bind {A B} (p : Prog A) (f : A -> Prog B) : Prog B :=
  match p with
  | Ret a => f a
  | Throw m => Throw m
  | Do c k => Do c (fun r => bind (k r) f)
  end.

Fixpoint catch {A} (p : Prog A) (h : string -> Prog A) : Prog A :=
  match p with
  | Ret a => Ret a
  | Throw m => h m
  | Do c k => Do c (fun r => catch (k r) h)
  end.

Definition lift {A} (e : Exc A) : Prog A :=
  match e with Ok a => Ret a | Raise m => Throw m end.

Notation "'do' x <- p ; q" := (bind p (fun x => q))
  (at level 10, x name, p at level 100, q at level 200).

(** A call whose failure is thrown into the caller. *)
Definition await_ (c : Call) : Prog (match c with
                                      | PostJson _ _ _ | PostForm _ _ _ => Response
                                      | Get _ => Download
                                      | DateNow | MathRandom _ => Z
                                      | WriteFileSync _ _ => unit
                                      end) :=
  match c with
  | PostJson u k b => Do (PostJson u k b) lift
  | PostForm u k f => Do (PostForm u k f) lift
  | Get u => Do (Get u) lift
  | DateNow => Do DateNow Ret
  | MathRandom n => Do (MathRandom n) Ret
  | WriteFileSync n d => Do (WriteFileSync n d) lift
  end.

(** The environment answers each call, knowing the calls made so far. *)
Definition Oracle : Type := list Call -> forall c : Call, reply c.

(** Running a handler: its outcome and the calls it made, in order. *)
Fixpoint run {A} (p : Prog A) (o : Oracle) (hist : list Call) : Exc A * list Call :=
  match p with
  | Ret a => (Ok a, hist)
  | Throw m => (Raise m, hist)
  | Do c k => run (k (o hist c)) o (hist ++ [c])
  end.

Definition is_form (c : Call) : bool :=
  match c with PostForm _ _ _ => true | _ => false end.

Definition is_json (c : Call) : bool :=
  match c with PostJson _ _ _ => true | _ => false end.

(** How many calls of a trace are of a given kind. *)
Fixpoint count (f : Call -> bool) (t : list Call) : nat :=
  match t with
  | [] => 0
  | c :: rest => ((if f c then 1 else 0) + count f rest)%nat
  end.

(** A handler that posts nothing to the provider, whatever it is answered. *)
Inductive quiet {A : Type} : Prog A -> Prop :=
| quiet_Ret a : quiet (Ret a)
| quiet_Throw m : quiet (Throw m)
| quiet_Do c k :
    is_form c = false -> is_json c = false ->
    (forall r, quiet (k r)) -> quiet (Do c k).

(** *** [saveBase64ImageToOut] *)

Definition is_mime_char (c : ascii) : bool :=
  let n := charCode c in
  ((65 <=? n) && (n <=? 90)) || ((97 <=? n) && (n <=? 122)) ||
  (n =? 45) || (n =? 43) || (n =? 47).

Fixpoint span_mime (s : string) : string * string :=
  match s with
  | String c r =>
      if is_mime_char c then let '(m, rest) := span_mime r in (String c m, rest)
      else (EmptyString, s)
  | EmptyString => (EmptyString, EmptyString)
  end.

Fixpoint strip_prefix (p s : string) : option string :=
  match p, s with
  | EmptyString, _ => Some s
  | String a p', String b s' => if Ascii.eqb a b then strip_prefix p' s' else None
  | String _ _, EmptyString => None
  end.

Fixpoint has_line_end (s : string) : bool :=
  match s with
  | String c r => (charCode c =? 10) || (charCode c =? 13) || has_line_end r
  | EmptyString => false
  end.

(** [s.match(/^data:([A-Za-z-+/]+);base64,(.+)$/)]: the media type and
    the data, when the whole string has that shape. *)
Definition match_data_url (s : string) : option (string * string) :=
  match strip_prefix "data:" s with
  | Some s1 =>
      let '(mime, s2) := span_mime s1 in
      match mime, strip_prefix ";base64," s2 with
      | String _ _, Some (String c d) =>
          if has_line_end (String c d) then None else Some (mime, String c d)
      | _, _ => None
      end
  | None => None
  end.

Definition ext_of (mime : string) : string :=
  if String.eqb mime "image/jpeg" || String.eqb mime "image/jpg" then "jpg"
  else if String.eqb mime "image/webp" then "webp"
  else "png".

Definition saveBase64ImageToOut (base64String : JVal) : Prog string :=
  match base64String with
  | JStr s =>
      let '(data, ext) :=
        match match_data_url s with
        | Some (mime, d) => (d, ext_of mime)
        | None => (s, "png")
        end in
      let buffer := from_base64 data in
      do now <- await_ DateNow;
      do rnd <- await_ (MathRandom 10000);
      let filename := "image-" +:+ show now +:+ "-" +:+ show rnd +:+ "." +:+ ext in
      do _ <- await_ (WriteFileSync filename buffer);
      Ret ("/out/" +:+ filename)
  | JUndefined => Throw "Cannot read properties of undefined (reading 'match')"
  | JNull => Throw "Cannot read properties of null (reading 'match')"
  | _ => Throw "base64String.match is not a function"
  end.

(** *** The two transports *)

(** The object both transports return. *)
Record Attempt := {
  a_ok : bool;
  a_status : Z;
  a_statusText : string;
  a_text : string;
  a_json : JVal
}.

Definition attempt_of (r : Response) : Attempt :=
  {| a_ok := ok r;
     a_status := status r;
     a_statusText := statusText r;
     a_text := text r;
     a_json := match json r with Ok v => v | Raise _ => JNull end |}.

Definition postJsonToProvider (url apiKey : string) (bodyObj : Payload) : Prog Attempt :=
  do resp <- await_ (PostJson url apiKey bodyObj);
  Ret (attempt_of resp).

(** [if (n) form.append(name, String(n))]: 0 and NaN are skipped;
    [String(n)] for an integer in the decimal range. *)
Definition num_field (name : string) (n : option Z) : list (string * Field) :=
  match n with
  | Some z => if z =? 0 then [] else [(name, FText (show z))]
  | None => []
  end.

(** The fields appended to the form, in order. [text_prompts] is an
    array, hence truthy; the payload has no [model]. *)
Definition form_of (bodyObj : Payload) : list (string * Field) :=
  let p0 := if negb (String.eqb (text_prompts bodyObj) "")
            then FText (text_prompts bodyObj)
            else FJson (payload_json bodyObj) in
  [("text_prompts", FJson (payload_json bodyObj)); ("prompt", p0)]
  ++ num_field "width" (p_width bodyObj)
  ++ num_field "height" (p_height bodyObj)
  ++ num_field "samples" (p_samples bodyObj).

Definition postFormToProvider (url apiKey : string) (bodyObj : Payload) : Prog Attempt :=
  do resp <- await_ (PostForm url apiKey (form_of bodyObj));
  Ret (attempt_of resp).

(** *** [POST /api/generate-image] *)

Record Config := {
  IMAGE_API_URL : string;
  API_KEY : string;
  DEFAULT_WIDTH : option string;
  DEFAULT_HEIGHT : option string
}.

(** [req.body] *)
Record Body := {
  prompt : JVal;
  width : JVal;
  height : JVal;
  samples : JVal
}.

(** The inline payload of the response, then the result URL. *)
Definition b64 (pdata : JVal) : JVal :=
  or_ (or_ (and_ pdata (first_of (prop pdata "artifacts") "base64"))
           (and_ pdata (prop pdata "image_base64")))
      JNull.

Definition imageUrl (pdata : JVal) : JVal :=
  or_ (or_ (and_ pdata (first_of (prop pdata "output") "url"))
           (and_ pdata (prop pdata "image_url")))
      JNull.

Definition image_reply (url : JVal) (pdata : JVal) : Out :=
  {| code := 200; body := JObj [("imageUrl", url); ("providerResponse", pdata)] |}.

(** What the handler does with the body of a successful attempt; the
    source has this block twice, with two wordings of the last error. *)
Definition deliver (pdata : JVal) (noImage : string) : Prog Out :=
  if truthy (b64 pdata) then
    do savedPath <- saveBase64ImageToOut (b64 pdata);
    Ret (image_reply (JStr savedPath) pdata)
  else if truthy (imageUrl pdata) then
    catch
      (do dResp <- await_ (Get (imageUrl pdata));
       if dl_ok dResp then
         do buffer <- lift (dl_buffer dResp);
         do now <- await_ DateNow;
         do rnd <- await_ (MathRandom 10000);
         let filename := "image-" +:+ show now +:+ "-" +:+ show rnd +:+ ".png" in
         do _ <- await_ (WriteFileSync filename buffer);
         Ret (image_reply (JStr ("/out/" +:+ filename)) pdata)
       else Ret (image_reply (imageUrl pdata) pdata))
      (fun _ => Ret (image_reply (imageUrl pdata) pdata))
  else
    Ret {| code := 500; body := JObj [("error", JStr noImage); ("payload", pdata)] |}.

(** The texts that ask for the multipart retry. *)
Definition markers : list string :=
  ["multipart"; "content-type"; "accept"; "prompt: required"].

(** The test that decides on the multipart retry. *)
Definition wants_form (jsonAttempt : Attempt) : bool :=
  let lowerText := toLowerCase (a_text jsonAttempt) in
  (a_status jsonAttempt =? 400) || includes lowerText "multipart" ||
  includes lowerText "content-type" || includes lowerText "accept" ||
  includes lowerText "prompt: required".

Definition composite_error (jsonAttempt formAttempt : Attempt) : Out :=
  {| code := 502;
     body := JObj [
       ("error", JStr ("Provider initial error (json " +:+ show (a_status jsonAttempt) +:+
                       ") and form-data retry (status " +:+ show (a_status formAttempt) +:+ ")"));
       ("jsonAttempt", JObj [("status", num (a_status jsonAttempt)); ("text", JStr (a_text jsonAttempt))]);
       ("formAttempt", JObj [("status", num (a_status formAttempt)); ("text", JStr (a_text formAttempt))])] |}.

Definition initial_error (jsonAttempt : Attempt) : Out :=
  {| code := 502;
     body := JObj [
       ("error", JStr ("Provider initial error: " +:+ show (a_status jsonAttempt) +:+ " " +:+
                       a_statusText jsonAttempt));
       ("details", JStr (a_text jsonAttempt))] |}.

(** [width], [height] and [samples] of the handler; a number is [None]
    when NaN. *)
Record Numbers := {
  n_width : option Z;
  n_height : option Z;
  n_samples : option Z
}.

Section Handler.

Variable parseInt10 : string -> option Z.
Variable toStr : JVal -> Exc string.
Variable cfg : Config.

(** The three [parseInt] calls at the head of the handler, in their
    order; the first that throws ends them. *)
Definition numbers_of (req : Body) : Exc Numbers :=
  bindE (parseInt parseInt10 toStr
           (or_ (or_ (width req) (env_var (DEFAULT_WIDTH cfg))) (JStr "512"))) (fun width =>
  bindE (parseInt parseInt10 toStr
           (or_ (or_ (height req) (env_var (DEFAULT_HEIGHT cfg))) (JStr "512"))) (fun height =>
  bindE (parseInt parseInt10 toStr (or_ (samples req) (JStr "1"))) (fun samples =>
  Ok {| n_width := width; n_height := height; n_samples := samples |}))).

Definition payload_of (prompt : string) (n : Numbers) : Payload :=
  {| text_prompts := prompt;
     p_width := n_width n;
     p_height := n_height n;
     p_samples := n_samples n |}.

(** The two posts of the handler, as calls. *)
Definition jsonCall (prompt : string) (n : Numbers) : Call :=
  PostJson (IMAGE_API_URL cfg) (API_KEY cfg) (payload_of prompt n).

Definition formCall (prompt : string) (n : Numbers) : Call :=
  PostForm (IMAGE_API_URL cfg) (API_KEY cfg) (form_of (payload_of prompt n)).

Definition generate_image (req : Body) : Prog Out :=
  catch
    (do prompt <- lift (trimmed (prompt req));
     do n <- lift (numbers_of req);
     let payload := payload_of prompt n in
     if too_short prompt then
       Ret {| code := 400; body := JObj [("error", JStr "Prompt too short")] |}
     else if String.eqb (API_KEY cfg) "" then
       Ret {| code := 500;
              body := JObj [("error", JStr "Server not configured with PROVIDER_API_KEY")] |}
     else
       do jsonAttempt <- postJsonToProvider (IMAGE_API_URL cfg) (API_KEY cfg) payload;
       if a_ok jsonAttempt then
         deliver (or_ (a_json jsonAttempt) JNull) "No image returned in provider JSON"
       else if wants_form jsonAttempt then
         do formAttempt <- postFormToProvider (IMAGE_API_URL cfg) (API_KEY cfg) payload;
         if a_ok formAttempt then
           deliver (or_ (a_json formAttempt) JNull) "No image returned in provider form response"
         else Ret (composite_error jsonAttempt formAttempt)
       else Ret (initial_error jsonAttempt))
    (fun msg => Ret {| code := 500; body := JObj [("error", JStr msg)] |}).

End Handler.

End Image.

(* ===================================================================== *)
(** ** The video server ([src/server.js])                                 *)
(* ===================================================================== *)

Module Video.

Import Http.

Inductive Status : Type := queued | processing | succeeded | failed.

Definition status_eqb (a b : Status) : bool :=
  match a, b with
  | queued, queued | processing, processing
  | succeeded, succeeded | failed, failed => true
  | _, _ => false
  end.

Definition status_name (s : Status) : string :=
  match s with
  | queued => "queued"
  | processing => "processing"
  | succeeded => "succeeded"
  | failed => "failed"
  end.

(** The job object. [error], [providerResponse] and [lastProviderPayload]
    are absent ([undefined]) until they are assigned; a number is [None]
    when it is NaN, and [startedAt] is [None] while it is [null]. *)
Record Job := {
  id : string;
  prompt : string;
  duration : option Z;
  width : option Z;
  height : option Z;
  status : Status;
  createdAt : Z;
  startedAt : option Z;
  providerJobId : JVal;
  resultUrl : JVal;
  maxPollMs : option Z;
  error : JVal;
  providerResponse : JVal;
  lastProviderPayload : JVal
}.

Definition set_status (s : Status) (j : Job) : Job :=
  {| id := id j; prompt := prompt j; duration := duration j; width := width j;
     height := height j; status := s; createdAt := createdAt j;
     startedAt := startedAt j; providerJobId := providerJobId j;
     resultUrl := resultUrl j; maxPollMs := maxPollMs j; error := error j;
     providerResponse := providerResponse j;
     lastProviderPayload := lastProviderPayload j |}.

Definition set_startedAt (t : option Z) (j : Job) : Job :=
  {| id := id j; prompt := prompt j; duration := duration j; width := width j;
     height := height j; status := status j; createdAt := createdAt j;
     startedAt := t; providerJobId := providerJobId j;
     resultUrl := resultUrl j; maxPollMs := maxPollMs j; error := error j;
     providerResponse := providerResponse j;
     lastProviderPayload := lastProviderPayload j |}.

Definition set_providerJobId (v : JVal) (j : Job) : Job :=
  {| id := id j; prompt := prompt j; duration := duration j; width := width j;
     height := height j; status := status j; createdAt := createdAt j;
     startedAt := startedAt j; providerJobId := v;
     resultUrl := resultUrl j; maxPollMs := maxPollMs j; error := error j;
     providerResponse := providerResponse j;
     lastProviderPayload := lastProviderPayload j |}.

Definition set_resultUrl (v : JVal) (j : Job) : Job :=
  {| id := id j; prompt := prompt j; duration := duration j; width := width j;
     height := height j; status := status j; createdAt := createdAt j;
     startedAt := startedAt j; providerJobId := providerJobId j;
     resultUrl := v; maxPollMs := maxPollMs j; error := error j;
     providerResponse := providerResponse j;
     lastProviderPayload := lastProviderPayload j |}.

Definition set_error (v : JVal) (j : Job) : Job :=
  {| id := id j; prompt := prompt j; duration := duration j; width := width j;
     height := height j; status := status j; createdAt := createdAt j;
     startedAt := startedAt j; providerJobId := providerJobId j;
     resultUrl := resultUrl j; maxPollMs := maxPollMs j; error := v;
     providerResponse := providerResponse j;
     lastProviderPayload := lastProviderPayload j |}.

Definition set_providerResponse (v : JVal) (j : Job) : Job :=
  {| id := id j; prompt := prompt j; duration := duration j; width := width j;
     height := height j; status := status j; createdAt := createdAt j;
     startedAt := startedAt j; providerJobId := providerJobId j;
     resultUrl := resultUrl j; maxPollMs := maxPollMs j; error := error j;
     providerResponse := v;
     lastProviderPayload := lastProviderPayload j |}.

Definition set_lastProviderPayload (v : JVal) (j : Job) : Job :=
  {| id := id j; prompt := prompt j; duration := duration j; width := width j;
     height := height j; status := status j; createdAt := createdAt j;
     startedAt := startedAt j; providerJobId := providerJobId j;
     resultUrl := resultUrl j; maxPollMs := maxPollMs j; error := error j;
     providerResponse := providerResponse j;
     lastProviderPayload := v |}.

(** The body of the request sent to the provider. *)
Record VideoBody := {
  vb_prompt : string;
  vb_duration : option Z;
  vb_width : option Z;
  vb_height : option Z
}.

(** What leaves the process, in order. *)
Inductive Effect : Type :=
| Sent (out : Out)                                        (* res.status(..).json(..) *)
| PostedVideo (url apiKey : string) (body : VideoBody)    (* fetch(VIDEO_API_URL, POST) *)
| AskedStatus (url apiKey : string)                       (* fetch(statusUrl) *)
| Downloading (url : JVal)                                (* fetch(remoteUrl) *)
| Wrote (name : string) (data : list Byte.byte).          (* fs.writeFileSync *)

(** An async function suspended at an [await], with the variables of its
    closure. [job] is the reference held by the closure, which need not
    be what the registry holds under [jobId] any more. *)
Inductive Task : Type :=
| AwaitSubmit (jobId : string) (job : nat)
    (* the detached task, in [await fetch(VIDEO_API_URL, ..)] *)
| AwaitSubmitDownload (jobId : string) (job : nat) (pdata : JVal)
    (* .. in [saveVideoFromBase64OrUrl({ remoteUrl })], downloading *)
| AwaitSubmitSaved (jobId : string) (job : nat) (pdata : JVal) (viaUrl : bool)
                   (saved : Exc JVal)
    (* .. awaiting the settled promise of [saveVideoFromBase64OrUrl], called
       in the [video_url] branch or in the [video_base64] branch *)
| AwaitStatus (pos : nat) (jobId : string) (job : nat)
    (* a sweep at entry [pos], in [await fetch(statusUrl, ..)] *)
| AwaitPollDownload (pos : nat) (jobId : string) (job : nat) (sData vidUrl : JVal)
    (* .. in [saveVideoFromBase64OrUrl], downloading *)
| AwaitPollSaved (pos : nat) (jobId : string) (job : nat) (sData vidUrl : JVal)
                 (saved : Exc JVal).
    (* .. awaiting the settled promise of [saveVideoFromBase64OrUrl] *)

(** The process: job objects by reference, the [jobs] Map in insertion
    order, the suspended async functions, and the effects so far. *)
Record World := {
  heap : list Job;
  jobs : list (string * nat);
  pending : list Task;
  wire : list Effect
}.

Definition boot : World := {| heap := []; jobs := []; pending := []; wire := [] |}.

(** [job.field = ..] on the object behind a reference. *)
Definition mutate (r : nat) (f : Job -> Job) (w : World) : World :=
  {| heap := alter f r (heap w); jobs := jobs w; pending := pending w; wire := wire w |}.

(** [new] object. *)
Definition alloc (j : Job) (w : World) : World :=
  {| heap := heap w ++ [j]; jobs := jobs w; pending := pending w; wire := wire w |}.

Fixpoint map_set (k : string) (r : nat) (m : list (string * nat)) : list (string * nat) :=
  match m with
  | [] => [(k, r)]
  | (k', r') :: rest => if String.eqb k k' then (k, r) :: rest else (k', r') :: map_set k r rest
  end.

Fixpoint map_get (k : string) (m : list (string * nat)) : option nat :=
  match m with
  | [] => None
  | (k', r) :: rest => if String.eqb k k' then Some r else map_get k rest
  end.

(** [jobs.set(jobId, job)]: an existing key keeps its place. *)
Definition jobs_set (k : string) (r : nat) (w : World) : World :=
  {| heap := heap w; jobs := map_set k r (jobs w); pending := pending w; wire := wire w |}.

Definition emit (e : Effect) (w : World) : World :=
  {| heap := heap w; jobs := jobs w; pending := pending w; wire := wire w ++ [e] |}.

Definition suspend (t : Task) (w : World) : World :=
  {| heap := heap w; jobs := jobs w; pending := pending w ++ [t]; wire := wire w |}.

Definition unsuspend (i : nat) (w : World) : World :=
  {| heap := heap w; jobs := jobs w; pending := delete i (pending w); wire := wire w |}.

(** What the runtime answers to the synchronous calls of one run to the
    next [await]: [Date.now()], [Math.floor(Math.random()*1000)], and
    whether [fs.writeFileSync] throws. *)
Record Env := {
  now : Z;
  rnd : Z;
  disk : Exc unit
}.

(** [s.replace(pattern, replacement)] with a string pattern: the first
    occurrence is replaced, and [$$], [$&], [$`], [$'] in the replacement
    are expanded. *)
Fixpoint split_at (pat s : string) : option (string * string) :=
  if startsWith s pat then Some (EmptyString, String.substring (String.length pat) (String.length s) s)
  else match s with
       | String c r =>
           match split_at pat r with
           | Some (before, after) => Some (String c before, after)
           | None => None
           end
       | EmptyString => None
       end.

Fixpoint expand (rep matched before after : string) : string :=
  match rep with
  | String a tl =>
      if Ascii.eqb a "$" then
        match tl with
        | String c r =>
            if Ascii.eqb c "$" then String "$" (expand r matched before after)
            else if Ascii.eqb c "&" then matched +:+ expand r matched before after
            else if Ascii.eqb c "`" then before +:+ expand r matched before after
            else if Ascii.eqb c "'" then after +:+ expand r matched before after
            else String a (expand tl matched before after)
        | EmptyString => String a EmptyString
        end
      else String a (expand tl matched before after)
  | EmptyString => EmptyString
  end.

Definition replace (s pat rep : string) : string :=
  match split_at pat s with
  | Some (before, after) => before +:+ expand rep pat before after +:+ after
  | None => s
  end.

(** [a || b] on numbers: 0 and NaN are falsy. *)
Definition num_or (a b : option Z) : option Z :=
  match a with
  | Some z => if z =? 0 then b else a
  | None => b
  end.

(** [x > m]: false when [m] is NaN. *)
Definition gt (x : Z) (m : option Z) : bool :=
  match m with
  | Some z => z <? x
  | None => false
  end.

(** [String(n)] for an integer in the decimal range, or NaN. *)
Definition show_num (n : option Z) : string :=
  match n with Some z => show z | None => "NaN" end.

Record Config := {
  VIDEO_API_URL : string;
  VIDEO_STATUS_URL_TEMPLATE : string;
  API_KEY : string;
  env_MAX_POLL_MS : option string;
  DEFAULT_DURATION_SECONDS : option string;
  DEFAULT_WIDTH : option string;
  DEFAULT_HEIGHT : option string
}.

(** [req.body] *)
Record Body := {
  b_prompt : JVal;
  b_duration : JVal;
  b_width : JVal;
  b_height : JVal
}.

(** [duration], [width] and [height] of the handler; a number is
    [None] when NaN. *)
Record Numbers := {
  n_duration : option Z;
  n_width : option Z;
  n_height : option Z
}.

(** How control leaves one visit of the sweep. *)
Inductive Visit : Type :=
| Continue (w : World)      (* on to the next entry *)
| Suspended (w : World)     (* the sweep waits in an [await] *)
| Thrown (w : World).       (* an exception leaves [pollWorker] *)

(** How a call of [saveVideoFromBase64OrUrl] reaches its first [await],
    or its end. *)
Inductive SaveStart : Type :=
| Settled (w : World) (saved : Exc JVal)
| InDownload (w : World).

Section Server.

(** Library functions, taken as they are: [parseInt(s, 10)] on a string
    ([None] is NaN), [Buffer.from(v, 'base64')], and ToString on a
    number, an array or an object. *)
Variable parseInt10 : string -> option Z.
Variable bufferFrom : JVal -> Exc (list Byte.byte).
Variable toStr : JVal -> Exc string.

Variable cfg : Config.

Definition MAX_POLL_MS : option Z :=
  parseInt10 (env_or (env_MAX_POLL_MS cfg) "300000").

(** [replace] converts the replacement to a string before it searches:
    a handle that cannot be converted throws, whatever the template. *)
Definition buildStatusUrl (jobId : JVal) : Exc string :=
  bindE (ToString toStr jobId) (fun handle =>
    Ok (replace (VIDEO_STATUS_URL_TEMPLATE cfg) "{jobId}" handle)).

(** *** [saveVideoFromBase64OrUrl] *)

(** The file name, the write, and the returned path. *)
Definition save_buffer (env : Env) (buffer : list Byte.byte) (w : World) : World * Exc JVal :=
  let filename := "video-" +:+ show (now env) +:+ "-" +:+ show (rnd env) +:+ ".mp4" in
  (emit (Wrote filename buffer) w,
   bindE (disk env) (fun _ => Ok (JStr ("/out/" +:+ filename)))).

(** Up to [await fetch(remoteUrl)]. *)
Definition saveVideoFromBase64OrUrl (env : Env) (base64 remoteUrl : JVal) (w : World) : SaveStart :=
  if truthy base64 then
    match bufferFrom base64 with
    | Ok buffer => let '(w', saved) := save_buffer env buffer w in Settled w' saved
    | Raise m => Settled w (Raise m)
    end
  else if truthy remoteUrl then InDownload (emit (Downloading remoteUrl) w)
  else Settled w (Ok JNull).

(** The body of the [try] once the download has settled. *)
Definition download_body (env : Env) (resp : Exc Download) (w : World) : World * Exc JVal :=
  match resp with
  | Raise m => (w, Raise m)
  | Ok resp =>
      if negb (dl_ok resp) then
        (w, Raise ("Failed to download remote video: " +:+ show (dl_status resp)))
      else
        match dl_buffer resp with
        | Raise m => (w, Raise m)
        | Ok buffer => save_buffer env buffer w
        end
  end.

(** [try { .. } catch (err) { return remoteUrl }] *)
Definition save_downloaded (env : Env) (remoteUrl : JVal) (resp : Exc Download) (w : World)
  : World * Exc JVal :=
  let '(w', saved) := download_body env resp w in
  (w', try_catch saved (fun _ => Ok remoteUrl)).

(** *** [pollWorker] *)

Definition elapsed (env : Env) (job : Job) : Z :=
  now env - default 0 (startedAt job).

(** [elapsed > (job.maxPollMs || MAX_POLL_MS)] *)
Definition overdue (env : Env) (job : Job) : bool :=
  gt (elapsed env job) (num_or (maxPollMs job) MAX_POLL_MS).

Definition time_out (job : Job) : Job :=
  set_error (JStr "Polling timeout") (set_status failed job).

(** One iteration of the loop body up to its first [await]. A registry
    entry always refers to an allocated object. [buildStatusUrl] is
    called before the [try]: when it throws, no request is sent and the
    exception leaves [pollWorker]. *)
Definition visit (env : Env) (pos : nat) (jobId : string) (r : nat) (w : World) : Visit :=
  match heap w !! r with
  | None => Continue w
  | Some job =>
      if negb (status_eqb (status job) processing) then Continue w
      else if overdue env job then
        Continue (jobs_set jobId r (mutate r time_out w))
      else if negb (truthy (providerJobId job)) then Continue w
      else
        match buildStatusUrl (providerJobId job) with
        | Raise _ => Thrown w
        | Ok statusUrl =>
            Suspended (suspend (AwaitStatus pos jobId r)
                         (emit (AskedStatus statusUrl (API_KEY cfg)) w))
        end
  end.

(** The loop over the entries still ahead of the iterator; no entry is
    added while the loop runs without suspending. An exception ends the
    run of [pollWorker] where it is: the promise it has returned is
    rejected and nothing handles it. What the runtime makes of that (a
    warning, or the end of the process, after which no event follows) is
    not part of the state. *)
Fixpoint sweep (env : Env) (entries : list (string * nat)) (pos : nat) (w : World) : World :=
  match entries with
  | [] => w
  | (jobId, r) :: rest =>
      match visit env pos jobId r w with
      | Continue w' => sweep env rest (S pos) w'
      | Suspended w' => w'
      | Thrown w' => w'
      end
  end.

(** The Map iterator is live: a resumed sweep goes on over the Map as it
    is by then. *)
Definition sweep_from (env : Env) (pos : nat) (w : World) : World :=
  sweep env (drop pos (jobs w)) pos w.

Definition pollWorker (env : Env) (w : World) : World := sweep_from env 0 w.

(** [sData.status || sData.state || (sData.result && sData.result.status)] *)
Definition provider_status (sData : JVal) : Exc JVal :=
  bindE (get sData "status") (fun st =>
    Ok (or_ (or_ st (prop sData "state")) (guarded (prop sData "result") "status"))).

Definition vidUrl_of (sData : JVal) : JVal :=
  or_ (or_ (or_ (or_ (prop sData "video_url") (prop sData "output_url"))
                (guarded (prop sData "result") "video_url"))
           (first_of (prop sData "output") "url"))
      (first_of (prop sData "data") "url").

Definition b64_of (sData : JVal) : JVal :=
  or_ (or_ (prop sData "video_base64") (first_of (prop sData "output") "base64"))
      (first_of (prop sData "data") "base64").

Definition says_done (st : JVal) : bool :=
  is_str st "succeeded" || is_str st "completed" || is_str st "finished".

Definition says_failed (st : JVal) : bool :=
  is_str st "failed" || is_str st "error".

(** The three assignments after [saveVideoFromBase64OrUrl] in the worker. *)
Definition poll_succeed (saved sData vidUrl : JVal) (job : Job) : Job :=
  set_providerResponse sData
    (set_resultUrl (or_ (or_ saved vidUrl) JNull) (set_status succeeded job)).

(** The worker once the status exchange has settled. Every throw inside
    the [try] lands in [catch], which only logs; the loop goes on. *)
Definition on_status (env : Env) (pos : nat) (jobId : string) (r : nat)
    (reply : Exc Response) (w : World) : World :=
  let next := sweep_from env (S pos) in
  match reply with
  | Raise _ => next w
  | Ok sResp =>
      if negb (ok sResp) then next w
      else
        match json sResp with
        | Raise _ => next w
        | Ok sData =>
            match provider_status sData with
            | Raise _ => next w
            | Ok st =>
                if says_done st then
                  let vidUrl := vidUrl_of sData in
                  let b64 := b64_of sData in
                  match saveVideoFromBase64OrUrl env b64 vidUrl w with
                  | Settled w' saved => suspend (AwaitPollSaved pos jobId r sData vidUrl saved) w'
                  | InDownload w' => suspend (AwaitPollDownload pos jobId r sData vidUrl) w'
                  end
                else if says_failed st then
                  next (jobs_set jobId r
                          (mutate r (fun job => set_error sData (set_status failed job)) w))
                else
                  next (jobs_set jobId r (mutate r (set_lastProviderPayload sData) w))
            end
        end
  end.

(** The worker once [saveVideoFromBase64OrUrl] has returned. *)
Definition on_poll_saved (env : Env) (pos : nat) (jobId : string) (r : nat)
    (sData vidUrl : JVal) (saved : Exc JVal) (w : World) : World :=
  match saved with
  | Raise _ => sweep_from env (S pos) w
  | Ok saved =>
      sweep_from env (S pos)
        (jobs_set jobId r (mutate r (poll_succeed saved sData vidUrl) w))
  end.

Definition on_poll_download (env : Env) (pos : nat) (jobId : string) (r : nat)
    (sData vidUrl : JVal) (resp : Exc Download) (w : World) : World :=
  let '(w', saved) := save_downloaded env vidUrl resp w in
  on_poll_saved env pos jobId r sData vidUrl saved w'.

(** *** [POST /api/generate-video] and its detached task *)

(** The [catch] of the detached task. *)
Definition submit_failed (jobId : string) (r : nat) (err : JVal) (w : World) : World :=
  jobs_set jobId r (mutate r (fun job => set_error err (set_status failed job)) w).

Definition submit_succeed (saved pdata : JVal) (job : Job) : Job :=
  set_providerResponse pdata (set_resultUrl saved (set_status succeeded job)).

(** [pdata.id || pdata.job_id || pdata.task_id || (pdata.data && pdata.data.id)] *)
Definition handle_of (pdata : JVal) : JVal :=
  or_ (or_ (or_ (prop pdata "id") (prop pdata "job_id")) (prop pdata "task_id"))
      (guarded (prop pdata "data") "id").

(** The detached task once the submission exchange has settled. *)
Definition on_submit (env : Env) (jobId : string) (r : nat)
    (reply : Exc Response) (w : World) : World :=
  match reply with
  | Raise m => submit_failed jobId r (JStr m) w
  | Ok pResp =>
      if negb (ok pResp) then
        submit_failed jobId r
          (JStr ("Provider initial error: " +:+ show (Http.status pResp) +:+ " " +:+ text pResp)) w
      else
        match json pResp with
        | Raise m => submit_failed jobId r (JStr m) w
        | Ok pdata =>
            match get pdata "video_url" with
            | Raise m => submit_failed jobId r (JStr m) w
            | Ok video_url =>
                if truthy video_url then
                  match saveVideoFromBase64OrUrl env JUndefined video_url w with
                  | Settled w' saved => suspend (AwaitSubmitSaved jobId r pdata true saved) w'
                  | InDownload w' => suspend (AwaitSubmitDownload jobId r pdata) w'
                  end
                else if truthy (prop pdata "video_base64") then
                  match saveVideoFromBase64OrUrl env (prop pdata "video_base64") JUndefined w with
                  | Settled w' saved => suspend (AwaitSubmitSaved jobId r pdata false saved) w'
                  | InDownload w' => suspend (AwaitSubmitDownload jobId r pdata) w'
                  end
                else if truthy (handle_of pdata) then
                  jobs_set jobId r
                    (mutate r (fun job => set_providerResponse pdata
                                            (set_providerJobId (handle_of pdata) job)) w)
                else
                  submit_failed jobId r
                    (JObj [("note", JStr "Unexpected provider response"); ("payload", pdata)]) w
            end
        end
  end.

(** The detached task once [saveVideoFromBase64OrUrl] has returned: the
    [video_url] branch assigns [saved || pdata.video_url], the
    [video_base64] branch assigns [saved]. *)
Definition on_submit_saved (jobId : string) (r : nat) (pdata : JVal) (viaUrl : bool)
    (saved : Exc JVal) (w : World) : World :=
  match saved with
  | Raise m => submit_failed jobId r (JStr m) w
  | Ok saved =>
      let resultUrl := if viaUrl then or_ saved (prop pdata "video_url") else saved in
      jobs_set jobId r (mutate r (submit_succeed resultUrl pdata) w)
  end.

Definition on_submit_download (env : Env) (jobId : string) (r : nat) (pdata : JVal)
    (resp : Exc Download) (w : World) : World :=
  let '(w', saved) := save_downloaded env (prop pdata "video_url") resp w in
  on_submit_saved jobId r pdata true saved w'.

(** The three [parseInt] calls at the head of the handler, in their
    order; the first that throws ends them. *)
Definition numbers_of (req : Body) : Exc Numbers :=
  bindE (parseInt parseInt10 toStr
           (or_ (or_ (b_duration req) (env_var (DEFAULT_DURATION_SECONDS cfg))) (JStr "10")))
    (fun duration =>
  bindE (parseInt parseInt10 toStr
           (or_ (or_ (b_width req) (env_var (DEFAULT_WIDTH cfg))) (JStr "1920"))) (fun width =>
  bindE (parseInt parseInt10 toStr
           (or_ (or_ (b_height req) (env_var (DEFAULT_HEIGHT cfg))) (JStr "1080"))) (fun height =>
  Ok {| n_duration := duration; n_width := width; n_height := height |}))).

Definition new_job (env : Env) (jobId prompt : string) (n : Numbers) : Job :=
  {| id := jobId;
     prompt := prompt;
     duration := n_duration n;
     width := n_width n;
     height := n_height n;
     status := queued;
     createdAt := now env;
     startedAt := None;
     providerJobId := JNull;
     resultUrl := JNull;
     maxPollMs := parseInt10 (env_or (env_MAX_POLL_MS cfg) (show_num MAX_POLL_MS));
     error := JUndefined;
     providerResponse := JUndefined;
     lastProviderPayload := JUndefined |}.

Definition body_of (job : Job) : VideoBody :=
  {| vb_prompt := prompt job; vb_duration := duration job;
     vb_width := width job; vb_height := height job |}.

Definition mark_started (env : Env) (job : Job) : Job :=
  set_startedAt (Some (now env)) (set_status processing job).

(** The detached async function from its call to its first [await]. *)
Definition detached (env : Env) (jobId : string) (r : nat) (body : VideoBody) (w : World) : World :=
  suspend (AwaitSubmit jobId r)
    (emit (PostedVideo (VIDEO_API_URL cfg) (API_KEY cfg) body)
       (jobs_set jobId r (mutate r (mark_started env) w))).

Definition prompt_too_short : Out :=
  {| code := 400; body := JObj [("error", JStr "Prompt too short")] |}.

Definition not_configured : Out :=
  {| code := 500;
     body := JObj [("error", JStr "Server not configured with PROVIDER_API_KEY. Set it in Render environment variables.")] |}.

Definition accepted (jobId : string) : Out :=
  {| code := 200; body := JObj [("jobId", JStr jobId); ("status", JStr "queued")] |}.

(** The reply of the handler's [catch]. *)
Definition server_error (msg : string) : Out :=
  {| code := 500; body := JObj [("error", JStr msg)] |}.

(** The handler, run to the end: [uuid] is what [uuidv4()] returns. The
    prompt and the three numbers are converted first, inside the [try];
    the two checks come after. *)
Definition generate_video (env : Env) (uuid : string) (req : Body) (w : World) : World :=
  match trimmed (b_prompt req) with
  | Raise m => emit (Sent (server_error m)) w
  | Ok prompt =>
      match numbers_of req with
      | Raise m => emit (Sent (server_error m)) w
      | Ok n =>
          if too_short prompt then
            emit (Sent prompt_too_short) w
          else if String.eqb (API_KEY cfg) "" then
            emit (Sent not_configured) w
          else
            let jobId := uuid in
            let job := new_job env jobId prompt n in
            let r := length (heap w) in
            let w1 := jobs_set jobId r (alloc job w) in
            let w2 := detached env jobId r (body_of job) w1 in
            emit (Sent (accepted jobId)) w2
      end
  end.

(** *** [GET /api/status/:jobId] *)

Definition summary (job : Job) : JVal :=
  if truthy (providerResponse job)
  then or_ (or_ (prop (providerResponse job) "id") (prop (providerResponse job) "job_id")) JNull
  else JNull.

(** The second [None] stands for a registry entry without an object,
    which no run produces. *)
Definition status_route (jobId : string) (w : World) : Out :=
  match map_get jobId (jobs w) with
  | None => {| code := 404; body := JObj [("error", JStr "Job not found")] |}
  | Some r =>
      match heap w !! r with
      | None => {| code := 500; body := JUndefined |}
      | Some job =>
          {| code := 200;
             body := JObj [("id", JStr (id job));
                           ("status", JStr (status_name (status job)));
                           ("prompt", JStr (prompt job));
                           ("resultUrl", resultUrl job);
                           ("error", error job);
                           ("providerJobId", providerJobId job);
                           ("providerResponseSummary", summary job)] |}
      end
  end.

(** *** The event loop *)

(** What can happen next: a request arrives, the interval timer fires,
    or whatever the [i]-th suspended function waits for settles. *)
Inductive Event : Type :=
| Post (env : Env) (uuid : string) (req : Body)
| Tick (env : Env)
| Replied (i : nat) (env : Env) (reply : Exc Response)
| Downloaded (i : nat) (env : Env) (resp : Exc Download)
| Resumed (i : nat) (env : Env).

(** One run to completion; [None] when nothing waits for the event. *)
Definition step (w : World) (e : Event) : option World :=
  match e with
  | Post env uuid req => Some (generate_video env uuid req w)
  | Tick env => Some (pollWorker env w)
  | Replied i env reply =>
      match pending w !! i with
      | Some (AwaitSubmit jobId r) => Some (on_submit env jobId r reply (unsuspend i w))
      | Some (AwaitStatus pos jobId r) => Some (on_status env pos jobId r reply (unsuspend i w))
      | _ => None
      end
  | Downloaded i env resp =>
      match pending w !! i with
      | Some (AwaitSubmitDownload jobId r pdata) =>
          Some (on_submit_download env jobId r pdata resp (unsuspend i w))
      | Some (AwaitPollDownload pos jobId r sData vidUrl) =>
          Some (on_poll_download env pos jobId r sData vidUrl resp (unsuspend i w))
      | _ => None
      end
  | Resumed i env =>
      match pending w !! i with
      | Some (AwaitSubmitSaved jobId r pdata viaUrl saved) =>
          Some (on_submit_saved jobId r pdata viaUrl saved (unsuspend i w))
      | Some (AwaitPollSaved pos jobId r sData vidUrl saved) =>
          Some (on_poll_saved env pos jobId r sData vidUrl saved (unsuspend i w))
      | _ => None
      end
  end.

Fixpoint run (w : World) (events : list Event) : option World :=
  match events with
  | [] => Some w
  | e :: rest =>
      match step w e with
      | Some w' => run w' rest
      | None => None
      end
  end.

(** The status of the job object [r] after each event of a run. *)
Fixpoint statuses (r : nat) (w : World) (events : list Event) : list (option Status) :=
  match events with
  | [] => []
  | e :: rest =>
      match step w e with
      | Some w' => (status <$> heap w' !! r) :: statuses r w' rest
      | None => []
      end
  end.

(** The status checks for job [r] that are outstanding. *)
Definition checks (r : nat) (t : Task) : bool :=
  match t with
  | AwaitStatus _ _ r' => Nat.eqb r r'
  | _ => false
  end.

Definition outstanding (r : nat) (w : World) : nat :=
  length (filter (fun t => checks r t = true) (pending w)).

End Server.

(** Terminal states, and what the status route shows of a result and of
    an error. *)
Definition terminal (s : Status) : bool :=
  match s with succeeded | failed => true | _ => false end.

Definition is_set (v : JVal) : bool :=
  match v with JUndefined | JNull => false | _ => true end.

(** Every assignment the server makes to a job after the handler has
    created it: the two failures (timeout, provider), the retained
    payload, the two successes, and the provider handle. *)
Inductive write : Job -> Job -> Prop :=
| write_failed job err :
    write job (set_error err (set_status failed job))
| write_payload job sData :
    write job (set_lastProviderPayload sData job)
| write_poll_succeed job saved sData vidUrl :
    write job (poll_succeed saved sData vidUrl job)
| write_submit_succeed job url pdata :
    write job (submit_succeed url pdata job)
| write_handle job pdata handle :
    write job (set_providerResponse pdata (set_providerJobId handle job)).

(** A job as the handler leaves it, and a job that has come from one. *)
Definition fresh (job : Job) : Prop :=
  status job = processing /\ resultUrl job = JNull /\ error job = JUndefined.

Definition born (job : Job) : Prop :=
  exists job0, fresh job0 /\ rtc write job0 job.

(** A later state of the heap: no object is lost, an object that was
    there has only been written to, a new one has come from the handler. *)
Definition advances (w w' : World) : Prop :=
  (length (heap w) <= length (heap w'))%nat /\
  forall r job', heap w' !! r = Some job' ->
    match heap w !! r with
    | Some job => rtc write job job'
    | None => born job'
    end.



End Video.

(* ===================================================================== *)
(** ** A runtime for worked runs                                          *)
(* ===================================================================== *)

Module Sample.

Import Http.

Fixpoint digits (s : string) (acc : option Z) : option Z :=
  match s with
  | String c r =>
      let n := charCode c in
      if (48 <=? n) && (n <=? 57)
      then digits r (Some (10 * default 0 acc + (n - 48)))
      else acc
  | EmptyString => acc
  end.

(** The nearest integer that is a double, ties to even: what a number
    above 2^53 in magnitude becomes. *)
Definition to_double (n : Z) : Z :=
  let a := Z.abs n in
  let bits := Z.log2 a + 1 in
  if bits <=? 53 then n
  else
    let sh := bits - 53 in
    let q := Z.shiftr a sh in
    let rest := a - Z.shiftl q sh in
    let half := Z.shiftl 1 (sh - 1) in
    let q' := if (half <? rest) || ((rest =? half) && Z.odd q) then q + 1 else q in
    Z.sgn n * Z.shiftl q' sh.

(** [parseInt(s, 10)] on a string: white space, a sign, then the decimal
    digits up to the first other character; NaN without a digit. (A value
    of 2^1024 and more is Infinity in Node, which [option Z] has not.) *)
Definition parseInt10 (s : string) : option Z :=
  to_double <$>
  match trimStart s with
  | String "-" r => Z.opp <$> digits r None
  | String "+" r => digits r None
  | r => digits r None
  end.

(** The digits of [r / den] after the point, for [0 <= r < den], up to
    [fuel] of them. *)
Fixpoint frac_digits (fuel : nat) (r den : Z) : string :=
  match fuel with
  | O => ""
  | S fuel' =>
      if r =? 0 then ""
      else show ((10 * r) / den) +:+ frac_digits fuel' ((10 * r) mod den) den
  end.

(** A number in plain decimal notation. This is Node's rendering of an
    integer below 2^53 in magnitude, and of a decimal fraction of at
    most 15 significant digits that is at least 10^-6 in magnitude;
    elsewhere Node prints the shortest digits that read back as the same
    double, or an exponent. *)
Definition show_number (q : Q) : string :=
  let a := Z.abs (Qnum q) in
  let den := Zpos (Qden q) in
  (if Qnum q <? 0 then "-" else "") +:+ show (a / den) +:+
  (if a mod den =? 0 then "" else "." +:+ frac_digits 20 (a mod den) den).

Definition own_key (k : string) (props : list (string * JVal)) : bool :=
  existsb (fun kv => String.eqb kv.1 k) props.

(** ToString. An array is joined with commas, [null] and [undefined]
    elements as the empty string; an object is "[object Object]" unless
    it has an own property [toString], which after [JSON.parse] is no
    function: then the conversion throws. *)
Fixpoint toStr (v : JVal) : Exc string :=
  match v with
  | JUndefined => Ok "undefined"
  | JNull => Ok "null"
  | JBool true => Ok "true"
  | JBool false => Ok "false"
  | JStr s => Ok s
  | JNum q => Ok (show_number q)
  | JArr items =>
      (fix join (l : list JVal) : Exc string :=
         match l with
         | [] => Ok ""
         | x :: rest =>
             bindE (match x with
                    | JUndefined | JNull => Ok ""
                    | _ => toStr x
                    end) (fun first =>
             match rest with
             | [] => Ok first
             | _ => bindE (join rest) (fun others => Ok (first +:+ "," +:+ others))
             end)
         end) items
  | JObj props =>
      if own_key "toString" props
      then Raise "Cannot convert object to primitive value"
      else Ok "[object Object]"
  end.

(** What an element of an array becomes as a byte: a number is
    truncated and taken modulo 256, [true] is 1, [false], [null] and
    [undefined] are 0. (A string, an array or an object is read as 0
    here; Node converts it to a number first.) *)
Definition element_byte (v : JVal) : Byte.byte :=
  match v with
  | JNum q => byte_of_Z (Z.quot (Qnum q) (Zpos (Qden q)))
  | JBool true => byte_of_Z 1
  | _ => byte_of_Z 0
  end.

(** [Buffer.from(v, 'base64')]: a string is decoded, an array gives its
    elements as bytes, a number or a boolean is a TypeError (its message
    goes on with what was received). An object is taken to be neither
    array-like nor a serialized Buffer. *)
Definition bufferFrom (v : JVal) : Exc (list Byte.byte) :=
  match v with
  | JStr s => Ok (from_base64 s)
  | JArr items => Ok (element_byte <$> items)
  | _ => Raise "The first argument must be of type string or an instance of Buffer, ArrayBuffer, or Array or an Array-like Object."
  end.

(** The defaults of [src/server.js], with a credential. *)
Definition video_cfg : Video.Config :=
  {| Video.VIDEO_API_URL := "https://api.stability.ai/v2beta/video/generate";
     Video.VIDEO_STATUS_URL_TEMPLATE := "https://api.stability.ai/v2beta/video/status/{jobId}";
     Video.API_KEY := "sk-test";
     Video.env_MAX_POLL_MS := None;
     Video.DEFAULT_DURATION_SECONDS := None;
     Video.DEFAULT_WIDTH := None;
     Video.DEFAULT_HEIGHT := None |}.

(** The defaults of [src/unnamed/part_000], with a credential. *)
Definition image_cfg : Image.Config :=
  {| Image.IMAGE_API_URL := "https://api.stability.ai/v2beta/stable-image/generate/core";
     Image.API_KEY := "sk-test";
     Image.DEFAULT_WIDTH := None;
     Image.DEFAULT_HEIGHT := None |}.

Definition at_ (t : Z) : Video.Env := {| Video.now := t; Video.rnd := 7; Video.disk := Ok () |}.

Definition fox : Video.Body :=
  {| Video.b_prompt := JStr " a red fox ";
     Video.b_duration := JUndefined;
     Video.b_width := JUndefined;
     Video.b_height := JUndefined |}.

(** The numbers the video handler reads off [fox]: the defaults. *)
Definition fox_numbers : Video.Numbers :=
  {| Video.n_duration := Some 10; Video.n_width := Some 1920; Video.n_height := Some 1080 |}.

(** A JSON body whose [duration] has an own property [toString]. *)
Definition unconvertible : JVal := JObj [("toString", num 1)].



Definition fox_image : Image.Body :=
  {| Image.prompt := JStr "a red fox";
     Image.width := num 512;
     Image.height := num 512;
     Image.samples := JUndefined |}.

Definition fox_image_with_object : Image.Body :=
  {| Image.prompt := JStr "a red fox";
     Image.width := unconvertible;
     Image.height := JUndefined;
     Image.samples := JUndefined |}.

(** The numbers the image handler reads off [fox_image]. *)
Definition fox_image_numbers : Image.Numbers :=
  {| Image.n_width := Some 512; Image.n_height := Some 512; Image.n_samples := Some 1 |}.

(** A 200 answer with a JSON body, and an answer with a given status and
    a text body that is not JSON. *)
Definition answer (v : JVal) : Exc Response :=
  Ok {| status := 200; statusText := "OK"; text := ""; json := Ok v |}.

Definition refusal (st : Z) (txt : string) : Exc Response :=
  Ok {| status := st; statusText := ""; text := txt; json := Raise "Unexpected token" |}.

(** A provider that answers every call the same way: the JSON post with
    [onJson], the form post with [onForm], a download with [onGet]; the
    clock reads 1700000000000, the random draw is 42, the disk accepts. *)
Definition provider (onJson onForm : Exc Response) (onGet : Exc Download) : Image.Oracle :=
  fun _ c =>
    match c as c' return Image.reply c' with
    | Image.PostJson _ _ _ => onJson
    | Image.PostForm _ _ _ => onForm
    | Image.Get _ => onGet
    | Image.DateNow => 1700000000000
    | Image.MathRandom _ => 42
    | Image.WriteFileSync _ _ => Ok ()
    end.

Definition generate_image := Image.generate_image parseInt10 toStr image_cfg.

Definition step := Video.step parseInt10 bufferFrom toStr video_cfg.
Definition run := Video.run parseInt10 bufferFrom toStr video_cfg.
Definition statuses := Video.statuses parseInt10 bufferFrom toStr video_cfg.

(** The registry after one valid submission at time 0, and after the
    provider has answered it with the handle "abc123" a second later. *)
Definition submitted : Video.World :=
  Video.generate_video parseInt10 toStr video_cfg (at_ 0) "job-1" fox Video.boot.

Definition handled : Video.World :=
  Video.on_submit bufferFrom (at_ 1000) "job-1" 0
    (answer (JObj [("task_id", JStr "abc123")])) (Video.unsuspend 0 submitted).

Definition video_file : Exc Download :=
  Ok {| dl_status := 200; dl_buffer := Ok [Byte.x00; Byte.x01] |}.

(** The bodies of the extraction examples. *)
Definition artifacts_body : JVal := JObj [("artifacts", JArr [JObj [("base64", JStr "QUJD")]])].
Definition output_body : JVal := JObj [("output", JArr [JObj [("url", JStr "https://x/y.png")]])].

Definition ABC : list Byte.byte := [Byte.x41; Byte.x42; Byte.x43].

End Sample.

(* ===================================================================== *)
(** ** The earlier image server ([src/index.js])                          *)
(* ===================================================================== *)

Module Legacy.

Import Http Image.

(** [(pdata.artifacts && pdata.artifacts[0] && pdata.artifacts[0].base64)
    || pdata.image_base64 || null]; [pdata] is read unguarded. *)
Definition b64 (pdata : JVal) : Exc JVal :=
  bindE (get pdata "artifacts") (fun artifacts =>
    Ok (or_ (or_ (first_of artifacts "base64") (prop pdata "image_base64")) JNull)).

Section Handler.

Variable parseInt10 : string -> option Z.
Variable toStr : JVal -> Exc string.
Variable cfg : Config.

(** The handler of [src/index.js]. Its post is the JSON post of the
    later server without the [Accept] header and the timeout, neither of
    which a call records; [saveBase64ImageToOut], the conversions at the
    head of the handler and the request body are the same in both
    files. *)
Definition generate_image (req : Body) : Prog Out :=
  catch
    (do prompt <- lift (trimmed (prompt req));
     do n <- lift (numbers_of parseInt10 toStr cfg req);
     let body := payload_of prompt n in
     if too_short prompt then
       Ret {| code := 400; body := JObj [("error", JStr "Prompt too short")] |}
     else if String.eqb (API_KEY cfg) "" then
       Ret {| code := 500;
              body := JObj [("error", JStr "Server not configured with PROVIDER_API_KEY")] |}
     else
       do pResp <- await_ (PostJson (IMAGE_API_URL cfg) (API_KEY cfg) body);
       if negb (ok pResp) then
         Ret {| code := 502;
                body := JObj [
                  ("error", JStr ("Provider initial error: " +:+ show (Http.status pResp) +:+ " " +:+
                                  statusText pResp));
                  ("details", JStr (text pResp))] |}
       else
         do pdata <- lift (json pResp);
         do found <- lift (b64 pdata);
         if negb (truthy found) then
           Ret {| code := 500;
                  body := JObj [("error", JStr "No image returned from provider");
                                ("payload", pdata)] |}
         else
           do savedPath <- saveBase64ImageToOut found;
           Ret (image_reply (JStr savedPath) pdata))
    (fun msg => Ret {| code := 500; body := JObj [("error", JStr msg)] |}).

End Handler.

End Legacy.

(* ===================================================================== *)
(** ** Predicates on requests, texts and traces                           *)
(* ===================================================================== *)

Module Shape.

Import Http.

(** Every code unit of the string is white space. *)
Fixpoint blank (s : string) : bool :=
  match s with
  | String c r => is_space c && blank r
  | EmptyString => true
  end.

(** No code unit of the string is the given one. *)
Fixpoint lacks (c : ascii) (s : string) : bool :=
  match s with
  | String a r => negb (Ascii.eqb a c) && lacks c r
  | EmptyString => true
  end.

(** Every code unit of the string is in the class [[A-Za-z-+/]]. *)
Fixpoint mime_like (s : string) : bool :=
  match s with
  | String c r => Image.is_mime_char c && mime_like r
  | EmptyString => true
  end.

(** The string ends with the given one. *)
Fixpoint endsWith (s suffix : string) : bool :=
  String.eqb s suffix ||
  match s with
  | String _ r => endsWith r suffix
  | EmptyString => false
  end.

(** A request body with the given prompt and nothing else. *)
Definition only_prompt (v : JVal) : Image.Body :=
  {| Image.prompt := v; Image.width := JUndefined;
     Image.height := JUndefined; Image.samples := JUndefined |}.

End Shape.

(* ===================================================================== *)
(** ** The video server: the listing route and what holds of a registry   *)
(* ===================================================================== *)

Module Registry.

Import Http Video.

(** [GET /api/jobs]: one object per entry of the Map, in its order. *)
Definition list_entry (w : World) (entry : string * nat) : JVal :=
  match heap w !! entry.2 with
  | Some job =>
      JObj [("id", JStr entry.1);
            ("status", JStr (status_name (status job)));
            ("prompt", JStr (prompt job));
            ("resultUrl", resultUrl job)]
  | None => JUndefined
  end.

Definition list_route (w : World) : Out :=
  {| code := 200; body := JArr (map (list_entry w) (jobs w)) |}.

(** The identifier and the reference in the closure of a suspended
    function. *)
Definition task_key (t : Task) : string :=
  match t with
  | AwaitSubmit k _ | AwaitSubmitDownload k _ _ | AwaitSubmitSaved k _ _ _ _
  | AwaitStatus _ k _ | AwaitPollDownload _ k _ _ _ | AwaitPollSaved _ k _ _ _ _ => k
  end.

Definition task_ref (t : Task) : nat :=
  match t with
  | AwaitSubmit _ r | AwaitSubmitDownload _ r _ | AwaitSubmitSaved _ r _ _ _
  | AwaitStatus _ _ r | AwaitPollDownload _ _ r _ _ | AwaitPollSaved _ _ r _ _ _ => r
  end.

(** The detached submission task of a job, at any of its awaits. *)
Definition submitting (t : Task) : bool :=
  match t with
  | AwaitSubmit _ _ | AwaitSubmitDownload _ _ _ | AwaitSubmitSaved _ _ _ _ _ => true
  | _ => false
  end.

(** The reference points at a job object that carries the identifier. *)
Definition points (h : list Job) (entry : string * nat) : Prop :=
  exists job, h !! entry.2 = Some job /\ id job = entry.1.

(** Every entry of the registry and every suspended function refers to a
    job object with its own identifier, and no identifier is bound twice. *)
Definition well_formed (w : World) : Prop :=
  Forall (points (heap w)) (jobs w) /\
  Forall (fun t => points (heap w) (task_key t, task_ref t)) (pending w) /\
  NoDup (jobs w).*1.

(** The fields that [POST /api/generate-video] fills in and nothing
    assigns afterwards. *)
Definition same_request (a b : Job) : Prop :=
  id a = id b /\ prompt a = prompt b /\ duration a = duration b /\
  width a = width b /\ height a = height b /\ createdAt a = createdAt b /\
  startedAt a = startedAt b /\ maxPollMs a = maxPollMs b.

(** How many replies have been sent. *)
Fixpoint replies (effects : list Effect) : nat :=
  match effects with
  | [] => 0
  | Sent _ :: rest => S (replies rest)
  | _ :: rest => replies rest
  end.

(** How many requests a run has received. *)
Fixpoint posts (events : list Event) : nat :=
  match events with
  | [] => 0
  | Post _ _ _ :: rest => S (posts rest)
  | _ :: rest => posts rest
  end.

(** What every run of the worker and of a resumed task keeps of a
    state: the registry stays well formed, no identifier leaves it, and
    no reply is sent. *)
Definition keeps (w0 w : World) : Prop :=
  well_formed w /\
  (jobs w0).*1 ⊆ (jobs w).*1 /\
  replies (wire w) = replies (wire w0).

(** A status answer from which the worker learns nothing: a rejected
    fetch, a status outside 200..299, a body that is not JSON, or the
    JSON value null. *)
Definition uninformative (reply : Exc Response) : Prop :=
  match reply with
  | Raise _ => True
  | Ok resp => ok resp = false \/ (exists m, json resp = Raise m) \/ json resp = Ok JNull
  end.

Section Sweep.

Variable parseInt10 : string -> option Z.
Variable toStr : JVal -> Exc string.
Variable cfg : Config.

(** A job the sweep polls: [processing], within its deadline, with a
    provider handle from which the status URL can be built. *)
Definition pollable (env : Env) (job : Job) : Prop :=
  status job = processing /\
  overdue parseInt10 cfg env job = false /\
  truthy (providerJobId job) = true /\
  exists url, buildStatusUrl toStr cfg (providerJobId job) = Ok url.

(** An entry at which the sweep sends no request and goes on: its job
    is not [processing], or is past its deadline, or has no provider
    handle yet. *)
Definition gone_past (env : Env) (w : World) (entry : string * nat) : Prop :=
  forall job, heap w !! entry.2 = Some job -> status job = processing ->
    overdue parseInt10 cfg env job = true \/ truthy (providerJobId job) = false.

(** An entry the sweep leaves alone: its job is not [processing], or is
    within its deadline and has no provider handle yet. *)
Definition left_alone (env : Env) (w : World) (entry : string * nat) : Prop :=
  forall job, heap w !! entry.2 = Some job -> status job = processing ->
    overdue parseInt10 cfg env job = false /\ truthy (providerJobId job) = false.

(** An entry whose job, if [processing], is past its deadline. *)
Definition past_due (env : Env) (w : World) (entry : string * nat) : Prop :=
  forall job, heap w !! entry.2 = Some job -> status job = processing ->
    overdue parseInt10 cfg env job = true.

(** What one sweep over overdue jobs makes of a job object. *)
Definition swept (refs : list nat) (r : nat) (job : Job) : Job :=
  if status_eqb (status job) processing && bool_decide (r ∈ refs)
  then time_out job else job.

End Sweep.

(** The suspended function is the detached submission task of the job
    object [r]. *)
Definition submits (r : nat) (t : Task) : bool := submitting t && Nat.eqb (task_ref t) r.

(** How many submission tasks of the job object [r] are in flight. *)
Definition in_flight (r : nat) (w : World) : nat :=
  length (filter (fun t => submits r t = true) (pending w)).

(** A failed job carries an error. *)
Definition explained (job : Job) : Prop := status job = failed -> is_set (error job) = true.

(** A job object against the submission tasks in flight for it: at most
    one; while it is in flight the job has no provider handle; once none
    is, a [processing] job has a handle the sweep can poll. *)
Definition in_phase (w : World) (r : nat) (job : Job) : Prop :=
  (in_flight r w <= 1)%nat /\
  (in_flight r w = 1%nat -> providerJobId job = JNull) /\
  (in_flight r w = 0%nat -> status job = processing -> truthy (providerJobId job) = true).

(** The job life cycle, between two events ([None]) and inside the run
    of the submission task of the object [r0], which is no longer
    suspended and has not yet written its outcome ([Some r0]). *)
Definition lifecycle (x : option nat) (w : World) : Prop :=
  (forall r job, heap w !! r = Some job -> explained job) /\
  (forall r job, heap w !! r = Some job -> x <> Some r -> in_phase w r job) /\
  match x with
  | None => True
  | Some r0 =>
      in_flight r0 w = 0%nat /\
      exists job, heap w !! r0 = Some job /\ providerJobId job = JNull
  end.

(** Every job object of [w0] other than [c] is still there in [w], with
    the provider handle it had. *)
Definition untouched (c : option nat) (w0 w : World) : Prop :=
  forall r job, heap w0 !! r = Some job -> c <> Some r ->
    exists job', heap w !! r = Some job' /\ providerJobId job' = providerJobId job.

(** What one event makes of the state [w0], where [c] is the object
    whose submission task the event resumes, if it resumes one. *)
Definition life (w0 : World) (c x : option nat) (w : World) : Prop :=
  lifecycle x w /\ untouched c w0 w.

(** The object whose submission task is resumed with a suspended
    function. *)
Definition resumes (t : Task) : option nat :=
  if submitting t then Some (task_ref t) else None.


(** The bytes a download that has settled gives to store: those of its
    body, when the fetch was answered with a status in 200..299 and the
    body could be read. *)
Definition fetched (file : Exc Download) : option (list Byte.byte) :=
  match file with
  | Ok d =>
      if dl_ok d
      then match dl_buffer d with Ok buffer => Some buffer | Raise _ => None end
      else None
  | Raise _ => None
  end.

(** The state once a sweep has sent its status request for a job; it
    sends none when the status URL cannot be built. *)
Definition asked (toStr : JVal -> Exc string) (cfg : Config) (job : Job) (w : World) : World :=
  match buildStatusUrl toStr cfg (providerJobId job) with
  | Ok url => emit (AskedStatus url (API_KEY cfg)) w
  | Raise _ => w
  end.

End Registry.

(* ===================================================================== *)
(** ** More worked states                                                 *)
(* ===================================================================== *)

Module Cases.

Import Http.

(** The job of [Sample.submitted] and of [Sample.handled]. *)
Definition fox_job : Video.Job :=
  Video.mark_started (Sample.at_ 0)
    (Video.new_job Sample.parseInt10 Sample.video_cfg (Sample.at_ 0) "job-1" "a red fox"
       Sample.fox_numbers).

Definition fox_job_handled : Video.Job :=
  Video.set_providerResponse (JObj [("task_id", JStr "abc123")])
    (Video.set_providerJobId (JStr "abc123") fox_job).

(** A second submission half a second after that of [Sample.submitted],
    which the provider has answered with the handle "xyz789" while the
    first is still unanswered; and its job. *)
Definition second_handled : Video.World :=
  Video.on_submit Sample.bufferFrom (Sample.at_ 1000) "job-2" 1
    (Sample.answer (JObj [("id", JStr "xyz789")]))
    (Video.unsuspend 1
       (Video.generate_video Sample.parseInt10 Sample.toStr Sample.video_cfg (Sample.at_ 500)
          "job-2" Sample.fox Sample.submitted)).

Definition second_job : Video.Job :=
  Video.set_providerResponse (JObj [("id", JStr "xyz789")])
    (Video.set_providerJobId (JStr "xyz789")
       (Video.mark_started (Sample.at_ 500)
          (Video.new_job Sample.parseInt10 Sample.video_cfg (Sample.at_ 500) "job-2"
             "a red fox" Sample.fox_numbers))).

(** The response inside [Sample.answer]. *)
Definition answered (v : JVal) : Response :=
  {| Http.status := 200; statusText := "OK"; text := ""; json := Ok v |}.

(** Status answers of the provider. *)
Definition done_with_url : JVal :=
  JObj [("status", JStr "completed");
        ("output", JArr [JObj [("url", JStr "https://x/v.mp4")]])].

Definition done_with_payload : JVal :=
  JObj [("status", JStr "succeeded"); ("video_base64", JStr "QUJD");
        ("video_url", JStr "https://x/v.mp4")].

End Cases.

(* ===================================================================== *)
(** ** The library functions on small inputs                              *)
(* ===================================================================== *)

Module JsFacts.

Example trim_strips_both_ends :
  trim (String (Ascii.ascii_of_N 9) " a red fox  ") = "a red fox".
Proof. reflexivity. Qed.

Example trim_of_blanks : trim "   " = "".
Proof. reflexivity. Qed.

Example lower_case : toLowerCase "Unsupported Content-Type" = "unsupported content-type".
Proof. reflexivity. Qed.

Example includes_inside : includes "expected multipart/form-data" "multipart" = true.
Proof. reflexivity. Qed.

Example base64_full_group : from_base64 "QUJD" = [Byte.x41; Byte.x42; Byte.x43].
Proof. reflexivity. Qed.

Example base64_padding : from_base64 "QUI=" = [Byte.x41; Byte.x42].
Proof. reflexivity. Qed.

Example data_url_is_split :
  Image.match_data_url "data:image/jpeg;base64,QUJD" = Some ("image/jpeg", "QUJD").
Proof. reflexivity. Qed.

Example status_url_of_handle :
  Video.buildStatusUrl Sample.toStr Sample.video_cfg (JStr "abc123") =
  Ok "https://api.stability.ai/v2beta/video/status/abc123".
Proof. reflexivity. Qed.

Example parseInt_of_values :
  parseInt Sample.parseInt10 Sample.toStr (JStr " 42px") = Ok (Some 42) /\
  parseInt Sample.parseInt10 Sample.toStr (Http.num 1920) = Ok (Some 1920) /\
  parseInt Sample.parseInt10 Sample.toStr (JArr [Http.num 512]) = Ok (Some 512) /\
  parseInt Sample.parseInt10 Sample.toStr (JBool true) = Ok None /\
  parseInt Sample.parseInt10 Sample.toStr (JObj []) = Ok None /\
  parseInt Sample.parseInt10 Sample.toStr Sample.unconvertible =
  Raise "Cannot convert object to primitive value".
Proof. repeat split; reflexivity. Qed.

Example parseInt_rounds_to_double :
  Sample.parseInt10 "9007199254740993" = Some 9007199254740992.
Proof. reflexivity. Qed.

Example join_of_array :
  Sample.toStr (JArr [Http.num 1; JNull; JStr "a"; JArr [JBool true; Http.num (-2)]]) =
  Ok "1,,a,true,-2".
Proof. reflexivity. Qed.

Example default_max_poll :
  Video.MAX_POLL_MS Sample.parseInt10 Sample.video_cfg = Some 300000.
Proof. reflexivity. Qed.

Example or_returns_operand :
  or_ (JStr "") JNull = JNull /\ and_ (Http.num 0) (JStr "x") = Http.num 0.
Proof. split; reflexivity. Qed.

End JsFacts.

(* ===================================================================== *)
(** ** The image server: the retry and the extraction                     *)
(* ===================================================================== *)

Module ImageProofs.

Import Http Image.

Lemma count_app f t1 t2 : count f (t1 ++ t2) = (count f t1 + count f t2)%nat.
Proof. induction t1 as [|c t1 IH]; simpl; [done|]. rewrite IH. lia. Qed.

Lemma quiet_bind {A B} (p : Prog A) (f : A -> Prog B) :
  quiet p -> (forall a, quiet (f a)) -> quiet (bind p f).
Proof.
  induction 1 as [a|m|c k Hf Hj Hk IH]; intros Hq; simpl; auto using quiet_Throw.
  apply quiet_Do; auto.
Qed.

Lemma quiet_catch {A} (p : Prog A) (h : string -> Prog A) :
  quiet p -> (forall m, quiet (h m)) -> quiet (catch p h).
Proof.
  induction 1 as [a|m|c k Hf Hj Hk IH]; intros Hq; simpl; auto using quiet_Ret.
  apply quiet_Do; auto.
Qed.

Lemma quiet_lift {A} (e : Exc A) : quiet (lift e).
Proof. destruct e; constructor. Qed.

Lemma quiet_run {A} (p : Prog A) :
  quiet p -> forall o hist, exists t,
    (run p o hist).2 = hist ++ t /\ count is_form t = 0%nat /\ count is_json t = 0%nat.
Proof.
  induction 1 as [a|m|c k Hf Hj Hk IH]; intros o hist; simpl.
  - exists []. by rewrite app_nil_r.
  - exists []. by rewrite app_nil_r.
  - destruct (IH (o hist c) o (hist ++ [c])) as (t & Ht & H1 & H2).
    exists (c :: t). rewrite Ht, <- app_assoc. simpl. rewrite Hf, Hj. auto.
Qed.

Ltac quiet_step :=
  first [ apply quiet_Ret | apply quiet_Throw | apply quiet_lift
        | apply quiet_Do; [reflexivity | reflexivity | intros ?]
        | apply quiet_bind; [| intros ?]
        | apply quiet_catch; [| intros ?] ].

Lemma quiet_save b : quiet (saveBase64ImageToOut b).
Proof.
  destruct b; try apply quiet_Throw.
  unfold saveBase64ImageToOut.
  destruct (match match_data_url s with Some (mime, d) => (d, ext_of mime) | None => (s, "png") end) as [data ext].
  repeat quiet_step.
Qed.

Lemma quiet_deliver pdata msg : quiet (deliver pdata msg).
Proof.
  unfold deliver.
  destruct (truthy (b64 pdata)).
  - apply quiet_bind; [apply quiet_save | intros; apply quiet_Ret].
  - destruct (truthy (imageUrl pdata)); [| apply quiet_Ret].
    apply quiet_catch; [| intros; apply quiet_Ret].
    apply quiet_bind; [repeat quiet_step |].
    intros d. destruct (dl_ok d); repeat quiet_step.
Qed.

Lemma startsWith_lower s m :
  startsWith s m = true -> startsWith (toLowerCase s) (toLowerCase m) = true.
Proof.
  revert s. induction m as [|a m IH]; intros [|b s]; simpl; try done.
  intros [Hab Hs]%andb_true_iff. apply Ascii.eqb_eq in Hab as ->.
  rewrite Ascii.eqb_refl. simpl. auto.
Qed.

Lemma includes_lower s m :
  includes s m = true -> includes (toLowerCase s) (toLowerCase m) = true.
Proof.
  induction s as [|b s IH]; simpl.
  - rewrite orb_false_r. intros H. apply (startsWith_lower "" m) in H. simpl in H.
    by rewrite H.
  - intros [H|H]%orb_true_iff.
    + apply (startsWith_lower (String b s) m) in H. simpl in H. by rewrite H.
    + rewrite (IH H). apply orb_true_r.
Qed.

Lemma marker_lower m : m ∈ markers -> toLowerCase m = m.
Proof.
  unfold markers. rewrite !elem_of_cons, elem_of_nil.
  intros [->|[->|[->|[->|[]]]]]; reflexivity.
Qed.

Lemma wants_form_iff a :
  wants_form a = true <->
  a_status a = 400 \/ exists m, m ∈ markers /\ includes (toLowerCase (a_text a)) m = true.
Proof.
  unfold wants_form, markers. rewrite !orb_true_iff, Z.eqb_eq. split.
  - intros [[[[H|H]|H]|H]|H]; [by left|right; eexists; split; [|exact H]..];
      rewrite !elem_of_cons; auto 6.
  - intros [H|(m & Hm & H)]; [tauto|].
    rewrite !elem_of_cons, elem_of_nil in Hm.
    destruct Hm as [->|[->|[->|[->|[]]]]]; tauto.
Qed.

Section Retry.

Variable parseInt10 : string -> option Z.
Variable toStr : JVal -> Exc string.
Variable cfg : Config.

Abbreviation generate_image := (generate_image parseInt10 toStr cfg).
Abbreviation numbers_of := (numbers_of parseInt10 toStr cfg).
Abbreviation jsonCall := (jsonCall cfg).
Abbreviation formCall := (formCall cfg).

Lemma at_most_one_form req o :
  (count is_form (run (generate_image req) o []).2 <= 1)%nat.
Proof.
  unfold Image.generate_image.
  destruct (trimmed (prompt req)) as [p|m]; simpl; [|lia].
  destruct (Image.numbers_of parseInt10 toStr cfg req) as [n|m]; simpl; [|lia].
  destruct (too_short p); simpl; [lia|].
  destruct (String.eqb (API_KEY cfg) ""); simpl; [lia|].
  destruct (o [] _) as [r|m]; simpl; [|lia].
  destruct (ok r) eqn:Hok; simpl.
  - match goal with |- context [run ?p o ?h] =>
      destruct (quiet_run p (quiet_catch _ _ (quiet_deliver _ _) ltac:(intros; apply quiet_Ret)) o h)
        as (t & Ht & H1 & _) end.
    rewrite Ht. simpl. lia.
  - destruct (wants_form (attempt_of r)); simpl; [|lia].
    destruct (o _ _) as [r2|m]; simpl; [|lia].
    destruct (ok r2) eqn:Hok2; simpl; [|lia].
    match goal with |- context [run ?p o ?h] =>
      destruct (quiet_run p (quiet_catch _ _ (quiet_deliver _ _) ltac:(intros; apply quiet_Ret)) o h)
        as (t & Ht & H1 & _) end.
    rewrite Ht. rewrite count_app. simpl. lia.
Qed.

(** The lower-cased body has a marker whenever the body itself has it. *)
Lemma signal_seen (r : Response) :
  (status r = 400 \/
   exists m, m ∈ markers /\
             (includes (text r) m = true \/ includes (toLowerCase (text r)) m = true)) ->
  wants_form (attempt_of r) = true.
Proof.
  intros H. apply wants_form_iff. simpl.
  destruct H as [H|(m & Hm & [H|H])]; [by left|right; exists m; split; [done|]..].
  - rewrite <- (marker_lower m Hm). by apply includes_lower.
  - done.
Qed.

Lemma no_signal (r : Response) :
  status r <> 400 ->
  (forall m, m ∈ markers -> includes (toLowerCase (text r)) m = false) ->
  wants_form (attempt_of r) = false.
Proof.
  intros Hs Hm. apply not_true_is_false. intros [H|(m & Hin & H)]%wants_form_iff.
  - by apply Hs.
  - simpl in H. rewrite (Hm m Hin) in H. done.
Qed.

(** C5. In [POST /api/generate-image] no run posts the multipart form
    more than once. When the JSON attempt is answered with a status
    outside 200..299, then: if that status is 400, or the body holds one
    of the markers "multipart", "content-type", "accept",
    "prompt: required" (the code looks for them in the lower-cased body,
    so a marker in the body in any letter case counts), the handler posts
    the form exactly once, after its single JSON post, and if the form
    attempt is answered with a failing status too, it replies 502 with
    one error object holding the status and the body text of both
    attempts and stops; if the status is not 400 and the lower-cased body
    holds no marker, it posts no form and replies 502 with the JSON
    attempt's status and body. (The JSON attempt is made when the prompt
    and the three numbers of the request have been converted, the prompt
    passes and a key is set.) *)
Theorem multipart_retry_exactly_once (req : Body) (o : Oracle) :
  (count is_form (run (generate_image req) o []).2 <= 1)%nat /\
  forall (p : string) (n : Numbers) (r : Response),
    trimmed (prompt req) = Ok p ->
    numbers_of req = Ok n ->
    too_short p = false ->
    API_KEY cfg <> "" ->
    o [] (jsonCall p n) = Ok r ->
    ok r = false ->
    ((status r = 400 \/
      exists m, m ∈ markers /\
                (includes (text r) m = true \/ includes (toLowerCase (text r)) m = true)) ->
     count is_form (run (generate_image req) o []).2 = 1%nat /\
     count is_json (run (generate_image req) o []).2 = 1%nat /\
     forall r2 : Response,
       o [jsonCall p n] (formCall p n) = Ok r2 ->
       ok r2 = false ->
       run (generate_image req) o [] =
       (Ok {| code := 502;
              body := JObj [
                ("error", JStr ("Provider initial error (json " +:+ show (status r) +:+
                                ") and form-data retry (status " +:+ show (status r2) +:+ ")"));
                ("jsonAttempt", JObj [("status", num (status r)); ("text", JStr (text r))]);
                ("formAttempt", JObj [("status", num (status r2)); ("text", JStr (text r2))])] |},
        [jsonCall p n; formCall p n])) /\
    (status r <> 400 ->
     (forall m, m ∈ markers -> includes (toLowerCase (text r)) m = false) ->
     run (generate_image req) o [] = (Ok (initial_error (attempt_of r)), [jsonCall p n]) /\
     count is_form (run (generate_image req) o []).2 = 0%nat).
Proof.
  split; [apply at_most_one_form|].
  intros p n r Hp Hn Hlen Hkey Hr Hok.
  apply String.eqb_neq in Hkey.
  assert (Hrun : forall b,
    wants_form (attempt_of r) = b ->
    run (generate_image req) o [] =
    if b then
      run (catch (do formAttempt <- postFormToProvider (IMAGE_API_URL cfg) (API_KEY cfg)
                                      (payload_of p n);
                  if a_ok formAttempt
                  then deliver (or_ (a_json formAttempt) JNull)
                         "No image returned in provider form response"
                  else Ret (composite_error (attempt_of r) formAttempt))
                 (fun msg => Ret {| code := 500; body := JObj [("error", JStr msg)] |}))
          o [jsonCall p n]
    else (Ok (initial_error (attempt_of r)), [jsonCall p n])).
  { intros b Hb. unfold Image.generate_image. rewrite Hp. simpl. rewrite Hn. simpl.
    rewrite Hlen, Hkey. simpl.
    unfold Image.jsonCall in Hr. rewrite Hr. simpl. rewrite Hok, Hb.
    destruct b; reflexivity. }
  split.
  - intros Hsig. rewrite (Hrun true (signal_seen r Hsig)).
    simpl. fold (formCall p n).
    destruct (o [jsonCall p n] (formCall p n)) as [r2|m] eqn:Hr2; simpl.
    + destruct (ok r2) eqn:Hok2.
      * match goal with |- context [run ?q o ?h] =>
          destruct (quiet_run q (quiet_catch _ _ (quiet_deliver _ _)
                                   ltac:(intros; apply quiet_Ret)) o h)
            as (t & Ht & H1 & H2) end.
        rewrite Ht, !count_app, H1, H2. simpl.
        repeat split; try done. intros r2' [= <-] Hno. congruence.
      * simpl. repeat split; try done. intros r2' [= <-] _. reflexivity.
    + repeat split; try done.
  - intros Hs Hm. rewrite (Hrun false (no_signal r Hs Hm)). done.
Qed.

End Retry.

(** C5, at a provider that refuses the JSON post with 400 and a body
    naming multipart, and refuses the form post with 500. *)
Lemma multipart_retry_exactly_once_witness :
  Image.count Image.is_form
    (Image.run (Sample.generate_image Sample.fox_image)
       (Sample.provider (Sample.refusal 400 "expected multipart/form-data")
                        (Sample.refusal 500 "upstream failure") (Raise "unreachable"))
       []).2 = 1%nat.
Proof.
  pose proof (multipart_retry_exactly_once Sample.parseInt10 Sample.toStr Sample.image_cfg
    Sample.fox_image
    (Sample.provider (Sample.refusal 400 "expected multipart/form-data")
                     (Sample.refusal 500 "upstream failure") (Raise "unreachable"))) as [_ H].
  refine (proj1 (proj1 (H "a red fox" Sample.fox_image_numbers _ _ _ _ _ _ _) _)).
  - reflexivity.
  - reflexivity.
  - reflexivity.
  - discriminate.
  - reflexivity.
  - reflexivity.
  - left. reflexivity.
Defined.


End ImageProofs.

(* ===================================================================== *)
(** ** The video server: submission, sweep, materializer                  *)
(* ===================================================================== *)

Module VideoProofs.

Import Http Video Registry.

Lemma map_get_set k r m : map_get k (map_set k r m) = Some r.
Proof.
  induction m as [|[k' r'] m IH]; simpl.
  - by rewrite String.eqb_refl.
  - destruct (String.eqb k k') eqn:E; simpl; rewrite ?String.eqb_refl, ?E; done.
Qed.



Lemma alter_last (f : Job -> Job) (h : list Job) (j : Job) :
  alter f (length h) (h ++ [j]) = h ++ [f j].
Proof. induction h as [|x h IH]; simpl; [done|]. by rewrite <- IH. Qed.

Lemma too_short_spec p : too_short p = true <-> (String.length p < 3)%nat.
Proof.
  unfold too_short. rewrite orb_true_iff, Nat.ltb_lt. split; [|auto].
  intros [H|H]; [|done]. apply String.eqb_eq in H as ->. simpl. lia.
Qed.

Section Server.

Variable parseInt10 : string -> option Z.
Variable bufferFrom : JVal -> Exc (list Byte.byte).
Variable toStr : JVal -> Exc string.
Variable cfg : Config.

Abbreviation generate_video := (generate_video parseInt10 toStr cfg).
Abbreviation numbers_of := (numbers_of parseInt10 toStr cfg).
Abbreviation new_job := (new_job parseInt10 cfg).
Abbreviation buildStatusUrl := (buildStatusUrl toStr cfg).
Abbreviation visit := (visit parseInt10 toStr cfg).
Abbreviation sweep := (sweep parseInt10 toStr cfg).
Abbreviation sweep_from := (sweep_from parseInt10 toStr cfg).
Abbreviation MAX_POLL_MS := (MAX_POLL_MS parseInt10 cfg).
Abbreviation overdue := (overdue parseInt10 cfg).
Abbreviation gone_past := (gone_past parseInt10 cfg).
Abbreviation saveVideoFromBase64OrUrl := (saveVideoFromBase64OrUrl bufferFrom).
Abbreviation step := (step parseInt10 bufferFrom toStr cfg).
Abbreviation run := (run parseInt10 bufferFrom toStr cfg).

Lemma accepted_submission
    (env : Env) (uuid : string) (req : Body) (w : World) (p : string) (n : Numbers) :
  trimmed (b_prompt req) = Ok p -> numbers_of req = Ok n ->
  (3 <= String.length p)%nat -> API_KEY cfg <> "" ->
  let w' := generate_video env uuid req w in
  let r := length (heap w) in
  wire w' = wire w ++ [PostedVideo (VIDEO_API_URL cfg) (API_KEY cfg)
                         (body_of (new_job env uuid p n));
                       Sent (accepted uuid)] /\
  map_get uuid (jobs w') = Some r /\
  heap w' !! r = Some (mark_started env (new_job env uuid p n)) /\
  pending w' = pending w ++ [AwaitSubmit uuid r] /\
  jobs w' = map_set uuid r (jobs w) /\
  heap w' = heap w ++ [mark_started env (new_job env uuid p n)].
Proof.
  intros Hp Hn Hlen Hk. simpl. unfold Video.generate_video. rewrite Hp, Hn.
  assert (too_short p = false) as ->.
  { apply not_true_is_false. rewrite too_short_spec. lia. }
  apply String.eqb_neq in Hk. rewrite Hk. simpl. rewrite <- app_assoc. simpl.
  rewrite alter_last. repeat split.
  - apply map_get_set.
  - by apply list_lookup_middle.
  - clear. induction (jobs w) as [|[k0 r0] m IH]; simpl.
    + by rewrite String.eqb_refl.
    + destruct (String.eqb uuid k0) eqn:E; simpl; [by rewrite String.eqb_refl|].
      by rewrite E, IH.
Qed.


(** What the detached task does with a successful answer in which it
    finds no video, no base64 payload and no handle: the job fails, with
    the note and the raw payload as its error. *)
Lemma unexpected_answer_fails
    (env : Env) (jobId : string) (r : nat) (pResp : Response) (pdata : JVal)
    (w : World) (job : Job) :
  ok pResp = true ->
  json pResp = Ok pdata ->
  get pdata "video_url" = Ok JUndefined ->
  truthy (prop pdata "video_base64") = false ->
  truthy (handle_of pdata) = false ->
  heap w !! r = Some job ->
  heap (on_submit bufferFrom env jobId r (Ok pResp) w) !! r =
  Some (set_error (JObj [("note", JStr "Unexpected provider response"); ("payload", pdata)])
          (set_status failed job)).
Proof.
  intros Hok Hj Hv Hb Hh Hr. unfold on_submit. rewrite Hok, Hj, Hv. simpl.
  rewrite Hb, Hh. simpl. by rewrite list_lookup_alter_eq, Hr.
Qed.

(** *** The sweep *)

Lemma overdue_past (env : Env) (job : Job) (start limit : Z) :
  startedAt job = Some start ->
  num_or (maxPollMs job) MAX_POLL_MS = Some limit ->
  start + limit < now env ->
  overdue env job = true.
Proof.
  intros Hs Hl Hlt. unfold Video.overdue, elapsed. rewrite Hs, Hl. simpl.
  apply Z.ltb_lt. lia.
Qed.

(** C4. When the sweep comes to a job that is [processing] and whose
    deadline, [startedAt] plus [job.maxPollMs || MAX_POLL_MS], lies
    before [Date.now()], it sets the job to [failed] with the error
    "Polling timeout" and goes on to the next entry: it sends no status
    request and suspends on nothing, so no answer of the provider has a
    part in the outcome. *)
Theorem overdue_job_times_out_unpolled
    (env : Env) (pos : nat) (jobId : string) (r : nat) (w : World)
    (rest : list (string * nat)) (job : Job) (start limit : Z) :
  heap w !! r = Some job ->
  status job = processing ->
  startedAt job = Some start ->
  num_or (maxPollMs job) MAX_POLL_MS = Some limit ->
  start + limit < now env ->
  exists w',
    visit env pos jobId r w = Continue w' /\
    sweep env ((jobId, r) :: rest) pos w = sweep env rest (S pos) w' /\
    heap w' !! r = Some (time_out job) /\
    status (time_out job) = failed /\
    error (time_out job) = JStr "Polling timeout" /\
    wire w' = wire w /\
    pending w' = pending w.
Proof.
  intros Hr Hst Hs Hl Hlt.
  pose proof (overdue_past env job start limit Hs Hl Hlt) as Hover.
  exists (jobs_set jobId r (mutate r time_out w)).
  assert (visit env pos jobId r w = Continue (jobs_set jobId r (mutate r time_out w))) as Hv.
  { unfold Video.visit. rewrite Hr, Hst. simpl. by rewrite Hover. }
  split; [exact Hv|]. split; [simpl; by rewrite Hv|].
  simpl. rewrite list_lookup_alter_eq, Hr. done.
Qed.

Lemma gone_past_timed_out env w k r e :
  gone_past env w e -> gone_past env (jobs_set k r (mutate r time_out w)) e.
Proof.
  intros He job. simpl. rewrite list_lookup_alter. case_decide as E; [|apply He].
  destruct (heap w !! r) as [j|]; [|done]. simpl. by intros [= <-].
Qed.

(** The sweep over entries it has nothing to ask about: it sends and
    suspends nothing, and writes only to jobs past their deadline. *)
Lemma sweep_goes_past (env : Env) (before rest : list (string * nat)) (pos : nat) (w : World) :
  Forall (gone_past env w) before ->
  exists w1,
    sweep env (before ++ rest) pos w = sweep env rest (pos + length before) w1 /\
    wire w1 = wire w /\ pending w1 = pending w /\
    forall r job, heap w !! r = Some job ->
      (status job = processing -> overdue env job = false) ->
      heap w1 !! r = Some job.
Proof.
  revert pos w. induction before as [|[k r] before IH]; intros pos w Hb; simpl.
  - exists w. by rewrite Nat.add_0_r.
  - inversion Hb as [|? ? Hk Hrest]; subst.
    assert (visit env pos k r w = Continue w \/
            (exists job, heap w !! r = Some job /\ status job = processing /\
                         overdue env job = true /\
                         visit env pos k r w = Continue (jobs_set k r (mutate r time_out w))))
      as [Hv|(job & Hr & Hs & Ho & Hv)].
    { unfold Video.visit. destruct (heap w !! r) as [job|] eqn:Hr; [|by left].
      destruct (status_eqb (status job) processing) eqn:Hs; simpl; [|by left].
      assert (status job = processing) as Hp by (by destruct (status job)).
      destruct (overdue env job) eqn:Ho; [right; by exists job|].
      destruct (Hk job Hr Hp) as [H|H]; [congruence|]. rewrite H. by left. }
    + rewrite Hv. destruct (IH (S pos) w Hrest) as (w1 & H1 & H2 & H3 & H4).
      exists w1. rewrite H1. split; [f_equal; lia|done].
    + rewrite Hv.
      destruct (IH (S pos) (jobs_set k r (mutate r time_out w))) as (w1 & H1 & H2 & H3 & H4).
      { eapply Forall_impl; [exact Hrest|]. intros e. apply gone_past_timed_out. }
      exists w1. rewrite H1. split; [f_equal; lia|]. split; [done|]. split; [done|].
      intros r' job' Hr' Hkeep. apply H4; [|done]. simpl.
      rewrite list_lookup_alter. case_decide as E; [|done].
      subst r'. rewrite Hr in Hr'. injection Hr' as <-.
      rewrite (Hkeep Hs) in Ho. done.
Qed.

Lemma outstanding_suspend (r : nat) (t : Task) (w : World) :
  outstanding r (suspend t w) = (outstanding r w + if checks r t then 1 else 0)%nat.
Proof.
  unfold outstanding. simpl. rewrite filter_app, length_app.
  destruct (checks r t) eqn:E.
  - rewrite filter_cons_True by done. simpl. lia.
  - rewrite filter_cons_False by (rewrite E; done). simpl. lia.
Qed.

(** C3, as the code has it. Every firing of the interval timer runs
    [pollWorker] from the first entry, whatever is still suspended, and
    an answer from which the worker learns nothing resumes its sweep
    behind the entry it was about. Take a sweep that starts at any
    position, and a job ahead of it that is [processing] within its
    deadline with a provider handle, such that the sweep finds nothing
    to ask about at the entries before it (each
    of their jobs is not [processing], or is past its deadline and is
    timed out on the way, or has no handle). If the handle converts to a
    string, the sweep sends a status request for the job and suspends
    there: one more status check for that job is outstanding than
    before, however many already were. If the conversion throws, the
    sweep ends at the job: it sends no request and suspends nowhere. *)
Theorem tick_polls_again
    (env : Env) (w : World) (pos : nat) (before after : list (string * nat))
    (jobId : string) (r : nat) (job : Job) :
  drop pos (jobs w) = before ++ (jobId, r) :: after ->
  Forall (gone_past env w) before ->
  heap w !! r = Some job ->
  status job = processing ->
  overdue env job = false ->
  truthy (providerJobId job) = true ->
  (pos = 0%nat -> step w (Tick env) = Some (sweep_from env pos w)) /\
  (forall w0 i pos0 k0 r0 reply,
     pending w0 !! i = Some (AwaitStatus pos0 k0 r0) ->
     w = unsuspend i w0 -> pos = S pos0 -> uninformative reply ->
     step w0 (Replied i env reply) = Some (sweep_from env pos w)) /\
  (forall url, buildStatusUrl (providerJobId job) = Ok url ->
     pending (sweep_from env pos w) =
       pending w ++ [AwaitStatus (pos + length before) jobId r] /\
     wire (sweep_from env pos w) = wire w ++ [AskedStatus url (API_KEY cfg)] /\
     heap (sweep_from env pos w) !! r = Some job /\
     outstanding r (sweep_from env pos w) = S (outstanding r w)) /\
  (forall m, buildStatusUrl (providerJobId job) = Raise m ->
     pending (sweep_from env pos w) = pending w /\
     wire (sweep_from env pos w) = wire w /\
     heap (sweep_from env pos w) !! r = Some job).
Proof.
  intros Hj Hb Hr Hst Hov Hh.
  split; [by intros ->|].
  split.
  { intros w0 i pos0 k0 r0 reply Hi -> -> Hu. unfold Video.step. rewrite Hi.
    unfold on_status. f_equal. destruct reply as [resp|m]; [|done].
    destruct Hu as [Hu|[[m Hu]|Hu]].
    - by rewrite Hu.
    - destruct (ok resp); simpl; [|done]. by rewrite Hu.
    - destruct (ok resp); simpl; [|done]. by rewrite Hu. }
  unfold Video.sweep_from. rewrite Hj.
  destruct (sweep_goes_past env before ((jobId, r) :: after) pos w Hb)
    as (w1 & -> & Hw & Hp & Hkeep).
  pose proof (Hkeep r job Hr (fun _ => Hov)) as Hr1.
  simpl. unfold Video.visit. rewrite Hr1, Hst. simpl. rewrite Hov, Hh. simpl.
  split.
  - intros url ->. simpl. rewrite Hw, Hp. repeat split; try done.
    unfold outstanding. simpl. rewrite Hp, filter_app, length_app.
    rewrite filter_cons_True by (simpl; by rewrite Nat.eqb_refl). simpl. lia.
  - intros m ->. done.
Qed.

(** *** The materializer *)


(** *** What can happen to a job *)

Lemma write_status job job' :
  rtc write job job' -> status job' = status job \/ terminal (status job') = true.
Proof.
  induction 1 as [|job mid job' Hw _ IH]; [by left|].
  destruct IH as [IH|IH]; [|by right]. rewrite IH.
  destruct Hw; simpl; auto.
Qed.

Lemma born_write job job' : born job -> rtc write job job' -> born job'.
Proof. intros (job0 & Hf & H0) H. exists job0. split; [done|]. by etrans. Qed.

Lemma born_unsettled job :
  born job ->
  status job <> queued /\
  (status job = processing -> resultUrl job = JNull /\ error job = JUndefined).
Proof.
  intros (job0 & (Hs & Hr & He) & H). revert job H. apply rtc_ind_r.
  - split; [congruence|done].
  - intros mid job' _ Hw [Hq Hp]. destruct Hw; simpl; split; try done; auto.
Qed.

Lemma adv_refl w : advances w w.
Proof. split; [done|]. intros r job' ->. done. Qed.

Lemma adv_trans w1 w2 w3 : advances w1 w2 -> advances w2 w3 -> advances w1 w3.
Proof.
  intros [Hl1 H1] [Hl2 H2]. split; [lia|]. intros r job3 H3.
  specialize (H2 r job3 H3). destruct (heap w2 !! r) as [job2|] eqn:E2.
  - specialize (H1 r job2 E2). destruct (heap w1 !! r); [by etrans|by eapply born_write].
  - apply lookup_ge_None in E2.
    rewrite (proj2 (lookup_ge_None (heap w1) r)) by lia. done.
Qed.

Lemma adv_same w0 w w' : heap w' = heap w -> advances w0 w -> advances w0 w'.
Proof. intros Hh [Hl H]. split; rewrite Hh; done. Qed.

Lemma adv_mutate w0 r f w :
  (forall job, write job (f job)) -> advances w0 w -> advances w0 (mutate r f w).
Proof.
  intros Hf Hw. eapply adv_trans; [exact Hw|]. split; simpl.
  - by rewrite length_alter.
  - intros r' job'. rewrite list_lookup_alter. case_decide as E.
    + subst r'. destruct (heap w !! r) as [job|]; [|done].
      intros [= <-]. apply rtc_once, Hf.
    + intros ->. done.
Qed.

Lemma adv_jobs_set w0 k r w : advances w0 w -> advances w0 (jobs_set k r w).
Proof. by apply adv_same. Qed.

Lemma adv_emit w0 e w : advances w0 w -> advances w0 (emit e w).
Proof. by apply adv_same. Qed.

Lemma adv_suspend w0 t w : advances w0 w -> advances w0 (suspend t w).
Proof. by apply adv_same. Qed.

Lemma adv_unsuspend w0 i w : advances w0 w -> advances w0 (unsuspend i w).
Proof. by apply adv_same. Qed.

Create HintDb adv discriminated.

Hint Resolve adv_refl adv_jobs_set adv_emit adv_suspend adv_unsuspend : adv.
Hint Extern 1 (advances _ (mutate _ _ _)) =>
  apply adv_mutate; [intros ?; first [constructor | unfold time_out; constructor] |] : adv.

Lemma adv_sweep w0 env entries pos w :
  advances w0 w -> advances w0 (sweep env entries pos w).
Proof.
  revert pos w. induction entries as [|[k r] entries IH]; intros pos w Hw; simpl; [done|].
  unfold Video.visit. destruct (heap w !! r) as [job|]; [|by apply IH].
  destruct (status_eqb (status job) processing); simpl; [|by apply IH].
  destruct (overdue env job); [apply IH; auto with adv|].
  destruct (truthy (providerJobId job)); simpl; [|by apply IH].
  destruct (buildStatusUrl (providerJobId job)); auto with adv.
Qed.

Lemma adv_sweep_from w0 env pos w :
  advances w0 w -> advances w0 (sweep_from env pos w).
Proof. apply adv_sweep. Qed.

Hint Resolve adv_sweep_from : adv.

Lemma adv_save_downloaded w0 env url resp w :
  advances w0 w -> advances w0 (save_downloaded env url resp w).1.
Proof.
  intros Hw. unfold save_downloaded, download_body, save_buffer.
  destruct resp as [d|m]; simpl; [|done].
  destruct (dl_ok d); simpl; [|done].
  destruct (dl_buffer d); simpl; auto with adv.
Qed.

Lemma adv_save w0 env base64 url w :
  advances w0 w ->
  match saveVideoFromBase64OrUrl env base64 url w with
  | Settled w' _ | InDownload w' => advances w0 w'
  end.
Proof.
  intros Hw. unfold Video.saveVideoFromBase64OrUrl.
  destruct (truthy base64).
  - destruct (bufferFrom base64); simpl; auto with adv.
  - destruct (truthy url); auto with adv.
Qed.

Lemma adv_on_poll_saved w0 env pos k r sData vidUrl saved w :
  advances w0 w ->
  advances w0 (on_poll_saved parseInt10 toStr cfg env pos k r sData vidUrl saved w).
Proof. intros Hw. unfold on_poll_saved. destruct saved; auto with adv. Qed.

Lemma adv_on_submit_saved w0 k r pdata viaUrl saved w :
  advances w0 w -> advances w0 (on_submit_saved k r pdata viaUrl saved w).
Proof. intros Hw. unfold on_submit_saved, submit_failed. destruct saved; auto with adv. Qed.

Lemma adv_generate_video env uuid req w : advances w (generate_video env uuid req w).
Proof.
  unfold Video.generate_video.
  destruct (trimmed (b_prompt req)) as [p|m]; [|auto with adv].
  destruct (Video.numbers_of parseInt10 toStr cfg req) as [n|m]; [|auto with adv].
  destruct (too_short p); [auto with adv|].
  destruct (String.eqb (API_KEY cfg) ""); [auto with adv|].
  split; simpl; rewrite alter_last.
  - rewrite length_app. lia.
  - intros r job'. destruct (heap w !! r) as [job|] eqn:E.
    + rewrite lookup_app_l by (by eapply lookup_lt_Some). rewrite E. by intros [= <-].
    + apply lookup_ge_None in E. rewrite lookup_app_r by done.
      destruct (r - length (heap w))%nat; simpl; [|done].
      intros [= <-]. eexists. split; [|done]. by repeat split.
Qed.

Lemma adv_step w e w' : step w e = Some w' -> advances w w'.
Proof.
  intros Hstep. pose proof (adv_refl w) as Hw.
  destruct e as [env uuid req|env|i env reply|i env resp|i env]; simpl in Hstep.
  - injection Hstep as <-. apply adv_generate_video.
  - injection Hstep as <-. by apply adv_sweep.
  - destruct (pending w !! i) as [[k r|k r pdata|k r pdata v saved|pos k r|pos k r sData u
                                  |pos k r sData u saved]|]; try done; injection Hstep as <-.
    + unfold on_submit, submit_failed.
      destruct reply as [pResp|m]; [|auto with adv].
      destruct (ok pResp); simpl; [|auto with adv].
      destruct (json pResp) as [pdata|m]; [|auto with adv].
      destruct (get pdata "video_url") as [video_url|m]; [|auto with adv].
      destruct (truthy video_url).
      { pose proof (adv_save w env JUndefined video_url (unsuspend i w)) as H.
        destruct (saveVideoFromBase64OrUrl _ _ _ _); auto with adv. }
      destruct (truthy (prop pdata "video_base64")).
      { pose proof (adv_save w env (prop pdata "video_base64") JUndefined (unsuspend i w)) as H.
        destruct (saveVideoFromBase64OrUrl _ _ _ _); auto with adv. }
      destruct (truthy (handle_of pdata)); auto with adv.
    + unfold on_status.
      destruct reply as [sResp|m]; [|auto with adv].
      destruct (ok sResp); simpl; [|auto with adv].
      destruct (json sResp) as [sData|m]; [|auto with adv].
      destruct (provider_status sData) as [st|m]; [|auto with adv].
      destruct (says_done st).
      { pose proof (adv_save w env (b64_of sData) (vidUrl_of sData) (unsuspend i w)) as H.
        destruct (saveVideoFromBase64OrUrl _ _ _ _); auto with adv. }
      destruct (says_failed st); auto with adv.
  - destruct (pending w !! i) as [[k r|k r pdata|k r pdata v saved|pos k r|pos k r sData u
                                  |pos k r sData u saved]|]; try done; injection Hstep as <-.
    + unfold on_submit_download.
      pose proof (adv_save_downloaded w env (prop pdata "video_url") resp (unsuspend i w)) as H.
      destruct (save_downloaded _ _ _ _) as [w1 saved]. apply adv_on_submit_saved. auto with adv.
    + unfold on_poll_download.
      pose proof (adv_save_downloaded w env u resp (unsuspend i w)) as H.
      destruct (save_downloaded _ _ _ _) as [w1 saved]. apply adv_on_poll_saved. auto with adv.
  - destruct (pending w !! i) as [[k r|k r pdata|k r pdata v saved|pos k r|pos k r sData u
                                  |pos k r sData u saved]|]; try done; injection Hstep as <-.
    + apply adv_on_submit_saved. auto with adv.
    + apply adv_on_poll_saved. auto with adv.
Qed.

Lemma adv_run events w w' : run w events = Some w' -> advances w w'.
Proof.
  revert w. induction events as [|e events IH]; intros w Hrun; simpl in Hrun.
  - injection Hrun as <-. apply adv_refl.
  - destruct (step w e) as [w1|] eqn:Hstep; [|done].
    eapply adv_trans; [by eapply adv_step|by apply IH].
Qed.

(** Every job of a state reached from the empty registry has come from
    the handler. *)
Lemma reached_born events w r job :
  run boot events = Some w -> heap w !! r = Some job -> born job.
Proof. intros Hrun Hr. destruct (adv_run _ _ _ Hrun) as [_ H]. exact (H r job Hr). Qed.

(** No run to completion takes a job back: its status is what it was,
    or it is terminal. The registry cannot bring [queued] or
    [processing] back; it can replace one terminal status by the other. *)
Lemma status_stays_or_ends w e w' r job :
  step w e = Some w' -> heap w !! r = Some job ->
  exists job', heap w' !! r = Some job' /\
               (status job' = status job \/ terminal (status job') = true).
Proof.
  intros Hstep Hr. destruct (adv_step _ _ _ Hstep) as [Hl H].
  destruct (lookup_lt_is_Some_2 (heap w') r) as [job' Hr'].
  { apply lookup_lt_Some in Hr. lia. }
  exists job'. split; [done|]. specialize (H r job' Hr'). rewrite Hr in H.
  by apply write_status.
Qed.

(** Until a job is terminal it has neither a result nor an error. *)
Lemma unsettled_job_has_neither events w r job :
  run boot events = Some w -> heap w !! r = Some job ->
  terminal (status job) = false ->
  status job = processing /\ is_set (resultUrl job) = false /\ is_set (error job) = false.
Proof.
  intros Hrun Hr Ht. destruct (born_unsettled job (reached_born _ _ _ _ Hrun Hr)) as [Hq Hp].
  destruct (status job) eqn:Hs; try done.
  destruct (Hp eq_refl) as [-> ->]. done.
Qed.

Lemma status_name_queued s : status_name s = "queued" -> s = queued.
Proof. by destruct s. Qed.

(** C10. A submission that passes validation leaves the registry with
    the job already in [processing] and [startedAt] set to the time of
    the call, while the reply it has just sent says "queued": the status
    route asked for that identifier right away answers "processing".
    And after any sequence of requests, timer firings and settled
    awaits from an empty registry, the status route answers "queued"
    for no identifier. *)
Theorem queued_never_observed :
  (forall (env : Env) (uuid : string) (req : Body) (w : World) (p : string) (n : Numbers),
     trimmed (b_prompt req) = Ok p -> numbers_of req = Ok n ->
     (3 <= String.length p)%nat -> API_KEY cfg <> "" ->
     let w' := generate_video env uuid req w in
     last (wire w') = Some (Sent (accepted uuid)) /\
     (exists r job,
        map_get uuid (jobs w') = Some r /\ heap w' !! r = Some job /\
        status job = processing /\ startedAt job = Some (now env)) /\
     prop (body (status_route uuid w')) "status" = JStr "processing") /\
  (forall (events : list Event) (w : World) (jobId : string),
     run boot events = Some w ->
     prop (body (status_route jobId w)) "status" <> JStr "queued").
Proof.
  split.
  - intros env uuid req w p n Hp Hn Hlen Hk.
    destruct (accepted_submission env uuid req w p n Hp Hn Hlen Hk)
      as (Hwire & Hget & Hheap & _).
    simpl. split; [rewrite Hwire; apply last_Some; eexists (wire w ++ [_]); by rewrite <- app_assoc|]. split.
    + exists (length (heap w)), (mark_started env (new_job env uuid p n)). done.
    + unfold status_route. rewrite Hget, Hheap. reflexivity.
  - intros events w jobId Hrun.
    unfold status_route. destruct (map_get jobId (jobs w)) as [r|]; [|done].
    destruct (heap w !! r) as [job|] eqn:Hr; [|done].
    simpl. intros [= H]. apply status_name_queued in H.
    by destruct (born_unsettled job (reached_born _ _ _ _ Hrun Hr)).
Qed.

End Server.

(** *** Worked runs *)



(** C4, at the job of [Sample.submitted] and a sweep 303 seconds later. *)
Lemma overdue_job_times_out_unpolled_witness :
  exists w',
    Video.visit Sample.parseInt10 Sample.toStr Sample.video_cfg (Sample.at_ 303000)
      0 "job-1" 0 Sample.submitted = Continue w' /\
    Video.wire w' = Video.wire Sample.submitted /\
    Video.pending w' = Video.pending Sample.submitted.
Proof.
  destruct (overdue_job_times_out_unpolled Sample.parseInt10 Sample.toStr Sample.video_cfg
              (Sample.at_ 303000) 0 "job-1" 0 Sample.submitted [] Cases.fox_job
              0 300000 eq_refl eq_refl eq_refl eq_refl eq_refl)
    as (w' & Hv & _ & _ & _ & _ & Hw & Hp).
  exists w'. split; [exact Hv|]. split; [exact Hw | exact Hp].
Defined.

(** C3, at [Cases.second_handled] and a timer firing at 3 seconds: the
    sweep goes past the first job, which has no handle yet, and asks
    about the second. *)
Lemma tick_polls_again_witness :
  Sample.step Cases.second_handled (Tick (Sample.at_ 3000)) =
  Some (Video.sweep_from Sample.parseInt10 Sample.toStr Sample.video_cfg (Sample.at_ 3000) 0
          Cases.second_handled) /\
  wire (Video.sweep_from Sample.parseInt10 Sample.toStr Sample.video_cfg (Sample.at_ 3000) 0
          Cases.second_handled) =
  wire Cases.second_handled ++
  [AskedStatus "https://api.stability.ai/v2beta/video/status/xyz789" "sk-test"] /\
  outstanding 1 (Video.sweep_from Sample.parseInt10 Sample.toStr Sample.video_cfg
                   (Sample.at_ 3000) 0 Cases.second_handled) =
  S (outstanding 1 Cases.second_handled).
Proof.
  destruct (tick_polls_again Sample.parseInt10 Sample.bufferFrom Sample.toStr Sample.video_cfg
              (Sample.at_ 3000) Cases.second_handled 0 [("job-1", 0%nat)] [] "job-2" 1
              Cases.second_job eq_refl) as (Ht & _ & Hok & _).
  - constructor; [|constructor]. intros job [= <-] _. right. reflexivity.
  - reflexivity.
  - reflexivity.
  - reflexivity.
  - reflexivity.
  - destruct (Hok _ eq_refl) as (_ & Hw & _ & Ho).
    split; [exact (Ht eq_refl)|]. split; [exact Hw | exact Ho].
Defined.

(** C3 fails: one submission, the provider's handle, and two firings of
    the timer three seconds apart leave two status checks for the one
    job outstanding together. *)
Lemma two_checks_outstanding :
  exists w,
    Sample.run boot
      [Post (Sample.at_ 0) "job-1" Sample.fox;
       Replied 0 (Sample.at_ 1000) (Sample.answer (JObj [("task_id", JStr "abc123")]));
       Tick (Sample.at_ 3000);
       Tick (Sample.at_ 6000)] = Some w /\
    pending w = [AwaitStatus 0 "job-1" 0; AwaitStatus 0 "job-1" 0] /\
    outstanding 0 w = 2%nat.
Proof. eexists. split; [vm_compute; reflexivity|]. split; reflexivity. Qed.


(** C10, at the submission of [Sample.submitted] and at the run that
    follows it with a timer firing. *)
Lemma queued_never_observed_witness :
  prop (body (status_route "job-1" Sample.submitted)) "status" = JStr "processing" /\
  prop (body (status_route "job-1" (Video.pollWorker Sample.parseInt10 Sample.toStr
                                       Sample.video_cfg (Sample.at_ 3000) Sample.submitted)))
       "status" <> JStr "queued".
Proof.
  destruct (queued_never_observed Sample.parseInt10 Sample.bufferFrom Sample.toStr
              Sample.video_cfg) as [H1 H2].
  split.
  - exact (proj2 (proj2 (H1 (Sample.at_ 0) "job-1" Sample.fox boot "a red fox"
                           Sample.fox_numbers eq_refl eq_refl
                           ltac:(simpl; lia) ltac:(discriminate)))).
  - exact (H2 [Post (Sample.at_ 0) "job-1" Sample.fox; Tick (Sample.at_ 3000)] _ "job-1" eq_refl).
Defined.


(** C2 fails on the code. A job is submitted; the provider has not
    answered when a sweep finds the deadline passed and sets the job to
    [failed]; the provider's answer then arrives with a [video_url], the
    detached task downloads it and sets the same job to [succeeded]. The
    statuses after the four events are processing, failed, failed,
    succeeded, and the job ends with both its timeout error and a result. *)
Theorem late_answer_overrides_timeout :
  Sample.statuses 0 boot
    [Post (Sample.at_ 0) "job-1" Sample.fox;
     Tick (Sample.at_ 303000);
     Replied 0 (Sample.at_ 310000)
       (Sample.answer (JObj [("video_url", JStr "https://x/v.mp4")]));
     Downloaded 0 (Sample.at_ 311000) Sample.video_file]
  = [Some processing; Some failed; Some failed; Some succeeded] /\
  exists w job,
    Sample.run boot
      [Post (Sample.at_ 0) "job-1" Sample.fox;
       Tick (Sample.at_ 303000);
       Replied 0 (Sample.at_ 310000)
         (Sample.answer (JObj [("video_url", JStr "https://x/v.mp4")]));
       Downloaded 0 (Sample.at_ 311000) Sample.video_file] = Some w /\
    heap w !! 0%nat = Some job /\
    status job = succeeded /\
    error job = JStr "Polling timeout" /\
    resultUrl job = JStr "/out/video-311000-7.mp4".
Proof.
  split; [vm_compute; reflexivity|].
  eexists _, _. split; [vm_compute; reflexivity|]. repeat split; reflexivity.
Qed.

(** C7 fails on the code. A polled job whose status answer says
    "succeeded" and carries no URL and no base64 payload ends in
    [succeeded] with [resultUrl] null and no [error]: a terminal job
    with neither of the two set. *)
Theorem success_with_neither_result_nor_error :
  exists w job,
    Sample.run boot
      [Post (Sample.at_ 0) "job-1" Sample.fox;
       Replied 0 (Sample.at_ 1000) (Sample.answer (JObj [("task_id", JStr "abc123")]));
       Tick (Sample.at_ 3000);
       Replied 0 (Sample.at_ 3500) (Sample.answer (JObj [("status", JStr "succeeded")]));
       Resumed 0 (Sample.at_ 3500)] = Some w /\
    heap w !! 0%nat = Some job /\
    terminal (status job) = true /\
    is_set (resultUrl job) = false /\
    is_set (error job) = false.
Proof. eexists _, _. split; [vm_compute; reflexivity|]. repeat split; reflexivity. Qed.

(** C8 fails on the code in the worker. A status answer that says
    "completed" and has no field the extraction knows does not fail the
    job: the job is set to [succeeded], its [resultUrl] is null, no
    [error] is attached, and the raw answer is kept only as
    [providerResponse]. *)
Theorem unrecognized_success_is_not_failed :
  exists w job,
    Sample.run boot
      [Post (Sample.at_ 0) "job-1" Sample.fox;
       Replied 0 (Sample.at_ 1000) (Sample.answer (JObj [("task_id", JStr "abc123")]));
       Tick (Sample.at_ 3000);
       Replied 0 (Sample.at_ 3500)
         (Sample.answer (JObj [("status", JStr "completed"); ("progress", num 100)]));
       Resumed 0 (Sample.at_ 3500)] = Some w /\
    heap w !! 0%nat = Some job /\
    status job = succeeded /\
    resultUrl job = JNull /\
    error job = JUndefined /\
    providerResponse job = JObj [("status", JStr "completed"); ("progress", num 100)].
Proof. eexists _, _. split; [vm_compute; reflexivity|]. repeat split; reflexivity. Qed.

End VideoProofs.

(* ===================================================================== *)
(** ** Result extraction, flow by flow                                    *)
(* ===================================================================== *)

Module ExtractionProofs.

Import Http.





End ExtractionProofs.

(* ===================================================================== *)
(** ** The image servers: validation, storage, the two versions           *)
(* ===================================================================== *)

Module ImageMore.

Import Http Image Shape.

Lemma trimmed_falsy v : truthy v = false -> trimmed v = Ok "".
Proof. intros H. unfold trimmed, or_. by rewrite H. Qed.

Lemma trimmed_string s : trimmed (JStr s) = Ok (trim s).
Proof. unfold trimmed, or_. simpl. by destruct s. Qed.

Lemma trimmed_other v :
  truthy v = true -> (forall s, v <> JStr s) ->
  trimmed v = Raise trim_is_not_a_function.
Proof.
  intros Ht Hs. unfold trimmed, or_. rewrite Ht.
  destruct v as [| |b|q|s|l|l]; try done. by destruct (Hs s).
Qed.

Lemma trimStart_blank s : blank s = true -> trimStart s = "".
Proof.
  induction s as [|c s IH]; simpl; [done|].
  intros [Hc Hs]%andb_true_iff. rewrite Hc. auto.
Qed.

Lemma trim_blank s : blank s = true -> trim s = "".
Proof. intros H. unfold trim. by rewrite (trimStart_blank s H). Qed.

Lemma too_short_length p : too_short p = true <-> (String.length p < 3)%nat.
Proof.
  unfold too_short. rewrite orb_true_iff, Nat.ltb_lt. split; [|auto].
  intros [H|H]; [|done]. apply String.eqb_eq in H as ->. simpl. lia.
Qed.

Section Validation.

Variable parseInt10 : string -> option Z.
Variable toStr : JVal -> Exc string.
Variable cfg : Config.

Abbreviation generate_image := (generate_image parseInt10 toStr cfg).
Abbreviation numbers_of := (numbers_of parseInt10 toStr cfg).

(** X1. [POST /api/generate-image] refuses a request before any call to
    the provider, the clock or the disk. It converts the prompt and then
    [width], [height] and [samples] first. A prompt that is a number,
    true, an array or an object gets 500 with the TypeError of [.trim].
    Otherwise, when a [parseInt] throws, the reply is 500 with the
    message of that exception, whatever the prompt. When the numbers
    have been converted: a prompt that is missing, null, 0, false or
    empty, a string of white space only, and a string whose trimmed text
    has fewer than 3 code units get 400 "Prompt too short"; a passing
    prompt without a [PROVIDER_API_KEY] gets 500 with the configuration
    message. *)
Theorem image_request_refused_before_any_call (req : Body) (o : Oracle) :
  (truthy (prompt req) = true -> (forall s, prompt req <> JStr s) ->
   run (generate_image req) o [] =
   (Ok {| code := 500; body := JObj [("error", JStr trim_is_not_a_function)] |}, [])) /\
  (forall m,
     truthy (prompt req) = false \/ (exists s, prompt req = JStr s) ->
     numbers_of req = Raise m ->
     run (generate_image req) o [] =
     (Ok {| code := 500; body := JObj [("error", JStr m)] |}, [])) /\
  (forall n,
     numbers_of req = Ok n ->
     truthy (prompt req) = false \/
     (exists s, prompt req = JStr s /\
                (blank s = true \/ (String.length (trim s) < 3)%nat)) ->
     run (generate_image req) o [] =
     (Ok {| code := 400; body := JObj [("error", JStr "Prompt too short")] |}, [])) /\
  (forall n s,
     numbers_of req = Ok n ->
     prompt req = JStr s -> (3 <= String.length (trim s))%nat -> API_KEY cfg = "" ->
     run (generate_image req) o [] =
     (Ok {| code := 500;
            body := JObj [("error", JStr "Server not configured with PROVIDER_API_KEY")] |},
      [])).
Proof.
  split; [|split; [|split]].
  - intros Ht Hs. unfold Image.generate_image. by rewrite (trimmed_other _ Ht Hs).
  - intros m H Hn.
    assert (exists p, trimmed (prompt req) = Ok p) as (p & Hp).
    { destruct H as [H|(s & ->)].
      - exists "". by rewrite trimmed_falsy.
      - exists (trim s). by rewrite trimmed_string. }
    unfold Image.generate_image. rewrite Hp. simpl. by rewrite Hn.
  - intros n Hn H.
    assert (exists p, trimmed (prompt req) = Ok p /\ too_short p = true) as (p & Hp & Hs).
    { destruct H as [H|(s & -> & [H|H])].
      - exists "". by rewrite trimmed_falsy.
      - exists "". by rewrite trimmed_string, trim_blank.
      - exists (trim s). by rewrite trimmed_string, too_short_length. }
    unfold Image.generate_image. rewrite Hp. simpl. rewrite Hn. simpl. by rewrite Hs.
  - intros n s Hn Hs Hlen Hk. unfold Image.generate_image.
    rewrite Hs, trimmed_string. simpl. rewrite Hn, Hk. simpl.
    assert (too_short (trim s) = false) as ->; [|done].
    apply not_true_is_false. rewrite too_short_length. lia.
Qed.

End Validation.

(** X1, at the prompt 42, at a prompt of three blanks, and at a prompt
    that passes with a [width] that cannot be converted. *)
Lemma image_request_refused_before_any_call_witness :
  Image.run (Sample.generate_image (only_prompt (num 42)))
    (Sample.provider (Raise "unused") (Raise "unused") (Raise "unused")) [] =
  (Ok {| code := 500; body := JObj [("error", JStr trim_is_not_a_function)] |}, []) /\
  Image.run (Sample.generate_image (only_prompt (JStr "   ")))
    (Sample.provider (Raise "unused") (Raise "unused") (Raise "unused")) [] =
  (Ok {| code := 400; body := JObj [("error", JStr "Prompt too short")] |}, []) /\
  Image.run (Sample.generate_image Sample.fox_image_with_object)
    (Sample.provider (Raise "unused") (Raise "unused") (Raise "unused")) [] =
  (Ok {| code := 500;
         body := JObj [("error", JStr "Cannot convert object to primitive value")] |}, []).
Proof.
  pose proof (image_request_refused_before_any_call Sample.parseInt10 Sample.toStr
                Sample.image_cfg) as H.
  split; [|split].
  - apply (proj1 (H (only_prompt (num 42)) _)); [reflexivity|]. intros s. discriminate.
  - refine (proj1 (proj2 (proj2 (H (only_prompt (JStr "   ")) _)))
              {| n_width := Some 512; n_height := Some 512; n_samples := Some 1 |} eq_refl _).
    right. exists "   ". split; [reflexivity|]. left. reflexivity.
  - refine (proj1 (proj2 (H Sample.fox_image_with_object _))
              "Cannot convert object to primitive value" _ eq_refl).
    right. by exists "a red fox".
Defined.

(** *** [saveBase64ImageToOut] *)

Lemma strip_prefix_iff p s r : strip_prefix p s = Some r <-> s = p +:+ r.
Proof.
  revert s. induction p as [|a p IH]; intros s; simpl.
  - split; [by intros [= ->]|by intros ->].
  - destruct s as [|b s]; [done|].
    destruct (Ascii.eqb a b) eqn:E.
    + apply Ascii.eqb_eq in E as ->. rewrite IH. split; [by intros ->|by intros [= ->]].
    + apply Ascii.eqb_neq in E. split; [done|]. intros [= -> _]. done.
Qed.

Lemma span_mime_spec s m rest :
  span_mime s = (m, rest) ->
  s = m +:+ rest /\ mime_like m = true /\
  match rest with String c _ => is_mime_char c = false | EmptyString => True end.
Proof.
  revert m. induction s as [|c s IH]; intros m; simpl.
  - by intros [= <- <-].
  - destruct (is_mime_char c) eqn:E.
    + destruct (span_mime s) as [m' rest'] eqn:Hs. intros [= <- <-].
      destruct (IH m' eq_refl) as (-> & Hm & Hr). simpl. by rewrite E, Hm.
    + by intros [= <- <-].
Qed.

Lemma span_mime_app m rest :
  mime_like m = true ->
  match rest with String c _ => is_mime_char c = false | EmptyString => True end ->
  span_mime (m +:+ rest) = (m, rest).
Proof.
  intros Hm Hr. induction m as [|c m IH]; simpl.
  - destruct rest as [|c r]; [done|]. simpl. by rewrite Hr.
  - simpl in Hm. apply andb_true_iff in Hm as [Hc Hm]. by rewrite Hc, (IH Hm).
Qed.

(** X2. The test [/^data:([A-Za-z-+/]+);base64,(.+)$/] of
    [saveBase64ImageToOut] finds a media type and a payload in exactly
    the strings "data:<type>;base64,<payload>" whose type is a non-empty
    run of letters, '-', '+' and '/', and whose payload is non-empty and
    has no line end; it then returns that type and that payload. A type
    with a digit in it, or an empty payload, is no match. *)
Theorem data_url_split_iff (s mime d : string) :
  match_data_url s = Some (mime, d) <->
  s = "data:" +:+ mime +:+ ";base64," +:+ d /\
  mime <> "" /\ mime_like mime = true /\ d <> "" /\ has_line_end d = false.
Proof.
  unfold match_data_url. split.
  - destruct (strip_prefix "data:" s) as [s1|] eqn:H1; [|done].
    apply strip_prefix_iff in H1 as ->.
    destruct (span_mime s1) as [m s2] eqn:H2.
    apply span_mime_spec in H2 as (-> & Hm & _).
    destruct m as [|c m]; [done|].
    destruct (strip_prefix ";base64," s2) as [[|c' d']|] eqn:H3; try done.
    apply strip_prefix_iff in H3 as ->.
    destruct (has_line_end (String c' d')) eqn:H4; [done|].
    intros [= <- <-]. done.
  - intros (-> & Hne & Hm & Hd & Hl).
    rewrite (proj2 (strip_prefix_iff "data:" _ _) eq_refl).
    rewrite (span_mime_app mime (";base64," +:+ d) Hm eq_refl).
    destruct mime as [|c m]; [done|].
    rewrite (proj2 (strip_prefix_iff ";base64," _ _) eq_refl).
    destruct d as [|c' d']; [done|]. by rewrite Hl.
Qed.

(** X2, at a JPEG data URL. *)
Lemma data_url_split_iff_witness :
  match_data_url "data:image/jpeg;base64,QUJD" = Some ("image/jpeg", "QUJD").
Proof.
  apply (proj2 (data_url_split_iff "data:image/jpeg;base64,QUJD" "image/jpeg" "QUJD")).
  repeat split; try reflexivity; discriminate.
Defined.

Lemma endsWith_app a b c : endsWith b c = true -> endsWith (a +:+ b) c = true.
Proof.
  intros H. induction a as [|x a IH]; simpl; [done|].
  rewrite IH. apply orb_true_r.
Qed.

Lemma ext_of_cases mime : ext_of mime = "jpg" \/ ext_of mime = "webp" \/ ext_of mime = "png".
Proof.
  unfold ext_of. destruct (_ || _); [by left|].
  destruct (String.eqb mime "image/webp"); auto.
Qed.

(** X3. Whenever [saveBase64ImageToOut] returns, its argument was a
    string, it has read the clock and drawn the random number once each
    and written one file, and the path it returns is "/out/" followed by
    the name of that file, which ends in ".jpg", ".webp" or ".png"; the
    bytes written are the decoding of the payload of a data URL, or of
    the whole string when it is not a data URL. An argument that is not
    a string throws before any call: [null] and [undefined] because
    [match] cannot be read off them, every other value because its
    [match] is no function. *)
Theorem saved_image_path_names_written_file
    (base64String : JVal) (o : Oracle) (hist : list Call) :
  (forall path t,
     run (saveBase64ImageToOut base64String) o hist = (Ok path, t) ->
     exists s name,
       base64String = JStr s /\
       t = hist ++ [DateNow; MathRandom 10000;
                    WriteFileSync name
                      (from_base64 match match_data_url s with
                                   | Some (_, d) => d
                                   | None => s
                                   end)] /\
       path = "/out/" +:+ name /\
       (endsWith name ".jpg" = true \/ endsWith name ".webp" = true \/
        endsWith name ".png" = true)) /\
  ((forall s, base64String <> JStr s) ->
   run (saveBase64ImageToOut base64String) o hist =
   (Raise match base64String with
          | JUndefined => "Cannot read properties of undefined (reading 'match')"
          | JNull => "Cannot read properties of null (reading 'match')"
          | _ => "base64String.match is not a function"
          end, hist)).
Proof.
  split.
  - intros path t. destruct base64String as [| |b|q|s|l|l]; simpl; try by intros [= ].
    set (payload := match match_data_url s with Some (_, d) => d | None => s end).
    set (ext := match match_data_url s with Some (mime, _) => ext_of mime | None => "png" end).
    assert (match match_data_url s with
            | Some (mime, d) => (d, ext_of mime)
            | None => (s, "png")
            end = (payload, ext)) as ->.
    { unfold payload, ext. by destruct (match_data_url s) as [[? ?]|]. }
    simpl.
    match goal with |- context [o ?h (WriteFileSync ?n ?d)] =>
      destruct (o h (WriteFileSync n d)) as [[]|m] eqn:Hw end; simpl; [|by intros [= ]].
    intros [= <- <-]. eexists s, _. split; [done|]. rewrite <- !app_assoc. simpl.
    split; [reflexivity|]. split; [reflexivity|].
    assert (ext = "jpg" \/ ext = "webp" \/ ext = "png") as Hext.
    { unfold ext. destruct (match_data_url s) as [[mime ?]|]; [apply ext_of_cases|auto]. }
    destruct Hext as [-> | [-> | ->]]; [left|right; left|right; right];
      do 4 apply endsWith_app; reflexivity.
  - intros Hs. destruct base64String as [| |b|q|s|l|l]; try done. by destruct (Hs s).
Qed.

(** X3, at the payload "QUJD", at the number 7 and at [null]. *)
Lemma saved_image_path_names_written_file_witness :
  (exists s name,
     JStr "QUJD" = JStr s /\
     [DateNow; MathRandom 10000;
      WriteFileSync "image-1700000000000-42.png" [Byte.x41; Byte.x42; Byte.x43]] =
     [] ++ [DateNow; MathRandom 10000;
            WriteFileSync name
              (from_base64 match match_data_url s with
                           | Some (_, d) => d
                           | None => s
                           end)] /\
     "/out/image-1700000000000-42.png" = "/out/" +:+ name /\
     (endsWith name ".jpg" = true \/ endsWith name ".webp" = true \/
      endsWith name ".png" = true)) /\
  Image.run (saveBase64ImageToOut (num 7))
    (Sample.provider (Raise "unused") (Raise "unused") (Raise "unused")) [] =
  (Raise "base64String.match is not a function", []) /\
  Image.run (saveBase64ImageToOut JNull)
    (Sample.provider (Raise "unused") (Raise "unused") (Raise "unused")) [] =
  (Raise "Cannot read properties of null (reading 'match')", []).
Proof.
  destruct (saved_image_path_names_written_file (JStr "QUJD")
              (Sample.provider (Raise "unused") (Raise "unused") (Raise "unused")) [])
    as [H _].
  split; [exact (H _ _ eq_refl)|]. split.
  - apply (proj2 (saved_image_path_names_written_file (num 7)
                    (Sample.provider (Raise "unused") (Raise "unused") (Raise "unused")) [])).
    intros s. discriminate.
  - apply (proj2 (saved_image_path_names_written_file JNull
                    (Sample.provider (Raise "unused") (Raise "unused") (Raise "unused")) [])).
    intros s. discriminate.
Defined.

(** *** The handler of [src/unnamed/part_000] beyond the retry *)

Section Handler.

Variable parseInt10 : string -> option Z.
Variable toStr : JVal -> Exc string.
Variable cfg : Config.

Abbreviation generate_image := (generate_image parseInt10 toStr cfg).
Abbreviation legacy_generate_image := (Legacy.generate_image parseInt10 toStr cfg).
Abbreviation numbers_of := (numbers_of parseInt10 toStr cfg).
Abbreviation jsonCall := (jsonCall cfg).

Lemma count_snoc f t1 t2 : count f (t1 ++ t2) = (count f t1 + count f t2)%nat.
Proof. induction t1 as [|c t1 IH]; simpl; [done|]. rewrite IH. lia. Qed.

(** X4. In [POST /api/generate-image] a rejected fetch of the JSON
    attempt (a network error) is not retried: the reply is 500 with the
    error's message after that one call. A JSON attempt answered with a
    status in 200..299 is never followed by a form post, whatever its
    body says: the run holds one JSON post and no form post. (The JSON
    attempt is made when the prompt and the three numbers of the request
    have been converted, the prompt passes and a key is set.) *)
Theorem no_retry_after_network_error_or_success
    (req : Body) (o : Oracle) (p : string) (n : Numbers) :
  trimmed (prompt req) = Ok p ->
  numbers_of req = Ok n ->
  too_short p = false ->
  API_KEY cfg <> "" ->
  (forall m, o [] (jsonCall p n) = Raise m ->
     run (generate_image req) o [] =
     (Ok {| code := 500; body := JObj [("error", JStr m)] |}, [jsonCall p n])) /\
  (forall r, o [] (jsonCall p n) = Ok r -> ok r = true ->
     count is_json (run (generate_image req) o []).2 = 1%nat /\
     count is_form (run (generate_image req) o []).2 = 0%nat).
Proof.
  intros Hp Hn Hs Hk. apply String.eqb_neq in Hk. split.
  - intros m Hm. unfold Image.generate_image. rewrite Hp. simpl. rewrite Hn. simpl.
    rewrite Hs, Hk. simpl. unfold Image.jsonCall in Hm. by rewrite Hm.
  - intros r Hr Hok. unfold Image.generate_image. rewrite Hp. simpl. rewrite Hn. simpl.
    rewrite Hs, Hk. simpl. unfold Image.jsonCall in Hr. rewrite Hr. simpl. rewrite Hok.
    match goal with |- context [run ?q o ?h] =>
      destruct (ImageProofs.quiet_run q
                  (ImageProofs.quiet_catch _ _ (ImageProofs.quiet_deliver _ _)
                     ltac:(intros; apply quiet_Ret)) o h) as (t & Ht & H1 & H2) end.
    rewrite Ht, !count_snoc, H1, H2. done.
Qed.

(** X5. When the provider's answer holds a result URL and no base64
    payload, the handler replies 200 whatever becomes of the download,
    and its first call is the fetch of that URL. When the fetch is
    rejected, is answered outside 200..299, or its body cannot be read,
    that is its only call and the [imageUrl] of the reply is the URL
    itself. When the body has been read, it reads the clock, draws a
    number below 10000 and writes the bytes to
    "image-<clock>-<draw>.png": if the write succeeds, [imageUrl] is
    "/out/" followed by that name; if the write throws, it is the URL
    itself. *)
Theorem url_result_never_fails_request
    (pdata : JVal) (noImage : string) (o : Oracle) (hist : list Call) :
  truthy (b64 pdata) = false ->
  truthy (imageUrl pdata) = true ->
  let url := imageUrl pdata in
  let fetched := hist ++ [Get url] in
  ((exists m, o hist (Get url) = Raise m) \/
   (exists d, o hist (Get url) = Ok d /\
              (dl_ok d = false \/ exists m, dl_buffer d = Raise m)) ->
   run (deliver pdata noImage) o hist = (Ok (image_reply url pdata), fetched)) /\
  (forall d buffer,
     o hist (Get url) = Ok d -> dl_ok d = true -> dl_buffer d = Ok buffer ->
     let name := "image-" +:+ show (o fetched DateNow) +:+ "-" +:+
                 show (o (fetched ++ [DateNow]) (MathRandom 10000)) +:+ ".png" in
     let drawn := fetched ++ [DateNow; MathRandom 10000] in
     (o drawn (WriteFileSync name buffer) = Ok () ->
      run (deliver pdata noImage) o hist =
      (Ok (image_reply (JStr ("/out/" +:+ name)) pdata),
       drawn ++ [WriteFileSync name buffer])) /\
     (forall m, o drawn (WriteFileSync name buffer) = Raise m ->
      run (deliver pdata noImage) o hist =
      (Ok (image_reply url pdata), drawn ++ [WriteFileSync name buffer]))).
Proof.
  intros Hb Hu url fetched. unfold deliver. rewrite Hb, Hu. fold url. simpl. fold fetched.
  split.
  - intros [[m Hm]|(d & Hd & [Hok|[m Hm]])].
    + by rewrite Hm.
    + rewrite Hd. simpl. by rewrite Hok.
    + rewrite Hd. simpl. destruct (dl_ok d); simpl; [|done]. by rewrite Hm.
  - intros d buffer Hd Hok Hbuf. rewrite Hd. simpl. rewrite Hok, Hbuf. simpl.
    rewrite <- !app_assoc. simpl.
    split; [intros Hw|intros m Hw]; rewrite <- ?app_assoc in Hw; simpl in Hw; by rewrite Hw.
Qed.

(** *** The earlier handler ([src/index.js]) against the later one *)

Lemma legacy_found pdata found :
  Legacy.b64 pdata = Ok found -> truthy found = true ->
  or_ pdata JNull = pdata /\ Image.b64 pdata = found.
Proof.
  unfold Legacy.b64, Image.b64.
  destruct pdata as [| |b|q|s|l|props]; simpl; try done; intros [= <-] Ht; done.
Qed.

(** X6. The handler of [src/index.js] never posts a form and posts the
    JSON body at most once, whatever it is answered. *)
Theorem legacy_posts_once_at_most (req : Body) (o : Oracle) :
  count is_form (run (legacy_generate_image req) o []).2 = 0%nat /\
  (count is_json (run (legacy_generate_image req) o []).2 <= 1)%nat.
Proof.
  unfold Legacy.generate_image.
  destruct (trimmed (prompt req)) as [p|m]; simpl; [|split; lia].
  destruct (Image.numbers_of parseInt10 toStr cfg req) as [n|m]; simpl; [|split; lia].
  destruct (too_short p); simpl; [split; lia|].
  destruct (String.eqb (API_KEY cfg) ""); simpl; [split; lia|].
  destruct (o [] _) as [r|m]; simpl; [|split; lia].
  destruct (ok r); simpl; [|split; lia].
  destruct (json r) as [pdata|m]; simpl; [|split; lia].
  destruct (Legacy.b64 pdata) as [found|m]; simpl; [|split; lia].
  destruct (truthy found); simpl; [|split; lia].
  match goal with |- context [run ?q o ?h] =>
    assert (quiet q) as Hq end.
  { apply ImageProofs.quiet_catch; [|intros; apply quiet_Ret].
    apply ImageProofs.quiet_bind; [apply ImageProofs.quiet_save|intros; apply quiet_Ret]. }
  match goal with |- context [run ?q o ?h] =>
    destruct (ImageProofs.quiet_run q Hq o h) as (t & Ht & H1 & H2) end.
  rewrite Ht. simpl. rewrite H1, H2. split; lia.
Qed.

(** X7. Whatever request the handler of [src/index.js] answers with 200
    or with 400, the handler of [src/unnamed/part_000] answers with the
    same reply after the same calls, in the same environment: the later
    server keeps every image the earlier one delivered. *)
Theorem legacy_success_is_kept (req : Body) (o : Oracle) (out : Out) (t : list Call) :
  run (legacy_generate_image req) o [] = (Ok out, t) ->
  code out = 200 \/ code out = 400 ->
  run (generate_image req) o [] = (Ok out, t).
Proof.
  unfold Legacy.generate_image, Image.generate_image.
  destruct (trimmed (prompt req)) as [p|m]; simpl;
    [|intros [= <- <-] [H|H]; discriminate].
  destruct (Image.numbers_of parseInt10 toStr cfg req) as [n|m]; simpl;
    [|intros [= <- <-] [H|H]; discriminate].
  destruct (too_short p); simpl; [done|].
  destruct (String.eqb (API_KEY cfg) ""); simpl;
    [intros [= <- <-] [H|H]; discriminate|].
  destruct (o [] _) as [r|m]; simpl; [|intros [= <- <-] [H|H]; discriminate].
  destruct (ok r) eqn:Hok; simpl; [|intros [= <- <-] [H|H]; discriminate].
  destruct (json r) as [pdata|m] eqn:Hj; simpl; [|intros [= <- <-] [H|H]; discriminate].
  destruct (Legacy.b64 pdata) as [found|m] eqn:Hf; simpl;
    [|intros [= <- <-] [H|H]; discriminate].
  destruct (truthy found) eqn:Ht; simpl; [|intros [= <- <-] [H|H]; discriminate].
  destruct (legacy_found pdata found Hf Ht) as [Hp Hb].
  rewrite Hp. unfold deliver. rewrite Hb, Ht. done.
Qed.

End Handler.

(** X4, at a provider whose JSON endpoint cannot be reached. *)
Lemma no_retry_after_network_error_or_success_witness :
  Image.run (Sample.generate_image Sample.fox_image)
    (Sample.provider (Raise "connect ECONNREFUSED") (Raise "unused") (Raise "unused")) [] =
  (Ok {| code := 500; body := JObj [("error", JStr "connect ECONNREFUSED")] |},
   [Image.jsonCall Sample.image_cfg "a red fox" Sample.fox_image_numbers]).
Proof.
  destruct (no_retry_after_network_error_or_success Sample.parseInt10 Sample.toStr
              Sample.image_cfg Sample.fox_image
              (Sample.provider (Raise "connect ECONNREFUSED") (Raise "unused") (Raise "unused"))
              "a red fox" Sample.fox_image_numbers eq_refl eq_refl eq_refl
              ltac:(discriminate)) as [H _].
  exact (H _ eq_refl).
Defined.

(** X5, at the output body of the extraction example: a download
    answered with 404, and one that is stored. *)
Lemma url_result_never_fails_request_witness :
  Image.run (deliver Sample.output_body "No image returned in provider JSON")
    (Sample.provider (Raise "unused") (Raise "unused")
       (Ok {| dl_status := 404; dl_buffer := Ok [] |})) [] =
  (Ok (image_reply (JStr "https://x/y.png") Sample.output_body),
   [Get (JStr "https://x/y.png")]) /\
  Image.run (deliver Sample.output_body "No image returned in provider JSON")
    (Sample.provider (Raise "unused") (Raise "unused")
       (Ok {| dl_status := 200; dl_buffer := Ok Sample.ABC |})) [] =
  (Ok (image_reply (JStr "/out/image-1700000000000-42.png") Sample.output_body),
   [Get (JStr "https://x/y.png"); DateNow; MathRandom 10000;
    WriteFileSync "image-1700000000000-42.png" Sample.ABC]).
Proof.
  split.
  - refine (proj1 (url_result_never_fails_request Sample.output_body
                     "No image returned in provider JSON"
                     (Sample.provider (Raise "unused") (Raise "unused")
                        (Ok {| dl_status := 404; dl_buffer := Ok [] |})) [] eq_refl eq_refl) _).
    right. eexists. split; [reflexivity|]. left. reflexivity.
  - exact (proj1 (proj2 (url_result_never_fails_request Sample.output_body
                           "No image returned in provider JSON"
                           (Sample.provider (Raise "unused") (Raise "unused")
                              (Ok {| dl_status := 200; dl_buffer := Ok Sample.ABC |})) []
                           eq_refl eq_refl) _ Sample.ABC eq_refl eq_refl eq_refl) eq_refl).
Defined.

(** X7, at the artifacts body of the extraction example. *)
Lemma legacy_success_is_kept_witness :
  Image.run (Sample.generate_image Sample.fox_image)
    (Sample.provider (Sample.answer Sample.artifacts_body) (Raise "unused") (Raise "unused")) [] =
  (Ok (image_reply (JStr "/out/image-1700000000000-42.png") Sample.artifacts_body),
   [Image.jsonCall Sample.image_cfg "a red fox" Sample.fox_image_numbers;
    DateNow; MathRandom 10000;
    WriteFileSync "image-1700000000000-42.png" Sample.ABC]).
Proof.
  apply (legacy_success_is_kept Sample.parseInt10 Sample.toStr Sample.image_cfg
           Sample.fox_image
           (Sample.provider (Sample.answer Sample.artifacts_body) (Raise "unused")
              (Raise "unused"))).
  - vm_compute. reflexivity.
  - left. reflexivity.
Defined.

End ImageMore.

(* ===================================================================== *)
(** ** The video server: sweeps and poll rounds                           *)
(* ===================================================================== *)

Module SweepProofs.

Import Http Video Registry Shape.

Lemma map_set_same (k : string) (r : nat) (before after : list (string * nat)) :
  k ∉ before.*1 ->
  map_set k r (before ++ (k, r) :: after) = before ++ (k, r) :: after.
Proof.
  induction before as [|[k' r'] before IH]; simpl; intros Hk.
  - by rewrite String.eqb_refl.
  - apply not_elem_of_cons in Hk as [Hne Hk].
    apply String.eqb_neq in Hne. rewrite Hne. by rewrite (IH Hk).
Qed.

Lemma resume_last (t : Task) (w : World) :
  pending (suspend t w) !! length (pending w) = Some t /\
  unsuspend (length (pending w)) (suspend t w) = w.
Proof.
  split; [by apply list_lookup_middle|].
  destruct w as [h j p e]. unfold unsuspend, suspend. simpl. f_equal.
  induction p as [|x p IH]; simpl; [done|]. by rewrite IH.
Qed.

Lemma jobs_set_same (k : string) (r : nat) (w : World) :
  map_set k r (jobs w) = jobs w -> jobs_set k r w = w.
Proof. intros H. destruct w as [h j p e]. unfold jobs_set. simpl in *. by rewrite H. Qed.

(** What [saveVideoFromBase64OrUrl] makes of a settled download. *)
Lemma stored_or_not (env : Env) (url : JVal) (file : Exc Download) (w : World) :
  save_downloaded env url file w =
  match fetched file with
  | None => (w, Ok url)
  | Some buffer =>
      (emit (Wrote ("video-" +:+ show (now env) +:+ "-" +:+ show (rnd env) +:+ ".mp4") buffer) w,
       Ok match disk env with
          | Ok _ => JStr ("/out/" +:+ "video-" +:+ show (now env) +:+ "-" +:+ show (rnd env) +:+
                          ".mp4")
          | Raise _ => url
          end)
  end.
Proof.
  unfold save_downloaded, download_body, save_buffer, fetched.
  destruct file as [d|m]; [|done]. destruct (dl_ok d); [|done].
  destruct (dl_buffer d); [|done]. simpl. by destruct (disk env).
Qed.

Section Server.

Variable parseInt10 : string -> option Z.
Variable bufferFrom : JVal -> Exc (list Byte.byte).
Variable toStr : JVal -> Exc string.
Variable cfg : Config.

Abbreviation visit := (visit parseInt10 toStr cfg).
Abbreviation sweep := (sweep parseInt10 toStr cfg).
Abbreviation sweep_from := (sweep_from parseInt10 toStr cfg).
Abbreviation pollWorker := (pollWorker parseInt10 toStr cfg).
Abbreviation overdue := (overdue parseInt10 cfg).
Abbreviation left_alone := (left_alone parseInt10 cfg).
Abbreviation past_due := (past_due parseInt10 cfg).
Abbreviation pollable := (pollable parseInt10 toStr cfg).
Abbreviation step := (step parseInt10 bufferFrom toStr cfg).
Abbreviation run := (run parseInt10 bufferFrom toStr cfg).
Abbreviation on_status := (on_status parseInt10 bufferFrom toStr cfg).
Abbreviation buildStatusUrl := (buildStatusUrl toStr cfg).

Lemma visit_left_alone env pos k r w :
  left_alone env w (k, r) -> visit env pos k r w = Continue w.
Proof.
  intros H. unfold Video.visit. destruct (heap w !! r) as [job|] eqn:Hr; [|done].
  specialize (H job Hr). destruct (status job); simpl; try done.
  destruct (H eq_refl) as [-> ->]. done.
Qed.

Lemma sweep_left_alone env entries pos w :
  Forall (left_alone env w) entries -> sweep env entries pos w = w.
Proof.
  revert pos. induction entries as [|[k r] entries IH]; intros pos H; simpl; [done|].
  inversion H as [|? ? Hk Hrest]; subst. rewrite (visit_left_alone _ _ _ _ _ Hk). auto.
Qed.

Lemma sweep_skips env before rest pos w :
  Forall (left_alone env w) before ->
  sweep env (before ++ rest) pos w = sweep env rest (pos + length before) w.
Proof.
  revert pos. induction before as [|[k r] before IH]; intros pos H; simpl.
  - by rewrite Nat.add_0_r.
  - inversion H as [|? ? Hk Hrest]; subst. rewrite (visit_left_alone _ _ _ _ _ Hk).
    rewrite (IH (S pos) Hrest). f_equal. lia.
Qed.

(** X8. A sweep over a registry in which every job is terminal, or is
    [processing] within its deadline and still without a provider
    handle, does nothing at all: no job is written, no request is sent,
    nothing is suspended. Finished jobs are never polled again. *)
Theorem idle_sweep_changes_nothing (env : Env) (w : World) :
  Forall (left_alone env w) (jobs w) ->
  step w (Tick env) = Some w.
Proof.
  intros H. simpl. unfold Video.pollWorker, Video.sweep_from. rewrite drop_0.
  by rewrite sweep_left_alone.
Qed.

Lemma swept_other refs r0 r job : r <> r0 -> swept (r0 :: refs) r job = swept refs r job.
Proof.
  intros Hne. unfold swept. destruct (status_eqb (status job) processing); [|done]. simpl.
  destruct (bool_decide (r ∈ refs)) eqn:E.
  - apply bool_decide_eq_true in E. rewrite bool_decide_eq_true_2; [done|].
    apply elem_of_cons. by right.
  - apply bool_decide_eq_false in E. rewrite bool_decide_eq_false_2; [done|].
    intros [?|?]%elem_of_cons; done.
Qed.

Lemma swept_idle refs r job : status job <> processing -> swept refs r job = job.
Proof. intros H. unfold swept. by destruct (status job). Qed.

Lemma sweep_past_due env entries pos w :
  Forall (past_due env w) entries ->
  wire (sweep env entries pos w) = wire w /\
  pending (sweep env entries pos w) = pending w /\
  forall r job, heap w !! r = Some job ->
    heap (sweep env entries pos w) !! r = Some (swept entries.*2 r job).
Proof.
  revert pos w. induction entries as [|[k r0] entries IH]; intros pos w H; simpl.
  - split; [done|]. split; [done|]. intros r job Hr. rewrite Hr. f_equal.
    unfold swept. rewrite bool_decide_eq_false_2 by apply not_elem_of_nil.
    by rewrite andb_false_r.
  - inversion H as [|? ? Hk Hrest]; subst. unfold Video.visit.
    destruct (heap w !! r0) as [j0|] eqn:Hr0.
    + destruct (status_eqb (status j0) processing) eqn:Hs; simpl.
      * assert (status j0 = processing) as Hp by (by destruct (status j0)).
        rewrite (Hk j0 Hr0 Hp).
        set (w1 := jobs_set k r0 (mutate r0 time_out w)).
        assert (Forall (past_due env w1) entries) as H1.
        { eapply Forall_impl; [exact Hrest|]. intros [k' r'] He job'. simpl.
          rewrite list_lookup_alter. case_decide as E.
          - subst r'. rewrite Hr0. simpl. by intros [= <-].
          - apply He. }
        destruct (IH (S pos) w1 H1) as (Hw & Hp' & Hh).
        split; [done|]. split; [done|]. intros r job Hr.
        destruct (decide (r = r0)) as [->|Hne].
        -- rewrite Hr0 in Hr. injection Hr as <-.
           rewrite (Hh r0 (time_out j0)).
           ++ rewrite swept_idle by done. unfold swept. rewrite Hs. simpl.
              by rewrite bool_decide_eq_true_2 by (apply elem_of_cons; by left).
           ++ simpl. by rewrite list_lookup_alter_eq, Hr0.
        -- rewrite swept_other by done. apply Hh. simpl.
           by rewrite list_lookup_alter_ne.
      * destruct (IH (S pos) w Hrest) as (Hw & Hp' & Hh).
        split; [done|]. split; [done|]. intros r job Hr.
        destruct (decide (r = r0)) as [->|Hne].
        -- rewrite Hr0 in Hr. injection Hr as <-.
           rewrite (Hh r0 j0 Hr0).
           assert (status j0 <> processing) as Hn by (by destruct (status j0)).
           by rewrite !swept_idle.
        -- rewrite swept_other by done. by apply Hh.
    + destruct (IH (S pos) w Hrest) as (Hw & Hp' & Hh).
      split; [done|]. split; [done|]. intros r job Hr.
      rewrite swept_other by congruence. by apply Hh.
Qed.

(** X9. A sweep over a registry in which every job still [processing]
    is past its deadline sends no request and suspends nowhere; it sets
    exactly the registered [processing] jobs to [failed] with the error
    "Polling timeout", with or without a provider handle, and leaves
    every other job object as it was. After it no registered job is
    [processing]. *)
Theorem overdue_sweep_fails_all (env : Env) (w : World) :
  Forall (past_due env w) (jobs w) ->
  exists w',
    step w (Tick env) = Some w' /\
    wire w' = wire w /\
    pending w' = pending w /\
    (forall r job, heap w !! r = Some job ->
       heap w' !! r = Some (swept (jobs w).*2 r job)) /\
    (forall entry job job', entry ∈ jobs w -> heap w !! entry.2 = Some job ->
       heap w' !! entry.2 = Some job' ->
       status job' <> processing /\
       (status job = processing -> job' = time_out job)).
Proof.
  intros H. eexists. split; [reflexivity|].
  unfold Video.pollWorker, Video.sweep_from. rewrite drop_0.
  destruct (sweep_past_due env (jobs w) 0 w H) as (Hw & Hp & Hh).
  split; [done|]. split; [done|]. split; [done|].
  intros [k r] job job' Hin Hr Hr'. simpl in *.
  rewrite (Hh r job Hr) in Hr'. injection Hr' as <-.
  assert (r ∈ (jobs w).*2) as Hmem.
  { apply list_elem_of_fmap. by exists (k, r). }
  unfold swept. rewrite (bool_decide_eq_true_2 _ Hmem).
  destruct (status job) eqn:Hs; simpl; rewrite ?Hs; done.
Qed.

(** *** One round of polling *)

Lemma run_then (w : World) (e1 e2 e3 : Event) :
  run w [e1; e2; e3] =
  match run w [e1; e2] with
  | Some w2 => step w2 e3
  | None => None
  end.
Proof.
  unfold Video.run. destruct (step w e1) as [w1|]; [|done].
  destruct (step w1 e2) as [w2|]; [|done]. by destruct (step w2 e3).
Qed.

Lemma drop_past (before after : list (string * nat)) (e : string * nat) :
  drop (S (length before)) (before ++ e :: after) = after.
Proof. induction before as [|x before IH]; simpl; [done|]. exact IH. Qed.

Lemma left_alone_frame env w w' r job e :
  heap w !! r = Some job -> status job = processing ->
  truthy (providerJobId job) = true ->
  (forall r', r' <> r -> heap w' !! r' = heap w !! r') ->
  left_alone env w e -> left_alone env w' e.
Proof.
  intros Hr Hs Hh Hframe He job' Hj'.
  destruct (decide (e.2 = r)) as [E|E].
  - destruct (He job) as [_ Hno]; [by rewrite E|done|congruence].
  - rewrite (Hframe _ E) in Hj'. by apply He.
Qed.

Lemma next_is_idle env w (before after : list (string * nat)) (e : string * nat) :
  jobs w = before ++ e :: after ->
  Forall (left_alone env w) after ->
  sweep_from env (S (length before)) w = w.
Proof.
  intros Hj Ha. unfold Video.sweep_from. rewrite Hj, drop_past. by apply sweep_left_alone.
Qed.

Section Round.

Variables (env env' : Env) (w : World) (before after : list (string * nat)).
Variables (k : string) (r : nat) (job : Job).

Hypothesis Hjobs : jobs w = before ++ (k, r) :: after.
Hypothesis Hbefore : Forall (left_alone env w) before.
Hypothesis Hkey : k ∉ before.*1.
Hypothesis Hjob : heap w !! r = Some job.
Hypothesis Hpoll : pollable env job.

Abbreviation asked := (asked toStr cfg job w).

Lemma asked_url url :
  buildStatusUrl (providerJobId job) = Ok url ->
  asked = emit (AskedStatus url (API_KEY cfg)) w.
Proof. intros H. unfold Registry.asked. by rewrite H. Qed.

Lemma tick_suspends :
  step w (Tick env) = Some (suspend (AwaitStatus (length before) k r) asked).
Proof.
  destruct Hpoll as (Hs & Ho & Hh & url & Hurl).
  simpl. unfold Video.pollWorker, Video.sweep_from. rewrite drop_0, Hjobs.
  rewrite (sweep_skips env before _ 0 w Hbefore). simpl.
  unfold Video.visit, Registry.asked. rewrite Hjob, Hs. simpl. by rewrite Ho, Hh, Hurl.
Qed.

Lemma round_resumes reply :
  run w [Tick env; Replied (length (pending w)) env' reply] =
  Some (on_status env' (length before) k r reply asked).
Proof.
  change (run w [Tick env; Replied (length (pending w)) env' reply])
    with (match step w (Tick env) with
          | Some w1 =>
              match step w1 (Replied (length (pending w)) env' reply) with
              | Some w2 => Some w2
              | None => None
              end
          | None => None
          end).
  rewrite tick_suspends.
  destruct (resume_last (AwaitStatus (length before) k r) asked) as [Hl Hu].
  assert (pending asked = pending w) as Hp.
  { unfold Registry.asked. by destruct (buildStatusUrl (providerJobId job)). }
  rewrite Hp in Hl, Hu. unfold Video.step. rewrite Hl, Hu. done.
Qed.

Lemma after_write f env2 :
  Forall (left_alone env2 w) after ->
  forall w1, heap w1 = alter f r (heap w) -> jobs w1 = jobs w ->
  sweep_from env2 (S (length before)) (jobs_set k r w1) = w1.
Proof.
  intros Ha w1 Hh Hj.
  assert (jobs_set k r w1 = w1) as ->.
  { apply jobs_set_same. rewrite Hj, Hjobs. by apply map_set_same. }
  eapply next_is_idle; [by rewrite Hj|].
  destruct Hpoll as (Hs & _ & Hhandle & _).
  eapply Forall_impl; [exact Ha|]. intros e He.
  eapply (left_alone_frame env2 w w1 r job e Hjob Hs Hhandle); [|done].
  intros r' Hne. by rewrite Hh, list_lookup_alter_ne.
Qed.

End Round.

(** X10. One round of polling for a job the sweep reaches: the timer
    fires, the sweep asks the provider about the job, and the answer
    arrives while the entries behind it need no visit. If the answer is
    a rejected fetch, a status outside 200..299, a body that is not JSON
    or null, the only trace is the request: the job and the registry are
    as before, so the next sweep asks again. If its status says "failed"
    or "error", the job is set to [failed] with the whole answer as its
    error. If its status says anything else, the answer is kept as
    [lastProviderPayload] and nothing else changes. *)
Theorem poll_round_without_result
    (env env' : Env) (w : World) (before after : list (string * nat))
    (k : string) (r : nat) (job : Job) (reply : Exc Response) :
  jobs w = before ++ (k, r) :: after ->
  Forall (left_alone env w) before ->
  k ∉ before.*1 ->
  heap w !! r = Some job ->
  pollable env job ->
  Forall (left_alone env' w) after ->
  let seen := asked toStr cfg job w in
  let round := run w [Tick env; Replied (length (pending w)) env' reply] in
  (uninformative reply -> round = Some seen) /\
  (forall resp sData st,
     reply = Ok resp -> ok resp = true -> json resp = Ok sData ->
     provider_status sData = Ok st -> says_done st = false ->
     (says_failed st = true ->
      round = Some (mutate r (fun job => set_error sData (set_status failed job)) seen)) /\
     (says_failed st = false ->
      round = Some (mutate r (set_lastProviderPayload sData) seen))).
Proof.
  intros Hjobs Hbefore Hkey Hjob Hpoll Hafter seen round. subst round seen.
  rewrite (round_resumes env env' w before after k r job Hjobs Hbefore Hjob Hpoll).
  pose proof Hpoll as (_ & _ & _ & url & Hurl).
  rewrite (asked_url w job url Hurl).
  set (seen := emit (AskedStatus url (API_KEY cfg)) w).
  assert (sweep_from env' (S (length before)) seen = seen) as Hidle.
  { by eapply (next_is_idle env' seen before after (k, r)). }
  split.
  - intros Hu. unfold Video.on_status. f_equal.
    destruct reply as [resp|m]; [|done].
    destruct Hu as [Hu|[[m Hu]|Hu]].
    + by rewrite Hu.
    + destruct (ok resp); simpl; [|done]. by rewrite Hu.
    + destruct (ok resp); simpl; [|done]. by rewrite Hu.
  - intros resp sData st -> Hok Hj Hst Hd. unfold Video.on_status.
    rewrite Hok, Hj, Hst, Hd. simpl. split; intros ->; f_equal.
    + eapply (after_write env w before after k r job Hjobs Hkey Hjob Hpoll); [done| |done].
      reflexivity.
    + eapply (after_write env w before after k r job Hjobs Hkey Hjob Hpoll); [done| |done].
      reflexivity.
Qed.

(** X11. A round of polling in which the provider reports the job done
    and the answer holds a URL but no base64 payload always ends with the
    job [succeeded] and a result, and the answer kept as
    [providerResponse]. The worker fetches the URL. When the fetch is
    rejected, is answered outside 200..299 or its body cannot be read,
    nothing is written and [resultUrl] is the provider's URL itself.
    When the body has been read, its bytes are written to
    "video-<clock>-<draw>.mp4": if the write succeeds, [resultUrl] is
    "/out/" followed by that name; if it throws, [resultUrl] is the
    provider's URL. *)
Theorem poll_round_with_url_succeeds
    (env env' env'' : Env) (w : World) (before after : list (string * nat))
    (k : string) (r : nat) (job : Job) (resp : Response) (sData st : JVal)
    (file : Exc Download) (url : string) :
  jobs w = before ++ (k, r) :: after ->
  Forall (left_alone env w) before ->
  k ∉ before.*1 ->
  heap w !! r = Some job ->
  pollable env job ->
  buildStatusUrl (providerJobId job) = Ok url ->
  Forall (left_alone env'' w) after ->
  ok resp = true -> json resp = Ok sData ->
  provider_status sData = Ok st -> says_done st = true ->
  truthy (b64_of sData) = false ->
  truthy (vidUrl_of sData) = true ->
  let round := run w [Tick env;
                      Replied (length (pending w)) env' (Ok resp);
                      Downloaded (length (pending w)) env'' file] in
  let name := "video-" +:+ show (now env'') +:+ "-" +:+ show (rnd env'') +:+ ".mp4" in
  let settled (effects : list Effect) (saved : JVal) :=
    exists w',
      round = Some w' /\
      wire w' = wire w ++ AskedStatus url (API_KEY cfg) :: Downloading (vidUrl_of sData)
                          :: effects /\
      heap w' = alter (poll_succeed saved sData (vidUrl_of sData)) r (heap w) /\
      jobs w' = jobs w /\
      pending w' = pending w /\
      status (poll_succeed saved sData (vidUrl_of sData) job) = succeeded /\
      resultUrl (poll_succeed saved sData (vidUrl_of sData) job) = saved /\
      truthy saved = true in
  (fetched file = None -> settled [] (vidUrl_of sData)) /\
  (forall buffer, fetched file = Some buffer -> disk env'' = Ok () ->
     settled [Wrote name buffer] (JStr ("/out/" +:+ name))) /\
  (forall buffer m, fetched file = Some buffer -> disk env'' = Raise m ->
     settled [Wrote name buffer] (vidUrl_of sData)).
Proof.
  intros Hjobs Hbefore Hkey Hjob Hpoll Hurl Hafter Hok Hj Hst Hd Hb Hu round name settled.
  subst round settled.
  pose proof (round_resumes env env' w before after k r job Hjobs Hbefore Hjob Hpoll (Ok resp))
    as Hround.
  rewrite run_then, Hround, (asked_url w job url Hurl).
  unfold Video.step, Video.on_status, Video.saveVideoFromBase64OrUrl.
  rewrite Hok, Hj, Hst, Hd, Hb, Hu. simpl.
  set (seen := emit (Downloading (vidUrl_of sData)) (emit (AskedStatus url (API_KEY cfg)) w)).
  destruct (resume_last (AwaitPollDownload (length before) k r sData (vidUrl_of sData)) seen)
    as [Hl Hun].
  change (length (pending seen)) with (length (pending w)) in Hl, Hun.
  simpl in Hl. rewrite Hl, Hun. unfold on_poll_download. rewrite stored_or_not. fold name.
  assert (forall saved stored,
    heap stored = heap w -> jobs stored = jobs w -> pending stored = pending w ->
    truthy saved = true ->
    exists w',
      Some (on_poll_saved parseInt10 toStr cfg env'' (length before) k r sData
              (vidUrl_of sData) (Ok saved) stored) = Some w' /\
      wire w' = wire stored /\
      heap w' = alter (poll_succeed saved sData (vidUrl_of sData)) r (heap w) /\
      jobs w' = jobs w /\ pending w' = pending w /\
      status (poll_succeed saved sData (vidUrl_of sData) job) = succeeded /\
      resultUrl (poll_succeed saved sData (vidUrl_of sData) job) = saved /\
      truthy saved = true) as Hend.
  { intros saved stored Hh Hjs Hp Hsaved.
    exists (mutate r (poll_succeed saved sData (vidUrl_of sData)) stored). split.
    { f_equal. unfold on_poll_saved.
      eapply (after_write env w before after k r job Hjobs Hkey Hjob Hpoll); [done| |done].
      simpl. by rewrite Hh. }
    split; [done|]. split; [simpl; by rewrite Hh|].
    split; [exact Hjs|]. split; [exact Hp|].
    split; [done|]. split; [|done]. simpl. unfold or_. rewrite Hsaved. simpl. by rewrite Hsaved. }
  split; [|split].
  - intros ->. destruct (Hend (vidUrl_of sData) seen) as (w' & H1 & H2 & H3); try done.
    destruct H3 as (H3 & H4 & H5 & H6 & H7 & H8). simpl in H7.
    exists w'. split; [done|]. split; [|done]. rewrite H2. simpl.
    by rewrite <- !app_assoc.
  - intros buffer -> ->.
    destruct (Hend (JStr ("/out/" +:+ name)) (emit (Wrote name buffer) seen))
      as (w' & H1 & H2 & H3); try done.
    destruct H3 as (H3 & H4 & H5 & H6 & H7 & H8). simpl in H7.
    exists w'. split; [done|]. split; [|done]. rewrite H2. simpl.
    by rewrite <- !app_assoc.
  - intros buffer m -> ->.
    destruct (Hend (vidUrl_of sData) (emit (Wrote name buffer) seen))
      as (w' & H1 & H2 & H3); try done.
    destruct H3 as (H3 & H4 & H5 & H6 & H7 & H8). simpl in H7.
    exists w'. split; [done|]. split; [|done]. rewrite H2. simpl.
    by rewrite <- !app_assoc.
Qed.

Lemma left_alone_heap env w w' e :
  heap w' = heap w -> left_alone env w e -> left_alone env w' e.
Proof. intros Hh He job. rewrite Hh. apply He. Qed.

(** X12. When the provider reports the job done and the answer holds a
    base64 payload, the worker stores that payload and never fetches a
    URL, even if the answer holds one too: the only effects of the round
    are the status request and the write, and the job ends [succeeded]
    with the local path. When the payload cannot be decoded or the file
    cannot be written, the job is not failed: nothing is assigned, it
    stays [processing], and a later sweep asks the provider again. *)
Theorem inline_payload_wins_over_url
    (env env' env'' : Env) (w : World) (before after : list (string * nat))
    (k : string) (r : nat) (job : Job) (resp : Response) (sData st : JVal) :
  jobs w = before ++ (k, r) :: after ->
  Forall (left_alone env w) before ->
  k ∉ before.*1 ->
  heap w !! r = Some job ->
  pollable env job ->
  Forall (left_alone env'' w) after ->
  ok resp = true -> json resp = Ok sData ->
  provider_status sData = Ok st -> says_done st = true ->
  truthy (b64_of sData) = true ->
  let round := run w [Tick env;
                      Replied (length (pending w)) env' (Ok resp);
                      Resumed (length (pending w)) env''] in
  let name := "video-" +:+ show (now env') +:+ "-" +:+ show (rnd env') +:+ ".mp4" in
  (forall url buffer,
     buildStatusUrl (providerJobId job) = Ok url ->
     bufferFrom (b64_of sData) = Ok buffer -> disk env' = Ok () ->
     exists w',
       round = Some w' /\
       wire w' = wire w ++ [AskedStatus url (API_KEY cfg); Wrote name buffer] /\
       heap w' = alter (poll_succeed (JStr ("/out/" +:+ name)) sData (vidUrl_of sData)) r
                   (heap w) /\
       pending w' = pending w) /\
  ((exists m, bufferFrom (b64_of sData) = Raise m) \/
   (exists buffer m, bufferFrom (b64_of sData) = Ok buffer /\ disk env' = Raise m) ->
   exists w',
     round = Some w' /\ heap w' = heap w /\ jobs w' = jobs w /\ pending w' = pending w).
Proof.
  intros Hjobs Hbefore Hkey Hjob Hpoll Hafter Hok Hj Hst Hd Hb round name. subst round.
  pose proof (round_resumes env env' w before after k r job Hjobs Hbefore Hjob Hpoll (Ok resp))
    as Hround.
  rewrite run_then, Hround.
  pose proof Hpoll as (_ & _ & _ & url0 & Hurl0).
  rewrite (asked_url w job url0 Hurl0).
  unfold Video.step, Video.on_status, Video.saveVideoFromBase64OrUrl, save_buffer.
  rewrite Hok, Hj, Hst, Hd, Hb. simpl. fold name.
  split.
  - intros url buffer Hurl Hbuf Hdisk. rewrite Hbuf, Hdisk. simpl.
    assert (url0 = url) as -> by congruence.
    set (seen := emit (Wrote name buffer) (emit (AskedStatus url (API_KEY cfg)) w)).
    destruct (resume_last (AwaitPollSaved (length before) k r sData (vidUrl_of sData)
                             (Ok (JStr ("/out/" +:+ name)))) seen) as [Hl Hun].
    change (length (pending seen)) with (length (pending w)) in Hl, Hun.
    simpl in Hl. rewrite Hl, Hun. unfold on_poll_saved.
    exists (mutate r (poll_succeed (JStr ("/out/" +:+ name)) sData (vidUrl_of sData)) seen).
    split.
    { f_equal.
      eapply (after_write env w before after k r job Hjobs Hkey Hjob Hpoll); [done| |done].
      reflexivity. }
    simpl. rewrite <- app_assoc. done.
  - intros Hfail.
    assert (exists seen saved_err,
      match bufferFrom (b64_of sData) with
      | Ok buffer =>
          Settled (emit (Wrote name buffer) (emit (AskedStatus url0 (API_KEY cfg)) w))
            (bindE (disk env') (fun _ => Ok (JStr ("/out/" +:+ name))))
      | Raise m => Settled (emit (AskedStatus url0 (API_KEY cfg)) w) (Raise m)
      end = Settled seen (Raise saved_err) /\
      heap seen = heap w /\ jobs seen = jobs w /\ pending seen = pending w)
      as (seen & m' & -> & Hh & Hjs & Hp).
    { destruct Hfail as [[m ->]|(buffer & m & -> & ->)]; eexists _, _; done. }
    destruct (resume_last (AwaitPollSaved (length before) k r sData (vidUrl_of sData)
                             (Raise m')) seen) as [Hl Hun].
    rewrite Hp in Hl, Hun. simpl in Hl. simpl. rewrite Hl, Hun.
    unfold on_poll_saved. exists seen. split; [|done].
    f_equal. eapply (next_is_idle env'' seen before after (k, r)); [by rewrite Hjs|].
    eapply Forall_impl; [exact Hafter|]. intros e. by apply left_alone_heap.
Qed.

End Server.

(** The job of [Sample.handled] is one a sweep asks the provider about. *)
Ltac polled_here :=
  split; [reflexivity|]; split; [reflexivity|]; split; [reflexivity|];
  eexists; reflexivity.

(** X8, at a job whose submission is still unanswered and a sweep three
    seconds after it. *)
Lemma idle_sweep_changes_nothing_witness :
  Sample.step Sample.submitted (Tick (Sample.at_ 3000)) = Some Sample.submitted.
Proof.
  apply idle_sweep_changes_nothing. constructor; [|constructor].
  intros job [= <-] _. split; reflexivity.
Defined.

(** X9, at the same job and a sweep 303 seconds after its start. *)
Lemma overdue_sweep_fails_all_witness :
  exists w',
    Sample.step Sample.submitted (Tick (Sample.at_ 303000)) = Some w' /\
    heap w' !! 0%nat = Some (time_out Cases.fox_job).
Proof.
  destruct (overdue_sweep_fails_all Sample.parseInt10 Sample.bufferFrom Sample.toStr
              Sample.video_cfg (Sample.at_ 303000) Sample.submitted) as (w' & Hs & _ & _ & Hh & _).
  - constructor; [|constructor]. intros job [= <-] _. reflexivity.
  - exists w'. split; [exact Hs|]. exact (Hh 0%nat Cases.fox_job eq_refl).
Defined.

(** X10, at the job with the handle "abc123", a sweep at 3 seconds and a
    status answer of 503 half a second later. *)
Lemma poll_round_without_result_witness :
  Sample.run Sample.handled
    [Tick (Sample.at_ 3000);
     Replied 0 (Sample.at_ 3500) (Sample.refusal 503 "Service Unavailable")] =
  Some (asked Sample.toStr Sample.video_cfg Cases.fox_job_handled Sample.handled).
Proof.
  refine (proj1 (poll_round_without_result Sample.parseInt10 Sample.bufferFrom Sample.toStr
                   Sample.video_cfg (Sample.at_ 3000) (Sample.at_ 3500) Sample.handled [] []
                   "job-1" 0 Cases.fox_job_handled (Sample.refusal 503 "Service Unavailable")
                   eq_refl _ _ eq_refl _ _) _).
  - constructor.
  - apply not_elem_of_nil.
  - polled_here.
  - constructor.
  - left. reflexivity.
Defined.

(** X11, at the same job and the status answer with an output URL: once
    with a download that is refused, once with one whose two bytes are
    stored. *)
Lemma poll_round_with_url_succeeds_witness :
  (exists w',
     Sample.run Sample.handled
       [Tick (Sample.at_ 3000);
        Replied 0 (Sample.at_ 3500) (Sample.answer Cases.done_with_url);
        Downloaded 0 (Sample.at_ 4000) (Raise "connect ECONNREFUSED")] = Some w' /\
     wire w' = wire Sample.handled ++
               [AskedStatus "https://api.stability.ai/v2beta/video/status/abc123" "sk-test";
                Downloading (JStr "https://x/v.mp4")] /\
     heap w' = alter (poll_succeed (JStr "https://x/v.mp4") Cases.done_with_url
                        (JStr "https://x/v.mp4")) 0%nat (heap Sample.handled)) /\
  (exists w',
     Sample.run Sample.handled
       [Tick (Sample.at_ 3000);
        Replied 0 (Sample.at_ 3500) (Sample.answer Cases.done_with_url);
        Downloaded 0 (Sample.at_ 4000) Sample.video_file] = Some w' /\
     wire w' = wire Sample.handled ++
               [AskedStatus "https://api.stability.ai/v2beta/video/status/abc123" "sk-test";
                Downloading (JStr "https://x/v.mp4");
                Wrote "video-4000-7.mp4" [Byte.x00; Byte.x01]] /\
     heap w' = alter (poll_succeed (JStr "/out/video-4000-7.mp4") Cases.done_with_url
                        (JStr "https://x/v.mp4")) 0%nat (heap Sample.handled)).
Proof.
  split.
  - destruct (poll_round_with_url_succeeds Sample.parseInt10 Sample.bufferFrom Sample.toStr
                Sample.video_cfg (Sample.at_ 3000) (Sample.at_ 3500) (Sample.at_ 4000)
                Sample.handled [] [] "job-1" 0 Cases.fox_job_handled
                (Cases.answered Cases.done_with_url)
                Cases.done_with_url (JStr "completed") (Raise "connect ECONNREFUSED")
                "https://api.stability.ai/v2beta/video/status/abc123"
                eq_refl ltac:(constructor) ltac:(apply not_elem_of_nil) eq_refl
                ltac:(polled_here) eq_refl ltac:(constructor)
                eq_refl eq_refl eq_refl eq_refl eq_refl eq_refl) as [H _].
    destruct (H eq_refl) as (w' & Hrun & Hw & Hh & _).
    exists w'. split; [exact Hrun|]. split; [exact Hw | exact Hh].
  - destruct (poll_round_with_url_succeeds Sample.parseInt10 Sample.bufferFrom Sample.toStr
                Sample.video_cfg (Sample.at_ 3000) (Sample.at_ 3500) (Sample.at_ 4000)
                Sample.handled [] [] "job-1" 0 Cases.fox_job_handled
                (Cases.answered Cases.done_with_url)
                Cases.done_with_url (JStr "completed") Sample.video_file
                "https://api.stability.ai/v2beta/video/status/abc123"
                eq_refl ltac:(constructor) ltac:(apply not_elem_of_nil) eq_refl
                ltac:(polled_here) eq_refl ltac:(constructor)
                eq_refl eq_refl eq_refl eq_refl eq_refl eq_refl) as (_ & H & _).
    destruct (H [Byte.x00; Byte.x01] eq_refl eq_refl) as (w' & Hrun & Hw & Hh & _).
    exists w'. split; [exact Hrun|]. split; [exact Hw | exact Hh].
Defined.

(** X12, at the same job and a status answer with both a base64 payload
    and a URL. *)
Lemma inline_payload_wins_over_url_witness :
  exists w',
    Sample.run Sample.handled
      [Tick (Sample.at_ 3000);
       Replied 0 (Sample.at_ 3500) (Sample.answer Cases.done_with_payload);
       Resumed 0 (Sample.at_ 3500)] = Some w' /\
    wire w' = wire Sample.handled ++
              [AskedStatus "https://api.stability.ai/v2beta/video/status/abc123" "sk-test";
               Wrote "video-3500-7.mp4" Sample.ABC].
Proof.
  destruct (inline_payload_wins_over_url Sample.parseInt10 Sample.bufferFrom Sample.toStr
              Sample.video_cfg (Sample.at_ 3000) (Sample.at_ 3500) (Sample.at_ 3500)
              Sample.handled [] [] "job-1" 0 Cases.fox_job_handled
              (Cases.answered Cases.done_with_payload)
              Cases.done_with_payload (JStr "succeeded")
              eq_refl ltac:(constructor) ltac:(apply not_elem_of_nil) eq_refl
              ltac:(polled_here) ltac:(constructor)
              eq_refl eq_refl eq_refl eq_refl eq_refl) as [H _].
  destruct (H "https://api.stability.ai/v2beta/video/status/abc123" Sample.ABC
              eq_refl eq_refl eq_refl) as (w' & Hrun & Hw & _).
  exists w'. split; [exact Hrun | exact Hw].
Defined.

End SweepProofs.

(* ===================================================================== *)
(** ** The video server: what every run keeps of the registry             *)
(* ===================================================================== *)

Module RegistryProofs.

Import Http Video Registry.

Lemma points_alter (f : Job -> Job) (r : nat) (h : list Job) (e : string * nat) :
  (forall job, id (f job) = id job) -> points h e -> points (alter f r h) e.
Proof.
  intros Hf (job & Hj & Hid). unfold points. rewrite list_lookup_alter. case_decide as E.
  - subst. rewrite Hj. simpl. exists (f job). by rewrite Hf.
  - by exists job.
Qed.

Lemma points_app (h l : list Job) (e : string * nat) : points h e -> points (h ++ l) e.
Proof.
  intros (job & Hj & Hid). exists job. split; [|done].
  rewrite lookup_app_l; [done|]. by eapply lookup_lt_Some.
Qed.

Lemma elem_of_map_set_keys (x k : string) (r : nat) (m : list (string * nat)) :
  x ∈ (map_set k r m).*1 <-> x = k \/ x ∈ m.*1.
Proof.
  induction m as [|[k' r'] m IH]; simpl.
  - rewrite list_elem_of_singleton, elem_of_nil. tauto.
  - destruct (String.eqb k k') eqn:E; simpl.
    + apply String.eqb_eq in E as <-. rewrite !elem_of_cons. tauto.
    + rewrite !elem_of_cons, IH. tauto.
Qed.

Lemma NoDup_map_set (k : string) (r : nat) (m : list (string * nat)) :
  NoDup m.*1 -> NoDup (map_set k r m).*1.
Proof.
  induction m as [|[k' r'] m IH]; simpl; intros H.
  - apply NoDup_singleton.
  - apply NoDup_cons in H as [Hk H]. destruct (String.eqb k k') eqn:E; simpl.
    + apply String.eqb_eq in E as <-. by apply NoDup_cons.
    + apply String.eqb_neq in E. apply NoDup_cons. split; [|auto].
      rewrite elem_of_map_set_keys. intros [?|?]; [congruence|done].
Qed.

Lemma Forall_map_set (P : string * nat -> Prop) (k : string) (r : nat) (m : list (string * nat)) :
  P (k, r) -> Forall P m -> Forall P (map_set k r m).
Proof.
  intros Hk. induction 1 as [|[k' r'] m Hx Hm IH]; simpl.
  - by repeat constructor.
  - destruct (String.eqb k k'); by constructor.
Qed.

Lemma map_get_elem (k : string) (r : nat) (m : list (string * nat)) :
  map_get k m = Some r -> (k, r) ∈ m.
Proof.
  induction m as [|[k' r'] m IH]; simpl; [done|].
  destruct (String.eqb k k') eqn:E.
  - apply String.eqb_eq in E as <-. intros [= ->]. apply elem_of_cons. by left.
  - intros H. apply elem_of_cons. right. auto.
Qed.

Lemma map_get_None (k : string) (m : list (string * nat)) :
  map_get k m = None <-> k ∉ m.*1.
Proof.
  induction m as [|[k' r'] m IH]; simpl.
  - split; [intros _; apply not_elem_of_nil|done].
  - rewrite not_elem_of_cons. destruct (String.eqb k k') eqn:E.
    + apply String.eqb_eq in E. split; [done|]. intros [? _]. done.
    + apply String.eqb_neq in E. rewrite IH. tauto.
Qed.

Lemma map_get_NoDup (k : string) (r : nat) (m : list (string * nat)) :
  NoDup m.*1 -> (k, r) ∈ m -> map_get k m = Some r.
Proof.
  induction m as [|[k' r'] m IH]; simpl; intros Hn Hin.
  - by apply elem_of_nil in Hin.
  - apply NoDup_cons in Hn as [Hk Hn]. apply elem_of_cons in Hin as [[= <- <-]|Hin].
    + by rewrite String.eqb_refl.
    + destruct (String.eqb k k') eqn:E; [|auto].
      apply String.eqb_eq in E as <-. destruct Hk.
      apply list_elem_of_fmap. by exists (k, r).
Qed.

(** How each operation on the state keeps it. *)

Lemma keeps_refl w : well_formed w -> keeps w w.
Proof. by split. Qed.

Lemma keeps_mutate w0 r f w :
  (forall job, id (f job) = id job) -> keeps w0 w -> keeps w0 (mutate r f w).
Proof.
  intros Hf ((Hj & Hp & Hn) & Hsub & Hr). split; [|done]. split; [|split; [|done]]; simpl.
  - eapply Forall_impl; [exact Hj|]. intros e. by apply points_alter.
  - eapply Forall_impl; [exact Hp|]. intros t. by apply points_alter.
Qed.

Lemma keeps_jobs_set w0 k r w :
  points (heap w) (k, r) -> keeps w0 w -> keeps w0 (jobs_set k r w).
Proof.
  intros Hk ((Hj & Hp & Hn) & Hsub & Hr). split; [split; [|split]|split]; simpl; try done.
  - by apply Forall_map_set.
  - by apply NoDup_map_set.
  - intros x Hx. apply elem_of_map_set_keys. right. by apply Hsub.
Qed.

Lemma keeps_suspend w0 t w :
  points (heap w) (task_key t, task_ref t) -> keeps w0 w -> keeps w0 (suspend t w).
Proof.
  intros Ht ((Hj & Hp & Hn) & Hsub & Hr). split; [split; [|split]|split]; simpl; try done.
  apply Forall_app. split; [done|]. by repeat constructor.
Qed.

Lemma keeps_unsuspend w0 i w : keeps w0 w -> keeps w0 (unsuspend i w).
Proof.
  intros ((Hj & Hp & Hn) & Hsub & Hr). split; [split; [|split]|split]; simpl; try done.
  by apply Forall_delete.
Qed.

Lemma keeps_emit w0 e w :
  match e with Sent _ => False | _ => True end -> keeps w0 w -> keeps w0 (emit e w).
Proof.
  intros He ((Hj & Hp & Hn) & Hsub & Hr). split; [done|]. split; [done|]. simpl.
  rewrite <- Hr. clear -He. induction (wire w) as [|x l IH]; simpl.
  - by destruct e.
  - destruct x; simpl; by rewrite ?IH.
Qed.

Ltac pts :=
  simpl; repeat (apply points_alter; [intros ?; reflexivity|]); assumption.

Create HintDb keeps discriminated.

Hint Resolve keeps_unsuspend : keeps.
Hint Extern 1 (keeps _ (mutate _ _ _)) =>
  apply keeps_mutate; [intros ?; reflexivity|] : keeps.
Hint Extern 1 (keeps _ (jobs_set _ _ _)) => apply keeps_jobs_set; [pts|] : keeps.
Hint Extern 1 (keeps _ (suspend _ _)) => apply keeps_suspend; [pts|] : keeps.
Hint Extern 1 (keeps _ (emit _ _)) => apply keeps_emit; [exact I|] : keeps.

Section Server.

Variable parseInt10 : string -> option Z.
Variable bufferFrom : JVal -> Exc (list Byte.byte).
Variable toStr : JVal -> Exc string.
Variable cfg : Config.

Abbreviation sweep := (sweep parseInt10 toStr cfg).
Abbreviation sweep_from := (sweep_from parseInt10 toStr cfg).
Abbreviation generate_video := (generate_video parseInt10 toStr cfg).
Abbreviation saveVideoFromBase64OrUrl := (saveVideoFromBase64OrUrl bufferFrom).
Abbreviation step := (step parseInt10 bufferFrom toStr cfg).
Abbreviation run := (run parseInt10 bufferFrom toStr cfg).

Lemma keeps_sweep w0 env entries pos w :
  Forall (points (heap w)) entries -> keeps w0 w -> keeps w0 (sweep env entries pos w).
Proof.
  revert pos w. induction entries as [|[k r] entries IH]; intros pos w He Hw; simpl; [done|].
  inversion He as [|? ? Hk Hrest]; subst.
  unfold Video.visit. destruct (heap w !! r) as [job|]; [|by apply IH].
  destruct (status_eqb (status job) processing); simpl; [|by apply IH].
  destruct (overdue parseInt10 cfg env job).
  - apply IH; [|auto with keeps]. simpl.
    eapply Forall_impl; [exact Hrest|]. intros e. by apply points_alter.
  - destruct (truthy (providerJobId job)); simpl; [|by apply IH].
    destruct (buildStatusUrl toStr cfg (providerJobId job)); auto with keeps.
Qed.

Lemma keeps_sweep_from w0 env pos w : keeps w0 w -> keeps w0 (sweep_from env pos w).
Proof.
  intros Hw. apply keeps_sweep; [|done]. apply Forall_drop. by destruct Hw as ((? & _) & _).
Qed.

Hint Resolve keeps_sweep_from : keeps.

Lemma keeps_save_downloaded w0 env url file w :
  keeps w0 w ->
  keeps w0 (save_downloaded env url file w).1 /\
  heap (save_downloaded env url file w).1 = heap w.
Proof.
  intros Hw. unfold save_downloaded, download_body, save_buffer.
  destruct file as [d|m]; simpl; [|done].
  destruct (dl_ok d); simpl; [|done].
  destruct (dl_buffer d); simpl; [|done]. split; [auto with keeps|done].
Qed.

Lemma keeps_save w0 env base64 url w :
  keeps w0 w ->
  match saveVideoFromBase64OrUrl env base64 url w with
  | Settled w' _ | InDownload w' => keeps w0 w' /\ heap w' = heap w
  end.
Proof.
  intros Hw. unfold Video.saveVideoFromBase64OrUrl, save_buffer.
  destruct (truthy base64).
  - destruct (bufferFrom base64); simpl; [split; [auto with keeps|done]|done].
  - destruct (truthy url); [split; [auto with keeps|done]|done].
Qed.

Lemma keeps_on_poll_saved w0 env pos k r sData vidUrl saved w :
  points (heap w) (k, r) -> keeps w0 w ->
  keeps w0 (on_poll_saved parseInt10 toStr cfg env pos k r sData vidUrl saved w).
Proof. intros Hk Hw. unfold on_poll_saved. destruct saved; auto with keeps. Qed.

Lemma keeps_on_submit_saved w0 k r pdata viaUrl saved w :
  points (heap w) (k, r) -> keeps w0 w ->
  keeps w0 (on_submit_saved k r pdata viaUrl saved w).
Proof.
  intros Hk Hw. unfold on_submit_saved, submit_failed. destruct saved; auto with keeps.
Qed.

Lemma keeps_resumed w i t :
  well_formed w -> pending w !! i = Some t ->
  keeps w (unsuspend i w) /\ points (heap (unsuspend i w)) (task_key t, task_ref t).
Proof.
  intros Hw Ht. split; [apply keeps_unsuspend, keeps_refl, Hw|].
  destruct Hw as (_ & Hp & _). exact (Forall_lookup_1 _ _ _ _ Hp Ht).
Qed.

Lemma keeps_step_background w e w' :
  well_formed w -> step w e = Some w' ->
  match e with Post _ _ _ => True | _ => keeps w w' end.
Proof.
  intros Hw Hstep.
  destruct e as [env uuid req|env|i env reply|i env file|i env]; simpl in Hstep; [done|..].
  - injection Hstep as <-. apply keeps_sweep_from, keeps_refl, Hw.
  - destruct (pending w !! i) as [t|] eqn:Ht; [|done].
    destruct (keeps_resumed w i t Hw Ht) as [Hk Hpt].
    destruct t as [k r|k r pdata|k r pdata v saved|pos k r|pos k r sData u
                   |pos k r sData u saved]; try done; injection Hstep as <-; simpl in Hpt.
    + unfold on_submit, submit_failed.
      destruct reply as [pResp|m]; [|auto with keeps].
      destruct (ok pResp); simpl; [|auto with keeps].
      destruct (json pResp) as [pdata|m]; [|auto with keeps].
      destruct (get pdata "video_url") as [video_url|m]; [|auto with keeps].
      destruct (truthy video_url).
      { pose proof (keeps_save w env JUndefined video_url _ Hk) as H.
        destruct (saveVideoFromBase64OrUrl _ _ _ _); destruct H as [H Hh];
          (apply keeps_suspend; [simpl; by rewrite Hh|done]). }
      destruct (truthy (prop pdata "video_base64")).
      { pose proof (keeps_save w env (prop pdata "video_base64") JUndefined _ Hk) as H.
        destruct (saveVideoFromBase64OrUrl _ _ _ _); destruct H as [H Hh];
          (apply keeps_suspend; [simpl; by rewrite Hh|done]). }
      destruct (truthy (handle_of pdata)); auto with keeps.
    + unfold on_status.
      destruct reply as [sResp|m]; [|auto with keeps].
      destruct (ok sResp); simpl; [|auto with keeps].
      destruct (json sResp) as [sData|m]; [|auto with keeps].
      destruct (provider_status sData) as [st|m]; [|auto with keeps].
      destruct (says_done st).
      { pose proof (keeps_save w env (b64_of sData) (vidUrl_of sData) _ Hk) as H.
        destruct (saveVideoFromBase64OrUrl _ _ _ _); destruct H as [H Hh];
          (apply keeps_suspend; [simpl; by rewrite Hh|done]). }
      destruct (says_failed st); auto with keeps.
  - destruct (pending w !! i) as [t|] eqn:Ht; [|done].
    destruct (keeps_resumed w i t Hw Ht) as [Hk Hpt].
    destruct t as [k r|k r pdata|k r pdata v saved|pos k r|pos k r sData u
                   |pos k r sData u saved]; try done; injection Hstep as <-; simpl in Hpt.
    + unfold on_submit_download.
      destruct (keeps_save_downloaded w env (prop pdata "video_url") file _ Hk) as [H Hh].
      destruct (save_downloaded _ _ _ _) as [w1 saved]. simpl in *.
      apply keeps_on_submit_saved; [by rewrite Hh|done].
    + unfold on_poll_download.
      destruct (keeps_save_downloaded w env u file _ Hk) as [H Hh].
      destruct (save_downloaded _ _ _ _) as [w1 saved]. simpl in *.
      apply keeps_on_poll_saved; [by rewrite Hh|done].
  - destruct (pending w !! i) as [t|] eqn:Ht; [|done].
    destruct (keeps_resumed w i t Hw Ht) as [Hk Hpt].
    destruct t as [k r|k r pdata|k r pdata v saved|pos k r|pos k r sData u
                   |pos k r sData u saved]; try done; injection Hstep as <-; simpl in Hpt.
    + by apply keeps_on_submit_saved.
    + by apply keeps_on_poll_saved.
Qed.

Lemma replies_snoc (l : list Effect) (e : Effect) :
  replies (l ++ [e]) = (replies l + match e with Sent _ => 1 | _ => 0 end)%nat.
Proof.
  induction l as [|x l IH]; simpl; [by destruct e|].
  destruct x; simpl; rewrite IH; lia.
Qed.

Lemma post_keeps env uuid req w :
  well_formed w ->
  well_formed (generate_video env uuid req w) /\
  (jobs w).*1 ⊆ (jobs (generate_video env uuid req w)).*1 /\
  replies (wire (generate_video env uuid req w)) = S (replies (wire w)).
Proof.
  intros Hw. unfold Video.generate_video.
  destruct (trimmed (b_prompt req)) as [p|m];
    [|split; [done|split; [done|simpl; rewrite replies_snoc; lia]]].
  destruct (numbers_of parseInt10 toStr cfg req) as [n|m];
    [|split; [done|split; [done|simpl; rewrite replies_snoc; lia]]].
  destruct (too_short p);
    [split; [done|split; [done|simpl; rewrite replies_snoc; lia]]|].
  destruct (String.eqb (API_KEY cfg) "");
    [split; [done|split; [done|simpl; rewrite replies_snoc; lia]]|].
  set (job := new_job parseInt10 cfg env uuid p n).
  set (r := length (heap w)).
  assert (points (heap w ++ [job]) (uuid, r)) as Hnew.
  { exists job. split; [by apply list_lookup_middle|done]. }
  assert (keeps w (alloc job w)) as Ha.
  { destruct Hw as (Hj & Hp & Hn). split; [split; [|split]|split]; simpl; try done.
    - eapply Forall_impl; [exact Hj|]. intros e. apply points_app.
    - eapply Forall_impl; [exact Hp|]. intros t. apply points_app. }
  assert (keeps w (suspend (AwaitSubmit uuid r)
                     (emit (PostedVideo (VIDEO_API_URL cfg) (API_KEY cfg) (body_of job))
                        (jobs_set uuid r (mutate r (mark_started env)
                           (jobs_set uuid r (alloc job w))))))) as (Hwf & Hsub & Hr).
  { auto 10 with keeps. }
  split; [exact Hwf|]. split; [exact Hsub|].
  simpl in *. rewrite replies_snoc. lia.
Qed.

Lemma well_formed_step w e w' :
  well_formed w -> step w e = Some w' ->
  well_formed w' /\
  (jobs w).*1 ⊆ (jobs w').*1 /\
  replies (wire w') = (replies (wire w) + posts [e])%nat.
Proof.
  intros Hw Hstep. pose proof (keeps_step_background w e w' Hw Hstep) as H.
  destruct e as [env uuid req|env|i env reply|i env file|i env];
    try (destruct H as (H1 & H2 & H3); simpl; rewrite H3, Nat.add_0_r; done).
  simpl in Hstep. injection Hstep as <-.
  destruct (post_keeps env uuid req w Hw) as (H1 & H2 & H3).
  simpl. rewrite H3. split; [done|]. split; [done|lia].
Qed.

Lemma well_formed_run events w w' :
  well_formed w -> run w events = Some w' ->
  well_formed w' /\
  (jobs w).*1 ⊆ (jobs w').*1 /\
  replies (wire w') = (replies (wire w) + posts events)%nat.
Proof.
  revert w. induction events as [|e events IH]; intros w Hw Hrun; simpl in Hrun.
  - injection Hrun as <-. simpl. rewrite Nat.add_0_r. done.
  - destruct (step w e) as [w1|] eqn:Hstep; [|done].
    destruct (well_formed_step w e w1 Hw Hstep) as (H1 & H2 & H3).
    destruct (IH w1 H1 Hrun) as (H4 & H5 & H6).
    split; [done|]. split; [intros x Hx; by apply H5, H2|]. rewrite H6, H3.
    simpl. destruct e; simpl; lia.
Qed.

Lemma well_formed_boot : well_formed boot.
Proof. repeat split; simpl; constructor. Qed.

(** X13. Every request gets exactly one reply, and nothing else is ever
    answered: after any run from the empty registry the number of
    replies sent equals the number of [POST /api/generate-video]
    requests received, whatever the timer and the settled awaits have
    done in between. *)
Theorem one_reply_per_request (events : list Event) (w : World) :
  run boot events = Some w ->
  replies (wire w) = posts events.
Proof.
  intros Hrun. by destruct (well_formed_run events boot w well_formed_boot Hrun) as (_ & _ & ->).
Qed.

(** X14. In every state reached from the empty registry,
    [GET /api/status/:jobId] answers 404 "Job not found" for an
    identifier that is not in the registry, and for one that is it
    answers 200 for a job object that exists and carries that very
    identifier: the route never finds an entry without its job, never
    reports another job's identifier, and never reports "queued". *)
Theorem status_route_answers_for_its_id (events : list Event) (w : World) (k : string) :
  run boot events = Some w ->
  (k ∉ (jobs w).*1 ->
   status_route k w = {| code := 404; body := JObj [("error", JStr "Job not found")] |}) /\
  (k ∈ (jobs w).*1 ->
   exists r job,
     (k, r) ∈ jobs w /\ heap w !! r = Some job /\ id job = k /\
     code (status_route k w) = 200 /\
     prop (body (status_route k w)) "id" = JStr k /\
     prop (body (status_route k w)) "status" = JStr (status_name (status job)) /\
     status job <> queued).
Proof.
  intros Hrun.
  destruct (well_formed_run events boot w well_formed_boot Hrun) as ((Hj & _ & Hn) & _ & _).
  split.
  - intros Hk. unfold status_route. by rewrite (proj2 (map_get_None k (jobs w)) Hk).
  - intros Hk. destruct (map_get k (jobs w)) as [r|] eqn:Hget.
    + pose proof (map_get_elem _ _ _ Hget) as Hin.
      destruct (proj1 (Forall_forall _ _) Hj _ Hin) as (job & Hr & Hid). simpl in *.
      exists r, job. unfold status_route. rewrite Hget, Hr. simpl. rewrite Hid.
      repeat split; try done.
      by destruct (VideoProofs.born_unsettled job
                     (VideoProofs.reached_born parseInt10 bufferFrom toStr cfg _ _ _ _ Hrun Hr)).
    + apply map_get_None in Hget. done.
Qed.

(** X15. Identifiers are never forgotten: once the registry of a reached
    state holds an identifier, the status route answers 200 for it after
    every further run, however many sweeps, answers and new submissions
    follow. *)
Theorem known_id_stays_known
    (events more : list Event) (w w' : World) (k : string) :
  run boot events = Some w ->
  k ∈ (jobs w).*1 ->
  run w more = Some w' ->
  k ∈ (jobs w').*1 /\ code (status_route k w') = 200.
Proof.
  intros Hrun Hk Hmore.
  destruct (well_formed_run events boot w well_formed_boot Hrun) as (Hw & _ & _).
  destruct (well_formed_run more w w' Hw Hmore) as ((Hj & _ & _) & Hsub & _).
  assert (k ∈ (jobs w').*1) as Hk' by (by apply Hsub). split; [done|].
  destruct (map_get k (jobs w')) as [r|] eqn:Hget.
  - pose proof (map_get_elem _ _ _ Hget) as Hin.
    destruct (proj1 (Forall_forall _ _) Hj _ Hin) as (job & Hr & Hid). simpl in *.
    unfold status_route. by rewrite Hget, Hr.
  - apply map_get_None in Hget. done.
Qed.

(** X16. In every state reached from the empty registry, [GET /api/jobs]
    lists one object per registry entry, in the registry's order, and
    each object agrees with what
    [GET /api/status/:jobId] answers for its identifier: the same id,
    status, prompt and resultUrl. *)
Theorem listing_agrees_with_status_route (events : list Event) (w : World) :
  run boot events = Some w ->
  exists items,
    list_route w = {| code := 200; body := JArr items |} /\
    length items = length (jobs w) /\
    forall i k r, jobs w !! i = Some (k, r) ->
      exists item,
        items !! i = Some item /\
        prop item "id" = JStr k /\
        prop item "id" = prop (body (status_route k w)) "id" /\
        prop item "status" = prop (body (status_route k w)) "status" /\
        prop item "prompt" = prop (body (status_route k w)) "prompt" /\
        prop item "resultUrl" = prop (body (status_route k w)) "resultUrl".
Proof.
  intros Hrun.
  destruct (well_formed_run events boot w well_formed_boot Hrun) as ((Hj & _ & Hn) & _ & _).
  exists (map (list_entry w) (jobs w)). split; [done|]. split; [by rewrite length_map|].
  intros i k r Hi.
  pose proof (list_elem_of_lookup_2 _ _ _ Hi) as Hin.
  destruct (proj1 (Forall_forall _ _) Hj _ Hin) as (job & Hr & Hid). simpl in *.
  exists (list_entry w (k, r)). split.
  { change (map (list_entry w) (jobs w)) with (list_entry w <$> jobs w).
    by rewrite list_lookup_fmap, Hi. }
  unfold list_entry, status_route. simpl.
  rewrite (map_get_NoDup k r (jobs w) Hn Hin), Hr. simpl. by rewrite Hid.
Qed.

Lemma same_request_refl job : same_request job job.
Proof. by repeat split. Qed.

Lemma same_request_trans a b c : same_request a b -> same_request b c -> same_request a c.
Proof.
  intros (H1 & H2 & H3 & H4 & H5 & H6 & H7 & H8) (K1 & K2 & K3 & K4 & K5 & K6 & K7 & K8).
  repeat split; congruence.
Qed.

Lemma write_same_request a b : rtc write a b -> same_request a b.
Proof.
  induction 1 as [|a mid b Hw _ IH]; [apply same_request_refl|].
  eapply same_request_trans; [|exact IH]. destruct Hw; by repeat split.
Qed.

(** X17. No event rewrites a request or loses a job: over any run, a job
    object that exists still exists afterwards with the same id, prompt,
    duration, width, height, createdAt, startedAt and maxPollMs.
    [startedAt] in particular is set once, by the handler, and the
    deadline of a job never moves. *)
Theorem request_is_never_rewritten
    (events : list Event) (w w' : World) (r : nat) (job : Job) :
  run w events = Some w' ->
  heap w !! r = Some job ->
  exists job', heap w' !! r = Some job' /\ same_request job job'.
Proof.
  intros Hrun Hr.
  destruct (VideoProofs.adv_run parseInt10 bufferFrom toStr cfg _ _ _ Hrun) as [Hl H].
  destruct (lookup_lt_is_Some_2 (heap w') r) as [job' Hr'].
  { apply lookup_lt_Some in Hr. lia. }
  exists job'. split; [done|]. specialize (H r job' Hr'). rewrite Hr in H.
  by apply write_same_request.
Qed.

(** X18. Over any run, whatever the interleaving of sweeps, answers and
    downloads, the status of a job is afterwards what it was before or
    is terminal: no run brings [queued] or [processing] back, and a job
    that is terminal stays terminal. *)
Theorem run_never_goes_back
    (events : list Event) (w w' : World) (r : nat) (job : Job) :
  run w events = Some w' ->
  heap w !! r = Some job ->
  exists job',
    heap w' !! r = Some job' /\
    (status job' = status job \/ terminal (status job') = true) /\
    (terminal (status job) = true -> terminal (status job') = true).
Proof.
  intros Hrun Hr.
  destruct (VideoProofs.adv_run parseInt10 bufferFrom toStr cfg _ _ _ Hrun) as [Hl H].
  destruct (lookup_lt_is_Some_2 (heap w') r) as [job' Hr'].
  { apply lookup_lt_Some in Hr. lia. }
  exists job'. split; [done|]. specialize (H r job' Hr'). rewrite Hr in H.
  destruct (VideoProofs.write_status _ _ H) as [Hs|Hs]; split; auto.
  by rewrite Hs.
Qed.

End Server.

(** X13, at a valid submission followed by a sweep. *)
Lemma one_reply_per_request_witness :
  replies (wire (Video.pollWorker Sample.parseInt10 Sample.toStr Sample.video_cfg
                   (Sample.at_ 3000) Sample.submitted)) = 1%nat.
Proof.
  exact (one_reply_per_request Sample.parseInt10 Sample.bufferFrom Sample.toStr Sample.video_cfg
           [Post (Sample.at_ 0) "job-1" Sample.fox; Tick (Sample.at_ 3000)] _ eq_refl).
Defined.

(** X14, at [Sample.handled] and the identifiers "job-1" and "job-2". *)
Lemma status_route_answers_for_its_id_witness :
  status_route "job-2" Sample.handled =
  {| code := 404; body := JObj [("error", JStr "Job not found")] |} /\
  exists r job,
    (("job-1" : string), r) ∈ jobs Sample.handled /\ heap Sample.handled !! r = Some job /\
    id job = "job-1" /\
    code (status_route "job-1" Sample.handled) = 200 /\
    prop (body (status_route "job-1" Sample.handled)) "id" = JStr "job-1" /\
    prop (body (status_route "job-1" Sample.handled)) "status" =
    JStr (status_name (status job)) /\
    status job <> queued.
Proof.
  split.
  - refine (proj1 (status_route_answers_for_its_id Sample.parseInt10 Sample.bufferFrom
                     Sample.toStr Sample.video_cfg
                     [Post (Sample.at_ 0) "job-1" Sample.fox;
                      Replied 0 (Sample.at_ 1000)
                        (Sample.answer (JObj [("task_id", JStr "abc123")]))]
                     Sample.handled "job-2" eq_refl) _).
    simpl. rewrite list_elem_of_singleton. discriminate.
  - refine (proj2 (status_route_answers_for_its_id Sample.parseInt10 Sample.bufferFrom
                     Sample.toStr Sample.video_cfg
                     [Post (Sample.at_ 0) "job-1" Sample.fox;
                      Replied 0 (Sample.at_ 1000)
                        (Sample.answer (JObj [("task_id", JStr "abc123")]))]
                     Sample.handled "job-1" eq_refl) _).
    simpl. by rewrite list_elem_of_singleton.
Defined.

(** X15, at [Sample.submitted], then the provider's handle and a sweep. *)
Lemma known_id_stays_known_witness :
  exists w',
    Sample.run Sample.submitted
      [Replied 0 (Sample.at_ 1000) (Sample.answer (JObj [("task_id", JStr "abc123")]));
       Tick (Sample.at_ 3000)] = Some w' /\
    code (status_route "job-1" w') = 200.
Proof.
  eexists. split; [reflexivity|].
  refine (proj2 (known_id_stays_known Sample.parseInt10 Sample.bufferFrom Sample.toStr
                   Sample.video_cfg [Post (Sample.at_ 0) "job-1" Sample.fox]
                   [Replied 0 (Sample.at_ 1000)
                      (Sample.answer (JObj [("task_id", JStr "abc123")]));
                    Tick (Sample.at_ 3000)]
                   Sample.submitted _ "job-1" eq_refl _ eq_refl)).
  simpl. by rewrite list_elem_of_singleton.
Defined.

(** X16, at [Sample.handled]. *)
Lemma listing_agrees_with_status_route_witness :
  exists items,
    list_route Sample.handled = {| code := 200; body := JArr items |} /\
    length items = 1%nat.
Proof.
  destruct (listing_agrees_with_status_route Sample.parseInt10 Sample.bufferFrom Sample.toStr
              Sample.video_cfg
              [Post (Sample.at_ 0) "job-1" Sample.fox;
               Replied 0 (Sample.at_ 1000) (Sample.answer (JObj [("task_id", JStr "abc123")]))]
              Sample.handled eq_refl) as (items & Hl & Hn & _).
  exists items. split; [exact Hl | exact Hn].
Defined.

(** X17, at [Sample.submitted] and the run that times its job out. *)
Lemma request_is_never_rewritten_witness :
  exists job',
    heap (Video.pollWorker Sample.parseInt10 Sample.toStr Sample.video_cfg
            (Sample.at_ 303000) Sample.submitted) !! 0%nat = Some job' /\
    same_request Cases.fox_job job'.
Proof.
  exact (request_is_never_rewritten Sample.parseInt10 Sample.bufferFrom Sample.toStr
           Sample.video_cfg [Tick (Sample.at_ 303000)] Sample.submitted _ 0 Cases.fox_job
           eq_refl eq_refl).
Defined.

(** X18, at the same run. *)
Lemma run_never_goes_back_witness :
  exists job',
    heap (Video.pollWorker Sample.parseInt10 Sample.toStr Sample.video_cfg
            (Sample.at_ 303000) Sample.submitted) !! 0%nat = Some job' /\
    (status job' = status Cases.fox_job \/ terminal (status job') = true) /\
    (terminal (status Cases.fox_job) = true -> terminal (status job') = true).
Proof.
  exact (run_never_goes_back Sample.parseInt10 Sample.bufferFrom Sample.toStr
           Sample.video_cfg [Tick (Sample.at_ 303000)] Sample.submitted _ 0 Cases.fox_job
           eq_refl eq_refl).
Defined.

End RegistryProofs.

(* ===================================================================== *)
(** ** The video server: the life cycle of a job                          *)
(* ===================================================================== *)

Module LifecycleProofs.

Import Http Video Registry.

Lemma in_flight_suspend (r : nat) (t : Task) (w : World) :
  in_flight r (suspend t w) = (in_flight r w + if submits r t then 1 else 0)%nat.
Proof.
  unfold in_flight. simpl. rewrite filter_app, length_app.
  destruct (submits r t) eqn:E.
  - rewrite filter_cons_True by done. simpl. lia.
  - rewrite filter_cons_False by (rewrite E; done). simpl. lia.
Qed.

Lemma in_flight_delete (r : nat) (l : list Task) (i : nat) (t : Task) :
  l !! i = Some t ->
  length (filter (fun t => submits r t = true) l) =
  (length (filter (fun t => submits r t = true) (delete i l)) +
   if submits r t then 1 else 0)%nat.
Proof.
  revert i. induction l as [|a l IH]; intros [|i] Ht; simpl in Ht; try done.
  - injection Ht as ->. simpl. destruct (submits r t) eqn:E.
    + rewrite filter_cons_True by done. simpl. lia.
    + rewrite filter_cons_False by (rewrite E; done). lia.
  - simpl. destruct (submits r a) eqn:E.
    + rewrite !filter_cons_True by done. simpl. rewrite (IH i Ht). lia.
    + rewrite !filter_cons_False by (rewrite E; done). by apply IH.
Qed.

Lemma in_flight_none (r : nat) (w : World) :
  (forall t, t ∈ pending w -> task_ref t <> r) -> in_flight r w = 0%nat.
Proof.
  unfold in_flight. induction (pending w) as [|a l IH]; intros H; [done|].
  rewrite filter_cons_False.
  - apply IH. intros t Ht. apply H. apply elem_of_cons. by right.
  - unfold submits. assert (task_ref a <> r) as Ha by (apply H, elem_of_cons; by left).
    apply Nat.eqb_neq in Ha. rewrite Ha, andb_false_r. done.
Qed.

Lemma in_flight_some (r : nat) (w : World) :
  in_flight r w <> 0%nat ->
  exists t, t ∈ pending w /\ submitting t = true /\ task_ref t = r.
Proof.
  unfold in_flight. induction (pending w) as [|a l IH]; [done|].
  destruct (submits r a) eqn:E.
  - intros _. exists a. unfold submits in E. apply andb_true_iff in E as [E1 E2].
    apply Nat.eqb_eq in E2. split; [apply elem_of_cons; by left|done].
  - rewrite filter_cons_False by (rewrite E; done). intros H.
    destruct (IH H) as (t & Ht & Hs). exists t. split; [apply elem_of_cons; by right|done].
Qed.

(** How each operation on the state keeps the life cycle. *)

Lemma lifecycle_same x w w' :
  heap w' = heap w -> (forall r, in_flight r w' = in_flight r w) ->
  lifecycle x w -> lifecycle x w'.
Proof.
  intros Hh Hf (He & Hph & Hx). split; [|split].
  - intros r job. rewrite Hh. apply He.
  - intros r job. rewrite Hh. intros Hr Hne. unfold in_phase. rewrite Hf. by apply Hph.
  - destruct x as [r0|]; [|done]. by rewrite Hf, Hh.
Qed.

Lemma lifecycle_jobs_set x k r w : lifecycle x w -> lifecycle x (jobs_set k r w).
Proof. by apply lifecycle_same. Qed.

Lemma lifecycle_emit x e w : lifecycle x w -> lifecycle x (emit e w).
Proof. by apply lifecycle_same. Qed.

Lemma lifecycle_suspend_other x t w :
  submitting t = false -> lifecycle x w -> lifecycle x (suspend t w).
Proof.
  intros Ht. apply lifecycle_same; [done|]. intros r. rewrite in_flight_suspend.
  unfold submits. rewrite Ht. simpl. lia.
Qed.

Lemma lifecycle_suspend_close r t w :
  submitting t = true -> task_ref t = r ->
  lifecycle (Some r) w -> lifecycle None (suspend t w).
Proof.
  intros Hs Ht (He & Hph & H0 & job & Hj & Hh). split; [done|]. split; [|done].
  intros r' job' Hr' _. unfold in_phase. rewrite in_flight_suspend.
  unfold submits. rewrite Hs, Ht. simpl. destruct (Nat.eqb r r') eqn:E.
  - apply Nat.eqb_eq in E as <-. simpl in Hr'. rewrite H0.
    assert (job' = job) as -> by congruence. repeat split; [lia|done|lia].
  - apply Nat.eqb_neq in E. rewrite Nat.add_0_r. apply (Hph r' job' Hr'). congruence.
Qed.

Lemma lifecycle_mutate_keep x r f w :
  (forall j, providerJobId (f j) = providerJobId j /\
             (status (f j) = processing -> status j = processing) /\
             (explained j -> explained (f j))) ->
  lifecycle x w -> lifecycle x (mutate r f w).
Proof.
  intros Hf (He & Hph & Hx). split; [|split].
  - intros r' job'. simpl. rewrite list_lookup_alter. case_decide as E; [|apply He].
    subst r'. destruct (heap w !! r) as [j|] eqn:Ej; [|done]. simpl.
    intros [= <-]. apply Hf. by eapply He.
  - intros r' job'. simpl. rewrite list_lookup_alter. case_decide as E; [|apply Hph].
    subst r'. destruct (heap w !! r) as [j|] eqn:Ej; [|done]. simpl. intros [= <-] Hne.
    destruct (Hph r j Ej Hne) as (H1 & H2 & H3). destruct (Hf j) as (Hh & Hs & _).
    unfold in_phase. change (in_flight r (mutate r f w)) with (in_flight r w).
    rewrite Hh. repeat split; auto.
  - destruct x as [r0|]; [|done]. destruct Hx as (H0 & job & Hj & Hh). split; [done|].
    simpl. rewrite list_lookup_alter. case_decide as E; [|by exists job].
    subst r0. rewrite Hj. simpl. exists (f job). split; [done|]. by rewrite (proj1 (Hf job)).
Qed.

Lemma lifecycle_mutate_open r f w :
  (forall j, providerJobId (f j) = providerJobId j /\ (explained j -> explained (f j))) ->
  lifecycle (Some r) w -> lifecycle (Some r) (mutate r f w).
Proof.
  intros Hf (He & Hph & H0 & job & Hj & Hh). split; [|split].
  - intros r' job'. simpl. rewrite list_lookup_alter. case_decide as E; [|apply He].
    subst r'. rewrite Hj. simpl. intros [= <-]. apply Hf. by eapply He.
  - intros r' job'. simpl. rewrite list_lookup_alter. case_decide as E; [congruence|].
    apply Hph.
  - split; [done|]. simpl. rewrite list_lookup_alter. case_decide as E; [|done].
    rewrite Hj. simpl. exists (f job). split; [done|]. by rewrite (proj1 (Hf job)).
Qed.

Lemma lifecycle_mutate_close r f w :
  (forall j, (status (f j) = processing -> truthy (providerJobId (f j)) = true) /\
             (explained j -> explained (f j))) ->
  lifecycle (Some r) w -> lifecycle None (mutate r f w).
Proof.
  intros Hf (He & Hph & H0 & job & Hj & Hh). split; [|split; [|done]].
  - intros r' job'. simpl. rewrite list_lookup_alter. case_decide as E; [|apply He].
    subst r'. rewrite Hj. simpl. intros [= <-]. apply Hf. by eapply He.
  - intros r' job'. simpl. rewrite list_lookup_alter. case_decide as E.
    + subst r'. rewrite Hj. simpl. intros [= <-] _. unfold in_phase.
      change (in_flight r (mutate r f w)) with (in_flight r w). rewrite H0.
      repeat split; [lia|done|]. intros _. apply Hf.
    + intros Hr' _. apply (Hph r' job' Hr'). congruence.
Qed.

Lemma lifecycle_unsuspend w i t :
  lifecycle None w -> pending w !! i = Some t ->
  (exists job, heap w !! task_ref t = Some job) ->
  lifecycle (resumes t) (unsuspend i w).
Proof.
  intros (He & Hph & _) Ht (job & Hj).
  assert (forall r, in_flight r w =
                    (in_flight r (unsuspend i w) + if submits r t then 1 else 0)%nat) as Hd.
  { intros r. by apply in_flight_delete. }
  unfold resumes. destruct (submitting t) eqn:Hs.
  - split; [done|]. split; [|split].
    + intros r job' Hr Hne. unfold in_phase. specialize (Hd r). unfold submits in Hd.
      rewrite Hs in Hd. simpl in Hd.
      destruct (Nat.eqb (task_ref t) r) eqn:E; [apply Nat.eqb_eq in E; congruence|].
      rewrite Nat.add_0_r in Hd. rewrite <- Hd. by apply Hph.
    + specialize (Hd (task_ref t)). unfold submits in Hd.
      rewrite Hs, Nat.eqb_refl in Hd. simpl in Hd.
      destruct (Hph _ _ Hj) as (H1 & _); [done|]. lia.
    + exists job. split; [done|].
      specialize (Hd (task_ref t)). unfold submits in Hd.
      rewrite Hs, Nat.eqb_refl in Hd. simpl in Hd.
      destruct (Hph _ _ Hj) as (H1 & H2 & _); [done|]. apply H2. lia.
  - apply (lifecycle_same None w (unsuspend i w)); [done| |by split]. intros r. specialize (Hd r).
    unfold submits in Hd. rewrite Hs in Hd. simpl in Hd. lia.
Qed.

(** How each operation leaves the other job objects alone. *)

Lemma untouched_refl c w : untouched c w w.
Proof. intros r job Hr _. by exists job. Qed.

Lemma untouched_same c w0 w w' : heap w' = heap w -> untouched c w0 w -> untouched c w0 w'.
Proof. intros Hh H r job. rewrite Hh. apply H. Qed.

Lemma untouched_mutate_keep c w0 r f w :
  (forall j, providerJobId (f j) = providerJobId j) ->
  untouched c w0 w -> untouched c w0 (mutate r f w).
Proof.
  intros Hf H r' job Hr' Hne. destruct (H r' job Hr' Hne) as (job' & Hj' & Hh).
  simpl. rewrite list_lookup_alter. case_decide as E; [|by exists job'].
  subst r'. rewrite Hj'. simpl. exists (f job'). by rewrite Hf.
Qed.

Lemma untouched_mutate_own w0 r f w :
  untouched (Some r) w0 w -> untouched (Some r) w0 (mutate r f w).
Proof.
  intros H r' job Hr' Hne. destruct (H r' job Hr' Hne) as (job' & Hj' & Hh).
  simpl. rewrite list_lookup_alter. case_decide as E; [congruence|by exists job'].
Qed.

(** Both together. *)

Lemma life_jobs_set w0 c x k r w : life w0 c x w -> life w0 c x (jobs_set k r w).
Proof. intros [H1 H2]. split; [by apply lifecycle_jobs_set|by eapply untouched_same]. Qed.

Lemma life_emit w0 c x e w : life w0 c x w -> life w0 c x (emit e w).
Proof. intros [H1 H2]. split; [by apply lifecycle_emit|by eapply untouched_same]. Qed.

Lemma life_suspend_other w0 c x t w :
  submitting t = false -> life w0 c x w -> life w0 c x (suspend t w).
Proof.
  intros Ht [H1 H2]. split; [by apply lifecycle_suspend_other|by eapply untouched_same].
Qed.

Lemma life_suspend_close w0 c r t w :
  submitting t = true -> task_ref t = r ->
  life w0 c (Some r) w -> life w0 c None (suspend t w).
Proof.
  intros Hs Ht [H1 H2]. split; [by eapply lifecycle_suspend_close|by eapply untouched_same].
Qed.

Lemma life_mutate_keep w0 c x r f w :
  (forall j, providerJobId (f j) = providerJobId j /\
             (status (f j) = processing -> status j = processing) /\
             (explained j -> explained (f j))) ->
  life w0 c x w -> life w0 c x (mutate r f w).
Proof.
  intros Hf [H1 H2]. split; [by apply lifecycle_mutate_keep|].
  apply untouched_mutate_keep; [|done]. intros j. apply Hf.
Qed.

Lemma life_mutate_close w0 r f w :
  (forall j, (status (f j) = processing -> truthy (providerJobId (f j)) = true) /\
             (explained j -> explained (f j))) ->
  life w0 (Some r) (Some r) w -> life w0 (Some r) None (mutate r f w).
Proof.
  intros Hf [H1 H2]. split; [by apply lifecycle_mutate_close|by apply untouched_mutate_own].
Qed.

Ltac side :=
  intros ?; unfold explained, time_out, poll_succeed, submit_succeed, mark_started;
  simpl; repeat split; solve [done | auto | tauto].

Create HintDb life discriminated.

Hint Resolve life_jobs_set life_emit : life.
Hint Extern 1 (life _ _ _ (suspend _ _)) =>
  apply life_suspend_other; [reflexivity|] : life.
Hint Extern 1 (life _ _ None (suspend _ _)) =>
  eapply life_suspend_close; [reflexivity|reflexivity|] : life.
Hint Extern 1 (life _ _ _ (mutate _ _ _)) =>
  apply life_mutate_keep; [solve [side]|] : life.
Hint Extern 1 (life _ _ None (mutate _ _ _)) =>
  apply life_mutate_close; [solve [side]|] : life.

Lemma says_failed_set (sData st : JVal) :
  provider_status sData = Ok st -> says_failed st = true -> is_set sData = true.
Proof. by destruct sData. Qed.

Section Server.

Variable parseInt10 : string -> option Z.
Variable bufferFrom : JVal -> Exc (list Byte.byte).
Variable toStr : JVal -> Exc string.
Variable cfg : Config.

Abbreviation sweep := (sweep parseInt10 toStr cfg).
Abbreviation sweep_from := (sweep_from parseInt10 toStr cfg).
Abbreviation generate_video := (generate_video parseInt10 toStr cfg).
Abbreviation saveVideoFromBase64OrUrl := (saveVideoFromBase64OrUrl bufferFrom).
Abbreviation step := (step parseInt10 bufferFrom toStr cfg).
Abbreviation run := (run parseInt10 bufferFrom toStr cfg).

Lemma life_sweep w0 c env entries pos w :
  life w0 c None w -> life w0 c None (sweep env entries pos w).
Proof.
  revert pos w. induction entries as [|[k r] entries IH]; intros pos w Hw; simpl; [done|].
  unfold Video.visit. destruct (heap w !! r) as [job|]; [|by apply IH].
  destruct (status_eqb (status job) processing); simpl; [|by apply IH].
  destruct (overdue parseInt10 cfg env job); [apply IH; auto with life|].
  destruct (truthy (providerJobId job)); simpl; [|by apply IH].
  destruct (buildStatusUrl toStr cfg (providerJobId job)); auto with life.
Qed.

Lemma life_sweep_from w0 c env pos w :
  life w0 c None w -> life w0 c None (sweep_from env pos w).
Proof. apply life_sweep. Qed.

Hint Resolve life_sweep_from : life.

Lemma life_save_downloaded w0 c x env url file w :
  life w0 c x w -> life w0 c x (save_downloaded env url file w).1.
Proof.
  intros Hw. unfold save_downloaded, download_body, save_buffer.
  destruct file as [d|m]; simpl; [|done].
  destruct (dl_ok d); simpl; [|done].
  destruct (dl_buffer d); simpl; [auto with life|done].
Qed.

Lemma life_save w0 c x env base64 url w :
  life w0 c x w ->
  match saveVideoFromBase64OrUrl env base64 url w with
  | Settled w' _ | InDownload w' => life w0 c x w'
  end.
Proof.
  intros Hw. unfold Video.saveVideoFromBase64OrUrl, save_buffer.
  destruct (truthy base64).
  - destruct (bufferFrom base64); simpl; [auto with life|done].
  - destruct (truthy url); [auto with life|done].
Qed.

Lemma life_on_poll_saved w0 c env pos k r sData vidUrl saved w :
  life w0 c None w ->
  life w0 c None (on_poll_saved parseInt10 toStr cfg env pos k r sData vidUrl saved w).
Proof. intros Hw. unfold on_poll_saved. destruct saved; auto with life. Qed.

Lemma life_on_submit_saved w0 k r pdata viaUrl saved w :
  life w0 (Some r) (Some r) w ->
  life w0 (Some r) None (on_submit_saved k r pdata viaUrl saved w).
Proof.
  intros Hw. unfold on_submit_saved, submit_failed. destruct saved; auto with life.
Qed.

Lemma life_resumed w i t :
  well_formed w -> lifecycle None w -> pending w !! i = Some t ->
  life w (resumes t) (resumes t) (unsuspend i w).
Proof.
  intros (_ & Hp & _) Hl Ht.
  split; [|apply (untouched_same _ w w); [done|apply untouched_refl]].
  apply lifecycle_unsuspend; [done|done|].
  destruct (Forall_lookup_1 _ _ _ _ Hp Ht) as (job & Hj & _). by exists job.
Qed.

Lemma life_post env uuid req w :
  well_formed w -> lifecycle None w -> life w None None (generate_video env uuid req w).
Proof.
  intros (_ & Hp & _) Hl.
  assert (life w None None w) as Hw by (split; [done|apply untouched_refl]).
  unfold Video.generate_video.
  destruct (trimmed (b_prompt req)) as [p|m]; [|auto with life].
  destruct (numbers_of parseInt10 toStr cfg req) as [n|m]; [|auto with life].
  destruct (too_short p); [auto with life|].
  destruct (String.eqb (API_KEY cfg) ""); [auto with life|].
  set (job := new_job parseInt10 cfg env uuid p n).
  set (r := length (heap w)).
  assert (lifecycle (Some r) (alloc job w)) as Ha.
  { destruct Hl as (He & Hph & _). split; [|split; [|split]].
    - intros r' job'. simpl. intros Hr'. apply lookup_app_Some in Hr' as [Hr'|[_ Hr']].
      + by eapply He.
      + apply list_lookup_singleton_Some in Hr' as [_ <-]. done.
    - intros r' job'. simpl. intros Hr' Hne. apply lookup_app_Some in Hr' as [Hr'|[Hge Hr']].
      + by apply (Hph r' job' Hr').
      + apply list_lookup_singleton_Some in Hr' as [Hr' _]. destruct Hne. f_equal.
        unfold r. lia.
    - change (in_flight r (alloc job w)) with (in_flight r w). apply in_flight_none.
      intros t Ht. apply list_elem_of_lookup in Ht as [i Ht].
      destruct (Forall_lookup_1 _ _ _ _ Hp Ht) as (j & Hj & _). simpl in Hj.
      apply lookup_lt_Some in Hj. unfold r. lia.
    - exists job. split; [|done]. simpl. by apply list_lookup_middle. }
  assert (untouched None w (alloc job w)) as Hu.
  { intros r' job' Hr' _. exists job'. split; [|done]. simpl.
    rewrite lookup_app_l; [done|]. by eapply lookup_lt_Some. }
  unfold detached. apply life_emit. eapply life_suspend_close; [reflexivity|reflexivity|].
  apply life_emit, life_jobs_set. split.
  - apply lifecycle_mutate_open; [solve [side]|]. by apply lifecycle_jobs_set.
  - apply untouched_mutate_keep; [done|]. by eapply untouched_same.
Qed.

Lemma life_step w e w' :
  well_formed w -> lifecycle None w -> step w e = Some w' ->
  exists c, life w c None w' /\
            forall r, c = Some r -> in_flight r w <> 0%nat.
Proof.
  intros Hwf Hl Hstep.
  assert (forall i t, pending w !! i = Some t ->
            forall r, resumes t = Some r -> in_flight r w <> 0%nat) as Hc.
  { intros i t Ht r Hr. unfold resumes in Hr. destruct (submitting t) eqn:Hs; [|done].
    injection Hr as <-. unfold in_flight.
    rewrite (in_flight_delete _ _ _ _ Ht). unfold submits. rewrite Hs, Nat.eqb_refl.
    simpl. lia. }
  destruct e as [env uuid req|env|i env reply|i env file|i env]; simpl in Hstep.
  - injection Hstep as <-. exists None. split; [by apply life_post|done].
  - injection Hstep as <-. exists None. split; [|done].
    apply life_sweep_from. split; [done|apply untouched_refl].
  - destruct (pending w !! i) as [t|] eqn:Ht; [|done].
    pose proof (life_resumed w i t Hwf Hl Ht) as Hk.
    exists (resumes t). split; [|by eapply Hc].
    destruct t as [k r|k r pdata|k r pdata v saved|pos k r|pos k r sData u
                   |pos k r sData u saved]; try done; injection Hstep as <-;
      unfold resumes in *; simpl in Hk |- *.
    + unfold on_submit, submit_failed.
      destruct reply as [pResp|m]; [|auto with life].
      destruct (ok pResp); simpl; [|auto with life].
      destruct (json pResp) as [pdata|m]; [|auto with life].
      destruct (get pdata "video_url") as [video_url|m]; [|auto with life].
      destruct (truthy video_url).
      { pose proof (life_save w (Some r) (Some r) env JUndefined video_url _ Hk) as H.
        destruct (saveVideoFromBase64OrUrl _ _ _ _); auto with life. }
      destruct (truthy (prop pdata "video_base64")).
      { pose proof (life_save w (Some r) (Some r) env (prop pdata "video_base64")
                      JUndefined _ Hk) as H.
        destruct (saveVideoFromBase64OrUrl _ _ _ _); auto with life. }
      destruct (truthy (handle_of pdata)) eqn:Hh; auto with life.
    + unfold on_status.
      destruct reply as [sResp|m]; [|auto with life].
      destruct (ok sResp); simpl; [|auto with life].
      destruct (json sResp) as [sData|m]; [|auto with life].
      destruct (provider_status sData) as [st|m] eqn:Hst; [|auto with life].
      destruct (says_done st).
      { pose proof (life_save w None None env (b64_of sData) (vidUrl_of sData) _ Hk) as H.
        destruct (saveVideoFromBase64OrUrl _ _ _ _); auto with life. }
      destruct (says_failed st) eqn:Hf; [|auto with life].
      pose proof (says_failed_set sData st Hst Hf) as Hset. auto with life.
  - destruct (pending w !! i) as [t|] eqn:Ht; [|done].
    pose proof (life_resumed w i t Hwf Hl Ht) as Hk.
    exists (resumes t). split; [|by eapply Hc].
    destruct t as [k r|k r pdata|k r pdata v saved|pos k r|pos k r sData u
                   |pos k r sData u saved]; try done; injection Hstep as <-;
      unfold resumes in *; simpl in Hk |- *.
    + unfold on_submit_download.
      pose proof (life_save_downloaded w (Some r) (Some r) env (prop pdata "video_url")
                    file _ Hk) as H.
      destruct (save_downloaded _ _ _ _) as [w1 saved]. by apply life_on_submit_saved.
    + unfold on_poll_download.
      pose proof (life_save_downloaded w None None env u file _ Hk) as H.
      destruct (save_downloaded _ _ _ _) as [w1 saved]. by apply life_on_poll_saved.
  - destruct (pending w !! i) as [t|] eqn:Ht; [|done].
    pose proof (life_resumed w i t Hwf Hl Ht) as Hk.
    exists (resumes t). split; [|by eapply Hc].
    destruct t as [k r|k r pdata|k r pdata v saved|pos k r|pos k r sData u
                   |pos k r sData u saved]; try done; injection Hstep as <-;
      unfold resumes in *; simpl in Hk |- *.
    + by apply life_on_submit_saved.
    + by apply life_on_poll_saved.
Qed.

Lemma lifecycle_boot : lifecycle None boot.
Proof. split; [|split]; [intros r job|intros r job|]; done. Qed.

Lemma lifecycle_run events w w' :
  well_formed w -> lifecycle None w -> run w events = Some w' ->
  well_formed w' /\ lifecycle None w'.
Proof.
  revert w. induction events as [|e events IH]; intros w Hwf Hl Hrun; simpl in Hrun.
  - by injection Hrun as <-.
  - destruct (step w e) as [w1|] eqn:Hstep; [|done].
    destruct (life_step w e w1 Hwf Hl Hstep) as (c & [Hl1 _] & _).
    destruct (RegistryProofs.well_formed_step parseInt10 bufferFrom toStr cfg w e w1 Hwf Hstep)
      as (Hwf1 & _).
    by apply (IH w1).
Qed.

Lemma reached events w :
  run boot events = Some w -> well_formed w /\ lifecycle None w.
Proof. apply lifecycle_run; [apply RegistryProofs.well_formed_boot|apply lifecycle_boot]. Qed.

Lemma handle_kept more w w' r job :
  well_formed w -> lifecycle None w ->
  heap w !! r = Some job -> providerJobId job <> JNull ->
  run w more = Some w' ->
  exists job', heap w' !! r = Some job' /\ providerJobId job' = providerJobId job.
Proof.
  revert w job. induction more as [|e more IH]; intros w job Hwf Hl Hr Hh Hrun; simpl in Hrun.
  - injection Hrun as <-. by exists job.
  - destruct (step w e) as [w1|] eqn:Hstep; [|done].
    destruct (life_step w e w1 Hwf Hl Hstep) as (c & [Hl1 Hu] & Hc).
    destruct (RegistryProofs.well_formed_step parseInt10 bufferFrom toStr cfg w e w1 Hwf Hstep)
      as (Hwf1 & _).
    destruct Hl as (_ & Hph & _). destruct (Hph r job Hr) as (H1 & H2 & _); [done|].
    destruct (Hu r job Hr) as (job1 & Hr1 & Hh1).
    { intros ->. specialize (Hc r eq_refl). apply Hh, H2. lia. }
    destruct (IH w1 job1 Hwf1 Hl1 Hr1) as (job' & Hr' & Hh'); [congruence|done|].
    exists job'. split; [done|congruence].
Qed.

(** X19. In every state reached from the empty registry, a job that
    [GET /api/status/:jobId] reports as "failed" is reported with an
    error: whichever of the timeout, the provider's refusal, an
    unexpected answer or a thrown exception failed it, [error] is neither
    absent nor null in the answer. *)
Theorem failed_job_shows_error (events : list Event) (w : World) (k : string) :
  run boot events = Some w ->
  prop (body (status_route k w)) "status" = JStr "failed" ->
  is_set (prop (body (status_route k w)) "error") = true.
Proof.
  intros Hrun. destruct (reached events w Hrun) as [_ (He & _)].
  unfold status_route. destruct (map_get k (jobs w)) as [r|]; [|done].
  destruct (heap w !! r) as [job|] eqn:Hr; [|done]. simpl.
  intros Hs. apply (He r job Hr). by destruct (status job).
Qed.

(** X20. In every state reached from the empty registry a job object has
    at most one detached submission task in flight (suspended at the
    submission, at the download or at the save); while one is in flight
    the job has no provider handle; and a job that is [processing]
    without a handle, the kind the sweep skips, still has its submission
    task in flight, so something is left to settle it. *)
Theorem submission_in_flight_until_handle
    (events : list Event) (w : World) (r : nat) (job : Job) :
  run boot events = Some w ->
  heap w !! r = Some job ->
  (in_flight r w <= 1)%nat /\
  (in_flight r w = 1%nat -> providerJobId job = JNull) /\
  (status job = processing -> truthy (providerJobId job) = false ->
   exists t, t ∈ pending w /\ submitting t = true /\ task_ref t = r).
Proof.
  intros Hrun Hr. destruct (reached events w Hrun) as [_ (_ & Hph & _)].
  destruct (Hph r job Hr) as (H1 & H2 & H3); [done|]. split; [done|]. split; [done|].
  intros Hs Hh. apply in_flight_some. intros H0. rewrite (H3 H0 Hs) in Hh. done.
Qed.

(** X21. A provider handle is assigned once: when a job object of a
    reached state has a handle, it has the same handle after every
    further run, whatever answers, sweeps and submissions follow. *)
Theorem provider_handle_never_changes
    (events more : list Event) (w w' : World) (r : nat) (job : Job) :
  run boot events = Some w ->
  heap w !! r = Some job ->
  providerJobId job <> JNull ->
  run w more = Some w' ->
  exists job', heap w' !! r = Some job' /\ providerJobId job' = providerJobId job.
Proof.
  intros Hrun Hr Hh Hmore. destruct (reached events w Hrun) as [Hwf Hl].
  by eapply handle_kept.
Qed.

End Server.

(** X19, at the job of [Sample.submitted] once a sweep has timed it out. *)
Lemma failed_job_shows_error_witness :
  is_set (prop (body (status_route "job-1"
                        (Video.pollWorker Sample.parseInt10 Sample.toStr Sample.video_cfg
                           (Sample.at_ 303000) Sample.submitted))) "error") = true.
Proof.
  exact (failed_job_shows_error Sample.parseInt10 Sample.bufferFrom Sample.toStr
           Sample.video_cfg
           [Post (Sample.at_ 0) "job-1" Sample.fox; Tick (Sample.at_ 303000)] _ "job-1"
           eq_refl eq_refl).
Defined.

(** X20, at [Sample.submitted], whose job waits for the provider. *)
Lemma submission_in_flight_until_handle_witness :
  (in_flight 0 Sample.submitted <= 1)%nat /\
  (in_flight 0 Sample.submitted = 1%nat -> providerJobId Cases.fox_job = JNull) /\
  (status Cases.fox_job = processing -> truthy (providerJobId Cases.fox_job) = false ->
   exists t, t ∈ pending Sample.submitted /\ submitting t = true /\ task_ref t = 0%nat).
Proof.
  exact (submission_in_flight_until_handle Sample.parseInt10 Sample.bufferFrom Sample.toStr
           Sample.video_cfg [Post (Sample.at_ 0) "job-1" Sample.fox] Sample.submitted 0
           Cases.fox_job eq_refl eq_refl).
Defined.

(** X21, at [Sample.handled] and a sweep two seconds later. *)
Lemma provider_handle_never_changes_witness :
  exists job',
    heap (Video.pollWorker Sample.parseInt10 Sample.toStr Sample.video_cfg
            (Sample.at_ 3000) Sample.handled) !! 0%nat = Some job' /\
    providerJobId job' = JStr "abc123".
Proof.
  refine (provider_handle_never_changes Sample.parseInt10 Sample.bufferFrom Sample.toStr
            Sample.video_cfg
            [Post (Sample.at_ 0) "job-1" Sample.fox;
             Replied 0 (Sample.at_ 1000) (Sample.answer (JObj [("task_id", JStr "abc123")]))]
            [Tick (Sample.at_ 3000)] Sample.handled _ 0 Cases.fox_job_handled
            eq_refl eq_refl _ eq_refl).
  discriminate.
Defined.

End LifecycleProofs.

(* ===================================================================== *)
(** ** The video server: a submission answered with the result            *)
(* ===================================================================== *)

Module SubmissionProofs.

Import Http Video Registry.

Lemma get_prop (v x : JVal) (k : string) : get v k = Ok x -> prop v k = x.
Proof. destruct v; simpl; congruence. Qed.

Section Server.

Variable parseInt10 : string -> option Z.
Variable bufferFrom : JVal -> Exc (list Byte.byte).
Variable toStr : JVal -> Exc string.
Variable cfg : Config.

Abbreviation step := (step parseInt10 bufferFrom toStr cfg).
Abbreviation run := (run parseInt10 bufferFrom toStr cfg).

Lemma run_two (w : World) (e1 e2 : Event) :
  run w [e1; e2] =
  match step w e1 with
  | Some w1 => step w1 e2
  | None => None
  end.
Proof.
  unfold Video.run. destruct (step w e1) as [w1|]; [|done]. by destruct (step w1 e2).
Qed.

(** X22. A submission that the provider answers with a [video_url]
    always ends with the job [succeeded] and a result, whatever else the
    answer holds: the worker fetches the URL, and once the download has
    settled the answer is kept as [providerResponse], no handle is
    assigned, and the task is gone. When the fetch is rejected, is
    answered outside 200..299 or its body cannot be read, nothing is
    written and [resultUrl] is the provider's URL itself. When the body
    has been read, its bytes are written to "video-<clock>-<draw>.mp4":
    if the write succeeds, [resultUrl] is "/out/" followed by that name;
    if it throws, [resultUrl] is the provider's URL. *)
Theorem immediate_url_always_succeeds
    (env env' : Env) (w : World) (i : nat) (k : string) (r : nat) (job : Job)
    (resp : Response) (pdata u : JVal) (file : Exc Download) :
  pending w !! i = Some (AwaitSubmit k r) ->
  heap w !! r = Some job ->
  ok resp = true -> json resp = Ok pdata ->
  get pdata "video_url" = Ok u -> truthy u = true ->
  let round := run w [Replied i env (Ok resp);
                      Downloaded (length (delete i (pending w))) env' file] in
  let name := "video-" +:+ show (now env') +:+ "-" +:+ show (rnd env') +:+ ".mp4" in
  let settled (effects : list Effect) (saved : JVal) :=
    exists w',
      round = Some w' /\
      wire w' = wire w ++ Downloading u :: effects /\
      heap w' = alter (submit_succeed saved pdata) r (heap w) /\
      jobs w' = map_set k r (jobs w) /\
      pending w' = delete i (pending w) /\
      status (submit_succeed saved pdata job) = succeeded /\
      resultUrl (submit_succeed saved pdata job) = saved /\
      truthy saved = true /\
      providerJobId (submit_succeed saved pdata job) = providerJobId job in
  (fetched file = None -> settled [] u) /\
  (forall buffer, fetched file = Some buffer -> disk env' = Ok () ->
     settled [Wrote name buffer] (JStr ("/out/" +:+ name))) /\
  (forall buffer m, fetched file = Some buffer -> disk env' = Raise m ->
     settled [Wrote name buffer] u).
Proof.
  intros Hp Hr Hok Hj Hu Ht round name settled. subst round settled. rewrite run_two.
  set (seen := emit (Downloading u) (unsuspend i w)).
  assert (step w (Replied i env (Ok resp)) =
          Some (suspend (AwaitSubmitDownload k r pdata) seen)) as ->.
  { unfold Video.step. rewrite Hp. unfold on_submit. rewrite Hok, Hj, Hu, Ht. simpl.
    unfold Video.saveVideoFromBase64OrUrl. simpl. by rewrite Ht. }
  destruct (SweepProofs.resume_last (AwaitSubmitDownload k r pdata) seen) as [Hl Hun].
  change (length (pending seen)) with (length (delete i (pending w))) in Hl, Hun.
  unfold Video.step. rewrite Hl, Hun. unfold on_submit_download.
  rewrite (get_prop _ _ _ Hu), SweepProofs.stored_or_not. fold name.
  assert (forall saved stored,
    heap stored = heap w -> jobs stored = jobs w -> pending stored = delete i (pending w) ->
    truthy saved = true ->
    exists w',
      Some (on_submit_saved k r pdata true (Ok saved) stored) = Some w' /\
      wire w' = wire stored /\
      heap w' = alter (submit_succeed saved pdata) r (heap w) /\
      jobs w' = map_set k r (jobs w) /\
      pending w' = delete i (pending w) /\
      status (submit_succeed saved pdata job) = succeeded /\
      resultUrl (submit_succeed saved pdata job) = saved /\
      truthy saved = true /\
      providerJobId (submit_succeed saved pdata job) = providerJobId job) as Hend.
  { intros saved stored Hh Hjs Hpd Hsaved. eexists. split; [reflexivity|].
    unfold on_submit_saved. rewrite (get_prop _ _ _ Hu).
    assert (or_ saved u = saved) as -> by (unfold or_; by rewrite Hsaved).
    simpl. rewrite Hh, Hjs. done. }
  split; [|split].
  - intros ->. destruct (Hend u seen) as (w' & H1 & H2 & H3); try done.
    exists w'. split; [done|]. split; [|done]. rewrite H2. simpl.
    by rewrite <- ?app_assoc.
  - intros buffer -> ->.
    destruct (Hend (JStr ("/out/" +:+ name)) (emit (Wrote name buffer) seen))
      as (w' & H1 & H2 & H3); try done.
    exists w'. split; [done|]. split; [|done]. rewrite H2. simpl.
    by rewrite <- ?app_assoc.
  - intros buffer m -> ->.
    destruct (Hend u (emit (Wrote name buffer) seen)) as (w' & H1 & H2 & H3); try done.
    exists w'. split; [done|]. split; [|done]. rewrite H2. simpl.
    by rewrite <- ?app_assoc.
Qed.

(** X23. A submission that the provider answers with a [video_base64]
    payload and no [video_url] is settled without a download: when the
    payload decodes and the file is written, the job ends [succeeded]
    with the local path of that file; when decoding or writing throws,
    the job ends [failed] with the message of the exception as its
    error. *)
Theorem immediate_payload_succeeds_or_fails
    (env env' : Env) (w : World) (i : nat) (k : string) (r : nat)
    (resp : Response) (pdata u : JVal) :
  pending w !! i = Some (AwaitSubmit k r) ->
  ok resp = true -> json resp = Ok pdata ->
  get pdata "video_url" = Ok u -> truthy u = false ->
  truthy (prop pdata "video_base64") = true ->
  let round := run w [Replied i env (Ok resp);
                      Resumed (length (delete i (pending w))) env'] in
  let name := "video-" +:+ show (now env) +:+ "-" +:+ show (rnd env) +:+ ".mp4" in
  (forall buffer, bufferFrom (prop pdata "video_base64") = Ok buffer -> disk env = Ok () ->
     exists w',
       round = Some w' /\
       wire w' = wire w ++ [Wrote name buffer] /\
       heap w' = alter (submit_succeed (JStr ("/out/" +:+ name)) pdata) r (heap w) /\
       pending w' = delete i (pending w)) /\
  (forall m,
     bufferFrom (prop pdata "video_base64") = Raise m \/
     (exists buffer, bufferFrom (prop pdata "video_base64") = Ok buffer /\
                     disk env = Raise m) ->
     exists w',
       round = Some w' /\
       heap w' = alter (fun job => set_error (JStr m) (set_status failed job)) r (heap w) /\
       pending w' = delete i (pending w)).
Proof.
  intros Hp Hok Hj Hu Ht Hb round name. subst round. rewrite run_two.
  assert (step w (Replied i env (Ok resp)) =
          Some (match bufferFrom (prop pdata "video_base64") with
                | Ok buffer =>
                    suspend (AwaitSubmitSaved k r pdata false
                               (bindE (disk env) (fun _ => Ok (JStr ("/out/" +:+ name)))))
                      (emit (Wrote name buffer) (unsuspend i w))
                | Raise m =>
                    suspend (AwaitSubmitSaved k r pdata false (Raise m)) (unsuspend i w)
                end)) as ->.
  { unfold Video.step. rewrite Hp. unfold on_submit. rewrite Hok, Hj, Hu, Ht, Hb. simpl.
    unfold Video.saveVideoFromBase64OrUrl, save_buffer. rewrite Hb.
    by destruct (bufferFrom (prop pdata "video_base64")). }
  split.
  - intros buffer Hbuf Hdisk. rewrite Hbuf, Hdisk. simpl bindE.
    set (seen := emit (Wrote name buffer) (unsuspend i w)).
    destruct (SweepProofs.resume_last
                (AwaitSubmitSaved k r pdata false (Ok (JStr ("/out/" +:+ name)))) seen)
      as [Hl Hun].
    change (length (pending seen)) with (length (delete i (pending w))) in Hl, Hun.
    unfold Video.step. rewrite Hl, Hun. unfold on_submit_saved.
    eexists. split; [reflexivity|]. done.
  - intros m Hfail.
    assert (exists seen,
      match bufferFrom (prop pdata "video_base64") with
      | Ok buffer =>
          suspend (AwaitSubmitSaved k r pdata false
                     (bindE (disk env) (fun _ => Ok (JStr ("/out/" +:+ name)))))
            (emit (Wrote name buffer) (unsuspend i w))
      | Raise m =>
          suspend (AwaitSubmitSaved k r pdata false (Raise m)) (unsuspend i w)
      end = suspend (AwaitSubmitSaved k r pdata false (Raise m)) seen /\
      heap seen = heap w /\ pending seen = delete i (pending w)) as (seen & -> & Hh & Hpd).
    { destruct Hfail as [-> | (buffer & -> & ->)]; eexists; done. }
    destruct (SweepProofs.resume_last (AwaitSubmitSaved k r pdata false (Raise m)) seen)
      as [Hl Hun].
    rewrite Hpd in Hl, Hun. unfold Video.step. rewrite Hl, Hun.
    unfold on_submit_saved, submit_failed.
    eexists. split; [reflexivity|]. simpl. by rewrite Hh.
Qed.

End Server.

(** X22, at [Sample.submitted] and an answer with a [video_url]: once
    with a download that is answered with 404, once with one whose two
    bytes are stored. *)
Lemma immediate_url_always_succeeds_witness :
  (exists w',
     Sample.run Sample.submitted
       [Replied 0 (Sample.at_ 1000)
          (Sample.answer (JObj [("video_url", JStr "https://x/v.mp4")]));
        Downloaded 0 (Sample.at_ 2000) (Ok {| dl_status := 404; dl_buffer := Ok [] |})] =
     Some w' /\
     wire w' = wire Sample.submitted ++ [Downloading (JStr "https://x/v.mp4")] /\
     heap w' = alter (submit_succeed (JStr "https://x/v.mp4")
                        (JObj [("video_url", JStr "https://x/v.mp4")]))
                 0%nat (heap Sample.submitted)) /\
  (exists w',
     Sample.run Sample.submitted
       [Replied 0 (Sample.at_ 1000)
          (Sample.answer (JObj [("video_url", JStr "https://x/v.mp4")]));
        Downloaded 0 (Sample.at_ 2000) Sample.video_file] = Some w' /\
     wire w' = wire Sample.submitted ++
               [Downloading (JStr "https://x/v.mp4");
                Wrote "video-2000-7.mp4" [Byte.x00; Byte.x01]] /\
     heap w' = alter (submit_succeed (JStr "/out/video-2000-7.mp4")
                        (JObj [("video_url", JStr "https://x/v.mp4")]))
                 0%nat (heap Sample.submitted)).
Proof.
  split.
  - destruct (immediate_url_always_succeeds Sample.parseInt10 Sample.bufferFrom Sample.toStr
                Sample.video_cfg (Sample.at_ 1000) (Sample.at_ 2000) Sample.submitted 0 "job-1"
                0 Cases.fox_job
                (Cases.answered (JObj [("video_url", JStr "https://x/v.mp4")]))
                (JObj [("video_url", JStr "https://x/v.mp4")]) (JStr "https://x/v.mp4")
                (Ok {| dl_status := 404; dl_buffer := Ok [] |})
                eq_refl eq_refl eq_refl eq_refl eq_refl eq_refl) as [H _].
    destruct (H eq_refl) as (w' & Hrun & Hw & Hh & _).
    exists w'. split; [exact Hrun|]. split; [exact Hw | exact Hh].
  - destruct (immediate_url_always_succeeds Sample.parseInt10 Sample.bufferFrom Sample.toStr
                Sample.video_cfg (Sample.at_ 1000) (Sample.at_ 2000) Sample.submitted 0 "job-1"
                0 Cases.fox_job
                (Cases.answered (JObj [("video_url", JStr "https://x/v.mp4")]))
                (JObj [("video_url", JStr "https://x/v.mp4")]) (JStr "https://x/v.mp4")
                Sample.video_file
                eq_refl eq_refl eq_refl eq_refl eq_refl eq_refl) as (_ & H & _).
    destruct (H [Byte.x00; Byte.x01] eq_refl eq_refl) as (w' & Hrun & Hw & Hh & _).
    exists w'. split; [exact Hrun|]. split; [exact Hw | exact Hh].
Defined.

(** X23, at [Sample.submitted] and an answer with the payload "QUJD". *)
Lemma immediate_payload_succeeds_or_fails_witness :
  exists w',
    Sample.run Sample.submitted
      [Replied 0 (Sample.at_ 1000) (Sample.answer (JObj [("video_base64", JStr "QUJD")]));
       Resumed 0 (Sample.at_ 1000)] = Some w' /\
    wire w' = wire Sample.submitted ++ [Wrote "video-1000-7.mp4" Sample.ABC] /\
    heap w' = alter (submit_succeed (JStr "/out/video-1000-7.mp4")
                       (JObj [("video_base64", JStr "QUJD")])) 0%nat (heap Sample.submitted).
Proof.
  destruct (immediate_payload_succeeds_or_fails Sample.parseInt10 Sample.bufferFrom
              Sample.toStr Sample.video_cfg (Sample.at_ 1000) (Sample.at_ 1000)
              Sample.submitted 0 "job-1" 0
              (Cases.answered (JObj [("video_base64", JStr "QUJD")]))
              (JObj [("video_base64", JStr "QUJD")]) JUndefined
              eq_refl eq_refl eq_refl eq_refl eq_refl eq_refl) as [H _].
  destruct (H Sample.ABC eq_refl eq_refl) as (w' & Hrun & Hw & Hh & _).
  exists w'. split; [exact Hrun|]. split; [exact Hw | exact Hh].
Defined.

End SubmissionProofs.

(* ===================================================================== *)
(** ** The video server: the status URL                                   *)
(* ===================================================================== *)

Module StatusUrlProofs.

Import Http Video Shape.

Lemma substring_all (s : string) (m : nat) :
  (String.length s <= m)%nat -> String.substring 0 m s = s.
Proof.
  revert m. induction s as [|c s IH]; intros [|m] H; simpl in *; try done; try lia.
  f_equal. apply IH. lia.
Qed.

Lemma startsWith_app (pat post : string) : startsWith (pat +:+ post) pat = true.
Proof.
  induction pat as [|a pat IH].
  - change ("" +:+ post) with post. by destruct post.
  - change (String a pat +:+ post) with (String a (pat +:+ post)). simpl.
    by rewrite Ascii.eqb_refl, IH.
Qed.

Lemma substring_from (pat post : string) (m : nat) :
  (String.length post <= m)%nat ->
  String.substring (String.length pat) m (pat +:+ post) = post.
Proof.
  intros H. induction pat as [|a pat IH].
  - change ("" +:+ post) with post. by apply substring_all.
  - change (String a pat +:+ post) with (String a (pat +:+ post)). exact IH.
Qed.

Lemma length_append_r (pat post : string) :
  (String.length post <= String.length (pat +:+ post))%nat.
Proof.
  induction pat as [|a pat IH].
  - change ("" +:+ post) with post. lia.
  - change (String a pat +:+ post) with (String a (pat +:+ post)). simpl. lia.
Qed.

Lemma substring_skip (pat post : string) :
  String.substring (String.length pat) (String.length (pat +:+ post)) (pat +:+ post) = post.
Proof. apply substring_from, length_append_r. Qed.

Lemma split_at_here (pat s : string) :
  startsWith s pat = true ->
  split_at pat s = Some ("", String.substring (String.length pat) (String.length s) s).
Proof. intros H. destruct s; cbn [split_at]; by rewrite H. Qed.

Lemma split_at_step (pat : string) (c : ascii) (r : string) :
  startsWith (String c r) pat = false ->
  split_at pat (String c r) =
  match split_at pat r with
  | Some (before, after) => Some (String c before, after)
  | None => None
  end.
Proof. intros H. cbn [split_at]. by rewrite H. Qed.

Lemma split_at_first (pre post : string) :
  lacks "{" pre = true ->
  split_at "{jobId}" (pre +:+ "{jobId}" +:+ post) = Some (pre, post).
Proof.
  induction pre as [|c pre IH]; simpl lacks; intros H.
  - change ("" +:+ "{jobId}" +:+ post) with ("{jobId}" +:+ post).
    rewrite split_at_here by apply startsWith_app. by rewrite substring_skip.
  - apply andb_true_iff in H as [Hc H]. apply negb_true_iff in Hc.
    change (String c pre +:+ "{jobId}" +:+ post) with (String c (pre +:+ "{jobId}" +:+ post)).
    rewrite split_at_step, (IH H); [done|].
    cbn [startsWith]. by rewrite Ascii.eqb_sym, Hc.
Qed.

Lemma split_at_absent (pat s : string) : includes s pat = false -> split_at pat s = None.
Proof.
  induction s as [|c s IH]; simpl; intros H; apply orb_false_iff in H as [H1 H2].
  - by rewrite H1.
  - rewrite H1. by rewrite (IH H2).
Qed.

Lemma expand_plain (rep matched before after : string) :
  lacks "$" rep = true -> expand rep matched before after = rep.
Proof.
  induction rep as [|a rep IH]; simpl; [done|]. intros H.
  apply andb_true_iff in H as [Ha H]. apply negb_true_iff in Ha. rewrite Ha.
  by rewrite (IH H).
Qed.

Section Server.

Variable toStr : JVal -> Exc string.
Variable cfg : Config.

(** X24. [buildStatusUrl] first turns the handle into a string, as
    [replace] does with its second argument. When that conversion throws
    (an object whose own [toString] is no function), [buildStatusUrl]
    throws the same exception, whatever the template. Otherwise it
    returns the template unchanged when the template holds no [{jobId}],
    so that every job is then asked about at the same URL; and when the
    template holds [{jobId}] after a prefix without a brace, the URL is
    the template with that first [{jobId}] replaced by the handle's
    string, provided this string holds no dollar sign (which [replace]
    would expand). *)
Theorem status_url_puts_handle_in_place (v : JVal) :
  (forall m, ToString toStr v = Raise m -> buildStatusUrl toStr cfg v = Raise m) /\
  (forall handle,
     ToString toStr v = Ok handle ->
     (includes (VIDEO_STATUS_URL_TEMPLATE cfg) "{jobId}" = false ->
      buildStatusUrl toStr cfg v = Ok (VIDEO_STATUS_URL_TEMPLATE cfg)) /\
     (forall pre post,
        VIDEO_STATUS_URL_TEMPLATE cfg = pre +:+ "{jobId}" +:+ post ->
        lacks "{" pre = true ->
        lacks "$" handle = true ->
        buildStatusUrl toStr cfg v = Ok (pre +:+ handle +:+ post))).
Proof.
  unfold buildStatusUrl. split.
  - intros m ->. reflexivity.
  - intros handle ->. unfold bindE, replace. split.
    + intros H. by rewrite (split_at_absent _ _ H).
    + intros pre post -> Hpre Hv. rewrite (split_at_first pre post Hpre).
      by rewrite (expand_plain _ _ _ _ Hv).
Qed.

End Server.

(** X24, at the default template: the handle "abc123", and a handle that
    is an object with an own [toString] that is a number. *)
Lemma status_url_puts_handle_in_place_witness :
  buildStatusUrl Sample.toStr Sample.video_cfg (JStr "abc123") =
    Ok "https://api.stability.ai/v2beta/video/status/abc123" /\
  buildStatusUrl Sample.toStr Sample.video_cfg Sample.unconvertible =
    Raise "Cannot convert object to primitive value".
Proof.
  split.
  - exact (proj2 (proj2 (status_url_puts_handle_in_place Sample.toStr Sample.video_cfg
                           (JStr "abc123")) "abc123" eq_refl)
             "https://api.stability.ai/v2beta/video/status/" "" eq_refl eq_refl eq_refl).
  - exact (proj1 (status_url_puts_handle_in_place Sample.toStr Sample.video_cfg
                    Sample.unconvertible) "Cannot convert object to primitive value" eq_refl).
Defined.

End StatusUrlProofs.
